(** * Fluxion AI backend: tenant isolation layer, inventory ledger,
    FIFO valuation and insight generation

  A shallow embedding of the multi-tenant models and middleware
  (models/Inventory.cjs, models/Insights.cjs, services/TenantService.cjs,
  middleware/tenantMiddleware.cjs, config/database.cjs and the routes
  that call them), followed by the properties of the specification
  that can be settled on it. *)

From Stdlib Require Import ZArith List String Ascii Bool Lia.
From stdpp Require Import base option list gmap strings pretty sorting.
Import ListNotations.

Open Scope string_scope.
Open Scope list_scope.
Open Scope Z_scope.

(* ===================================================================== *)
(** ** JavaScript values used by the code *)
(* ===================================================================== *)

Module Js.

(** A thrown [Error(msg)] is the left injection, a returned value the
    right one. *)
Definition result (A : Type) : Type := (string + A)%type.

(** Truthiness of a string-valued slot.  A slot that is [undefined] or
    [null] in the request is represented by the empty string: the code
    only tests these slots for truthiness before reading them. *)
Definition truthy (s : string) : bool := negb (String.eqb s "").

(** Truthiness of an optional number ([undefined], [null] and [0] are
    falsy). *)
Definition truthy_num (n : option Z) : bool :=
  match n with
  | Some v => negb (Z.eqb v 0)
  | None => false
  end.

(** [s.startsWith(p)] *)
Definition startsWith (s p : string) : bool := String.prefix p s.

(** [s.includes(t)] *)
Fixpoint includes (s t : string) : bool :=
  String.prefix t s ||
  match s with
  | EmptyString => false
  | String _ s' => includes s' t
  end.

(** [s.split(sep)] for a one-character separator. *)
Fixpoint split_go (sep : ascii) (cur : string) (s : string) : list string :=
  match s with
  | EmptyString => [String.rev cur]
  | String c s' =>
      if Ascii.eqb c sep then String.rev cur :: split_go sep "" s'
      else split_go sep (String c cur) s'
  end.

Definition split (s : string) (sep : ascii) : list string := split_go sep "" s.

(** Template-literal rendering of an integer. *)
Definition show (z : Z) : string := pretty z.

(** Number of characters of a UTF-8 text: its bytes but the
    continuation bytes. *)
Fixpoint chars (s : string) : Z :=
  match s with
  | EmptyString => 0
  | String c s' =>
      let n := nat_of_ascii c in
      (if ((128 <=? n)%nat && (n <? 192)%nat)%bool then 0 else 1) + chars s'
  end.

(** What a member of the request body holds where the code computes
    with it.  [Num] is an integer number, [Str] a string (a quoted JSON
    member, or any member of a form-encoded body) and [NaN] the number
    the arithmetic gives on text that is no number.  Fractions,
    infinities, [null] and missing members are not represented. *)
Inductive value :=
| Num (z : Z)
| NaN
| Str (s : string).

Definition digit (c : ascii) : option Z :=
  let n := nat_of_ascii c in
  if ((48 <=? n)%nat && (n <=? 57)%nat)%bool then Some (Z.of_nat n - 48) else None.

Fixpoint digits (acc : Z) (s : string) : option Z :=
  match s with
  | EmptyString => Some acc
  | String c s' =>
      match digit c with
      | Some k => digits (10 * acc + k) s'
      | None => None
      end
  end.

(** Integer decimal notation: an optional sign and at least one digit. *)
Definition integer (s : string) : option Z :=
  match s with
  | EmptyString => None
  | String c rest =>
      if Ascii.eqb c "-" then
        match rest with
        | EmptyString => None
        | _ => Z.opp <$> digits 0 rest
        end
      else if Ascii.eqb c "+" then
        match rest with
        | EmptyString => None
        | _ => digits 0 rest
        end
      else digits 0 s
  end.

(** [Number(v)], as the arithmetic operators and [Math.abs] apply it.
    The empty string is 0 and text in integer decimal notation is its
    value; the other numeric notations of JavaScript (blanks around the
    digits, fractions, exponents, hexadecimal, Infinity) are not
    modelled and count as text that is no number. *)
Definition ToNumber (v : value) : value :=
  match v with
  | Str s =>
      if String.eqb s "" then Num 0
      else match integer s with
           | Some z => Num z
           | None => NaN
           end
  | _ => v
  end.

(** [String(v)], as [+] and the template literals apply it. *)
Definition ToString (v : value) : string :=
  match v with
  | Num z => show z
  | NaN => "NaN"
  | Str s => s
  end.

(** [Math.abs(v)] *)
Definition abs (v : value) : value :=
  match ToNumber v with
  | Num z => Num (Z.abs z)
  | _ => NaN
  end.

(** [-v] *)
Definition neg (v : value) : value :=
  match ToNumber v with
  | Num z => Num (- z)
  | _ => NaN
  end.

(** [a + b]: concatenation as soon as one side is a string. *)
Definition add (a b : value) : value :=
  match a, b with
  | Str _, _ | _, Str _ => Str (ToString a +:+ ToString b)
  | Num x, Num y => Num (x + y)
  | _, _ => NaN
  end.

(** [a - b] *)
Definition sub (a b : value) : value :=
  match ToNumber a, ToNumber b with
  | Num x, Num y => Num (x - y)
  | _, _ => NaN
  end.

(** [v < 0] *)
Definition lt0 (v : value) : bool :=
  match ToNumber v with
  | Num z => z <? 0
  | _ => false
  end.

(** [v !== 0] *)
Definition ne0 (v : value) : bool :=
  match v with
  | Num z => negb (Z.eqb z 0)
  | _ => true
  end.

(** [!v] is false *)
Definition truthy_value (v : value) : bool :=
  match v with
  | Num z => negb (Z.eqb z 0)
  | NaN => false
  | Str s => truthy s
  end.

End Js.

(* ===================================================================== *)
(** ** config/database.cjs and the tables of the schema *)
(* ===================================================================== *)

Module Database.

(** Row of ["<schema>".products].  Money columns are [DECIMAL(_,2)] and
    are held in hundredths, so a product of an integer quantity and a
    price is exact and [ROUND(_, 2)] leaves it as it is. *)
Record product := mkProduct {
  sku : string;
  name : string;
  cost_price : Z;
  selling_price : Z;
  current_stock : Z;
  min_stock_threshold : Z;
  max_stock_threshold : Z;
  active : bool
}.

(** Row of ["<schema>".inventory_movements].  [id] is the serial key;
    rows are kept in insertion order, which is also the order of their
    [created_at] default. *)
Record movement := mkMovement {
  id : Z;
  product_id : Z;
  movement_type : string;
  quantity : Z;
  previous_stock : Z;
  new_stock : Z;
  cost_per_unit : option Z;
  reference_type : string;
  reference_id : option Z;
  notes : string
}.

(** Row of ["<schema>".insights] (the columns the generators fill in;
    the free texts are left out, [data] is kept by its
    [affected_products] count). *)
Record insight := mkInsight {
  insight_id : string;
  triggered_by : string;
  type : string;
  priority : string;
  confidence : Z;
  channels : list string;
  affected_products : Z;
  expires_at : option Z;
  status : string;
  created_at : Z
}.

(** One tenant schema (partition).  [movements_seq] is the last value
    drawn from the sequence behind [inventory_movements.id]. *)
Record tenant_schema := mkSchema {
  products : gmap Z product;
  inventory_movements : list movement;
  insights : list insight;
  movements_seq : Z
}.

(** Row of [public.tenants]. *)
Record tenant := mkTenant {
  tenant_code : string;
  company_name : string;
  plan : string;
  tenant_active : bool
}.

Record database := mkDatabase {
  tenants : list tenant;
  schemas : gmap string tenant_schema
}.

(** [query] sends each statement to [pool.query], which takes any idle
    connection.  The statements of one call either all reach the
    connection on which [BEGIN] ran, or reach connections without an
    open transaction and are committed one by one. *)
Inductive pool_mode := SameConnection | SeparateConnections.

(** The database as the statements sent so far left it, the database
    at [BEGIN], and whether a statement was rejected on the connection
    of the transaction, which then ignores every statement up to its
    end. *)
Record session := mkSession {
  conn_db : database;
  txn_start : database;
  aborted : bool
}.

Definition set_seq (v : Z) (t : tenant_schema) : tenant_schema :=
  {| products := products t; inventory_movements := inventory_movements t;
     insights := insights t; movements_seq := v |}.

(** What the end of a transaction that does not commit leaves: the
    tables as they were at [BEGIN]; the values drawn from a sequence
    are not given back. *)
Definition rolled_back (start now : database) : database :=
  {| tenants := tenants start;
     schemas :=
       map_imap (fun name t =>
                   Some (set_seq (match schemas now !! name with
                                  | Some t' => movements_seq t'
                                  | None => movements_seq t
                                  end) t))
                (schemas start) |}.

Definition query_BEGIN (d : database) : session :=
  {| conn_db := d; txn_start := d; aborted := false |}.

(** [COMMIT] of a transaction in which a statement was rejected ends it
    like [ROLLBACK]. *)
Definition query_COMMIT (mode : pool_mode) (s : session) : database :=
  match mode with
  | SameConnection =>
      if aborted s then rolled_back (txn_start s) (conn_db s) else conn_db s
  | SeparateConnections => conn_db s
  end.

Definition query_ROLLBACK (mode : pool_mode) (s : session) : database :=
  match mode with
  | SameConnection => rolled_back (txn_start s) (conn_db s)
  | SeparateConnections => conn_db s
  end.

(** Message of the driver when a statement names a schema that does
    not exist. *)
Definition no_relation : string := "relation does not exist".

Definition set_schema (sch : string) (t : tenant_schema) (d : database) : database :=
  {| tenants := tenants d; schemas := <[sch := t]> (schemas d) |}.

Definition with_db (s : session) (d : database) : session :=
  {| conn_db := d; txn_start := txn_start s; aborted := aborted s |}.

Definition abort (s : session) : session :=
  {| conn_db := conn_db s; txn_start := txn_start s; aborted := true |}.

(** Message of the server for a statement sent on a connection whose
    transaction is aborted. *)
Definition txn_aborted : string :=
  "current transaction is aborted, commands ignored until end of transaction block".

(** [await query(...)] between [query('BEGIN')] and the end of the
    transaction.  On the connection of the transaction a rejected
    statement aborts it; on another connection every statement is
    committed on its own. *)
Definition run_query {A : Type} (mode : pool_mode)
    (stmt : database -> Js.result (A * database)) (s : session)
  : Js.result A * session :=
  match mode with
  | SameConnection =>
      if aborted s then (inl txn_aborted, s)
      else match stmt (conn_db s) with
           | inl e => (inl e, abort s)
           | inr (a, d') => (inr a, with_db s d')
           end
  | SeparateConnections =>
      match stmt (conn_db s) with
      | inl e => (inl e, s)
      | inr (a, d') => (inr a, with_db s d')
      end
  end.

(** [SELECT ... FROM "<sch>".products WHERE id = $1] *)
Definition select_product (sch : string) (pid : Z) (d : database)
  : Js.result (option product) :=
  match schemas d !! sch with
  | None => inl no_relation
  | Some t => inr (products t !! pid)
  end.

(** *** The columns of [inventory_movements] and [products]

    The statements of the models name the columns of
    postgres-schema.sql; the server converts every parameter to the
    type of its column and rejects the statement when it cannot. *)

Definition quote : string := String (Ascii.ascii_of_nat 34) EmptyString.

Definition out_of_range (txt : string) : string :=
  "value " +:+ quote +:+ txt +:+ quote +:+ " is out of range for type integer".

Definition invalid_integer (txt : string) : string :=
  "invalid input syntax for type integer: " +:+ quote +:+ txt +:+ quote.

Definition numeric_overflow : string := "numeric field overflow".

Definition too_long (n : Z) : string :=
  "value too long for type character varying(" +:+ Js.show n +:+ ")".

Definition invalid_enum (ty txt : string) : string :=
  "invalid input value for enum " +:+ ty +:+ ": " +:+ quote +:+ txt +:+ quote.

(** [INTEGER] *)
Definition fits_int4 (z : Z) : bool :=
  (-2147483648 <=? z) && (z <=? 2147483647).

Definition int4_of (txt : string) (z : Z) : Js.result Z :=
  if fits_int4 z then inr z else inl (out_of_range txt).

(** A parameter bound to an [INTEGER] column: the driver sends its
    text, the server reads an integer in decimal notation. *)
Definition int4 (v : Js.value) : Js.result Z :=
  match v with
  | Js.Num z => int4_of (Js.show z) z
  | Js.NaN => inl (invalid_integer "NaN")
  | Js.Str txt =>
      match Js.integer txt with
      | Some z => int4_of txt z
      | None => inl (invalid_integer txt)
      end
  end.

(** [DECIMAL(10,2)], in hundredths. *)
Definition fits_decimal_10_2 (c : Z) : bool := Z.abs c <? 10000000000.

(** [reference_type_enum] *)
Definition reference_type_enum : list string := ["venta"; "compra"; "ajuste"; "sync"].

(** The parameters [$1 .. $9] of the [INSERT] into
    [inventory_movements], as the code passes them.  [previous_stock]
    is always the number read from [products]. *)
Record movement_params := mkParams {
  a_product_id : Z;
  a_movement_type : string;
  a_quantity : Js.value;
  a_previous_stock : Z;
  a_new_stock : Js.value;
  a_cost_per_unit : option Z;
  a_reference_type : string;
  a_reference_id : option Z;
  a_notes : string
}.

(** The row the server builds from the parameters, or the message with
    which it rejects the first parameter that does not fit its column.
    Every caller passes a [movement_type] of [movement_type_enum]. *)
Definition movement_row (new_id : Z) (a : movement_params) : Js.result movement :=
  match int4 (a_quantity a) with
  | inl e => inl e
  | inr q =>
      match int4 (Js.Num (a_previous_stock a)) with
      | inl e => inl e
      | inr prev =>
          match int4 (a_new_stock a) with
          | inl e => inl e
          | inr new =>
              if negb (fits_decimal_10_2 (default 0 (a_cost_per_unit a))) then
                inl numeric_overflow
              else if negb (bool_decide (a_reference_type a ∈ reference_type_enum)) then
                inl (invalid_enum "reference_type_enum" (a_reference_type a))
              else
                match int4 (Js.Num (default 0 (a_reference_id a))) with
                | inl e => inl e
                | inr _ =>
                    inr {| id := new_id;
                           product_id := a_product_id a;
                           movement_type := a_movement_type a;
                           quantity := q;
                           previous_stock := prev;
                           new_stock := new;
                           cost_per_unit := a_cost_per_unit a;
                           reference_type := a_reference_type a;
                           reference_id := a_reference_id a;
                           notes := a_notes a |}
                end
          end
      end
  end.

(** [INSERT INTO "<sch>".inventory_movements (...) VALUES ($1, ..., $9)
    RETURNING *].  A rejected statement draws no value from the
    sequence; an accepted one draws the next. *)
Definition insert_movement (sch : string) (a : movement_params) (d : database)
  : Js.result (movement * database) :=
  match schemas d !! sch with
  | None => inl no_relation
  | Some t =>
      match movement_row (movements_seq t + 1) a with
      | inl e => inl e
      | inr row =>
          inr (row,
               set_schema sch
                 {| products := products t;
                    inventory_movements := inventory_movements t ++ [row];
                    insights := insights t;
                    movements_seq := movements_seq t + 1 |} d)
      end
  end.

Definition set_stock (v : Z) (p : product) : product :=
  {| sku := sku p; name := name p; cost_price := cost_price p;
     selling_price := selling_price p; current_stock := v;
     min_stock_threshold := min_stock_threshold p;
     max_stock_threshold := max_stock_threshold p; active := active p |}.

(** [UPDATE "<sch>".products SET current_stock = $1 WHERE id = $2] *)
Definition update_stock (sch : string) (pid : Z) (v : Js.value) (d : database)
  : Js.result database :=
  match schemas d !! sch with
  | None => inl no_relation
  | Some t =>
      match int4 v with
      | inl e => inl e
      | inr stock =>
          inr (set_schema sch
                 {| products := alter (set_stock stock) pid (products t);
                    inventory_movements := inventory_movements t;
                    insights := insights t;
                    movements_seq := movements_seq t |} d)
      end
  end.

End Database.

(* ===================================================================== *)
(** ** models/Inventory.cjs *)
(* ===================================================================== *)

Module Inventory.
Import Database.

(** The [movementData] argument of [addMovement].  [quantity] is held
    as the body carries it; the other members are held by the value
    the server reads from them. *)
Record movementData := mkMovementData {
  md_product_id : Z;
  md_movement_type : string;
  md_quantity : Js.value;
  md_cost_per_unit : option Z;
  md_reference_type : string;
  md_reference_id : option Z;
  md_notes : string
}.

Definition tenant_required : string :=
  "tenantSchema es requerido para operaciones multi-tenant".

Definition not_found (pid : Z) : string :=
  "Producto con ID " +:+ Js.show pid +:+ " no encontrado".

Definition insufficient_stock : string :=
  "No hay suficiente stock para realizar esta salida".

Definition negative_adjust : string :=
  "El ajuste resultaría en stock negativo".

Definition invalid_type : string := "Tipo de movimiento no válido".

(** The [switch (movement_type)] of [addMovement]: [stockChange], or
    the error thrown.  [entrada] and [salida] go through [Math.abs],
    which makes a number of the quantity; [ajuste] and [sincronizacion]
    take the quantity as it is. *)
Definition stockChange (movement_type : string) (quantity : Js.value)
    (currentStock : Z) : Js.result Js.value :=
  if String.eqb movement_type "entrada" then inr (Js.abs quantity)
  else if String.eqb movement_type "salida" then
    let c := Js.neg (Js.abs quantity) in
    if Js.lt0 (Js.add (Js.Num currentStock) c) then inl insufficient_stock else inr c
  else if String.eqb movement_type "ajuste" then
    let c := quantity in
    if Js.lt0 (Js.add (Js.Num currentStock) c) then inl negative_adjust else inr c
  else if String.eqb movement_type "sincronizacion" then inr quantity
  else inl invalid_type.

(** The parameters of the [INSERT] of [addMovement]. *)
Definition movement_insert (data : movementData) (currentStock : Z)
    (change : Js.value) : movement_params :=
  {| a_product_id := md_product_id data;
     a_movement_type := md_movement_type data;
     a_quantity := change;
     a_previous_stock := currentStock;
     a_new_stock := Js.add (Js.Num currentStock) change;
     a_cost_per_unit := md_cost_per_unit data;
     a_reference_type := md_reference_type data;
     a_reference_id := md_reference_id data;
     a_notes := md_notes data |}.

(** Body of the [try] block of [addMovement]: what it returns or
    throws, and the database its statements left behind. *)
Definition addMovement_try (sch : string) (data : movementData) (d : database)
  : Js.result movement * database :=
  match select_product sch (md_product_id data) d with
  | inl e => (inl e, d)
  | inr None => (inl (not_found (md_product_id data)), d)
  | inr (Some p) =>
      let currentStock := current_stock p in
      match stockChange (md_movement_type data) (md_quantity data) currentStock with
      | inl e => (inl e, d)
      | inr change =>
          let newStock := Js.add (Js.Num currentStock) change in
          match insert_movement sch (movement_insert data currentStock change) d with
          | inl e => (inl e, d)
          | inr (row, d1) =>
              match update_stock sch (md_product_id data) newStock d1 with
              | inl e => (inl e, d1)
              | inr d2 => (inr row, d2)
              end
          end
      end
  end.

Definition addMovement (mode : pool_mode) (tenantSchema : string)
    (data : movementData) (d : database) : Js.result movement * database :=
  if negb (Js.truthy tenantSchema) then (inl tenant_required, d)
  else
    let s := query_BEGIN d in
    match addMovement_try tenantSchema data (conn_db s) with
    | (inr row, d') => (inr row, query_COMMIT mode (with_db s d'))
    | (inl e, d') =>
        (inl ("Error registrando movimiento: " +:+ e),
         query_ROLLBACK mode (with_db s d'))
    end.

(** One element of [syncData].  [external_stock] is held as the body
    carries it; [si_notes] is [None] when the item has no [notes], in
    which case the destructuring default applies. *)
Record syncItem := mkSyncItem {
  si_product_id : Z;
  si_external_stock : Js.value;
  si_cost_price : option Z;
  si_notes : option string
}.

Record syncResults := mkSyncResults {
  processed : Z;
  updated : Z;
  errors : list string;
  movements_created : Z
}.

Definition push_error (r : syncResults) (e : string) : syncResults :=
  {| processed := processed r; updated := updated r;
     errors := errors r ++ [e]; movements_created := movements_created r |}.

Definition item_error (item : syncItem) (e : string) : string :=
  "Error procesando producto " +:+ Js.show (si_product_id item) +:+ ": " +:+ e.

(** The parameters of the [INSERT] of [syncInventory]. *)
Definition sync_insert (item : syncItem) (currentStock : Z) (difference : Js.value)
  : movement_params :=
  {| a_product_id := si_product_id item;
     a_movement_type := "sincronizacion";
     a_quantity := difference;
     a_previous_stock := currentStock;
     a_new_stock := si_external_stock item;
     a_cost_per_unit := si_cost_price item;
     a_reference_type := "sync";
     a_reference_id := None;
     a_notes := default "Sincronización externa" (si_notes item) +:+
                " - Diferencia: " +:+ Js.ToString difference |}.

(** The three statements of one turn of the loop. *)
Definition select_stmt (sch : string) (pid : Z) (d : database)
  : Js.result (option product * database) :=
  match select_product sch pid d with
  | inl e => inl e
  | inr row => inr (row, d)
  end.

Definition update_stmt (sch : string) (pid : Z) (v : Js.value) (d : database)
  : Js.result (unit * database) :=
  match update_stock sch pid v d with
  | inl e => inl e
  | inr d' => inr (tt, d')
  end.

(** One turn of the [for (const item of syncData)] loop; every throw
    is caught by the [catch] of the turn. *)
Definition sync_item (mode : pool_mode) (sch : string)
    (acc : syncResults * session) (item : syncItem) : syncResults * session :=
  let '(r, s) := acc in
  match run_query mode (select_stmt sch (si_product_id item)) s with
  | (inl e, s1) => (push_error r (item_error item e), s1)
  | (inr None, s1) => (push_error r (not_found (si_product_id item)), s1)
  | (inr (Some product), s1) =>
      let currentStock := current_stock product in
      let difference := Js.sub (si_external_stock item) (Js.Num currentStock) in
      let r1 := {| processed := processed r + 1; updated := updated r;
                   errors := errors r;
                   movements_created := movements_created r |} in
      if Js.ne0 difference then
        match run_query mode
                (insert_movement sch (sync_insert item currentStock difference)) s1 with
        | (inl e, s2) => (push_error r1 (item_error item e), s2)
        | (inr _, s2) =>
            match run_query mode
                    (update_stmt sch (si_product_id item) (si_external_stock item))
                    s2 with
            | (inl e, s3) => (push_error r1 (item_error item e), s3)
            | (inr _, s3) =>
                ({| processed := processed r1; updated := updated r1 + 1;
                    errors := errors r1;
                    movements_created := movements_created r1 + 1 |}, s3)
            end
        end
      else (r1, s1)
  end.

Definition syncInventory (mode : pool_mode) (tenantSchema : string)
    (syncData : list syncItem) (d : database) : Js.result syncResults * database :=
  if negb (Js.truthy tenantSchema) then (inl tenant_required, d)
  else
    let '(r, s) :=
      fold_left (sync_item mode tenantSchema) syncData
                ({| processed := 0; updated := 0; errors := [];
                    movements_created := 0 |}, query_BEGIN d) in
    (inr r, query_COMMIT mode s).

(** *** FIFO valuation: the SQL of [getFIFOValuation] *)

(** [WHERE product_id = p.id AND movement_type = 'entrada' AND quantity > 0] *)
Definition is_layer (pid : Z) (m : movement) : bool :=
  Z.eqb (product_id m) pid && String.eqb (movement_type m) "entrada"
  && (quantity m >? 0).

(** The inner [FROM] subquery: the layers, [ORDER BY created_at DESC]. *)
Definition layers (pid : Z) (ledger : list movement) : list movement :=
  rev (List.filter (is_layer pid) ledger).

(** [SUM(ABS(quantity)) OVER (ORDER BY created_at DESC ROWS UNBOUNDED
    PRECEDING) AS running_stock] *)
Fixpoint running_stock (acc : Z) (rows : list movement) : list (movement * Z) :=
  match rows with
  | [] => []
  | m :: rest =>
      let acc' := acc + Z.abs (quantity m) in
      (m, acc') :: running_stock acc' rest
  end.

(** SQL [SUM]: [NULL] over no rows. *)
Definition sql_sum (l : list Z) : option Z :=
  match l with
  | [] => None
  | _ => Some (fold_right Z.add 0 l)
  end.

(** [COALESCE(SUM(ABS(quantity)), 0)] over the layers. *)
Definition total_received (pid : Z) (ledger : list movement) : Z :=
  default 0 (sql_sum (map (fun m => Z.abs (quantity m))
                          (List.filter (is_layer pid) ledger))).

(** The [CASE] summed for one layer. *)
Definition layer_value (p : product) (row : movement * Z) : Z :=
  let '(im, running) := row in
  let cost := default (cost_price p) (cost_per_unit im) in
  if running <=? current_stock p then Z.abs (quantity im) * cost
  else if running - Z.abs (quantity im) <? current_stock p then
    (current_stock p - (running - Z.abs (quantity im))) * cost
  else 0.

(** Column [fifo_valuation] of the CTE [inventory_fifo]. *)
Definition fifo_valuation_cte (pid : Z) (p : product) (ledger : list movement) : option Z :=
  if current_stock p >? 0 then
    let kept :=
      List.filter
        (fun row : movement * Z =>
           snd row >? total_received pid ledger - current_stock p)
        (running_stock 0 (layers pid ledger)) in
    Some (default (current_stock p * cost_price p)
                  (sql_sum (map (layer_value p) kept)))
  else Some 0.

Record valuation := mkValuation {
  v_product_id : Z;
  v_sku : string;
  v_product_name : string;
  v_current_stock : Z;
  v_current_cost : Z;
  fifo_valuation : Z;
  current_cost_valuation : Z;
  selling_value_estimate : Z;
  potential_profit : Z
}.

(** One row of the final [SELECT ... FROM inventory_fifo]. *)
Definition valuation_row (ledger : list movement) (pid : Z) (p : product) : valuation :=
  let ccv := current_stock p * cost_price p in
  let sve := current_stock p * selling_price p in
  let fifo := default ccv (fifo_valuation_cte pid p ledger) in
  {| v_product_id := pid; v_sku := sku p; v_product_name := name p;
     v_current_stock := current_stock p; v_current_cost := cost_price p;
     fifo_valuation := fifo;
     current_cost_valuation := ccv;
     selling_value_estimate := sve;
     potential_profit := sve - fifo |}.

Inductive valuation_result :=
| OneProduct (row : option valuation)
| AllProducts (rows : list valuation).

Definition by_fifo_desc (a b : valuation) : Prop :=
  fifo_valuation b <= fifo_valuation a.

#[local] Instance by_fifo_desc_dec a b : Decision (by_fifo_desc a b).
Proof. unfold by_fifo_desc. apply _. Defined.

Definition getFIFOValuation (tenantSchema : string) (productId : option Z)
    (d : database) : Js.result valuation_result :=
  if negb (Js.truthy tenantSchema) then inl tenant_required
  else
    match schemas d !! tenantSchema with
    | None => inl ("Error calculando valuación FIFO: " +:+ no_relation)
    | Some t =>
        if Js.truthy_num productId then
          let pid := default 0 productId in
          inr (OneProduct
                 (match products t !! pid with
                  | Some p =>
                      if active p
                      then Some (valuation_row (inventory_movements t) pid p)
                      else None
                  | None => None
                  end))
        else
          inr (AllProducts
                 (merge_sort by_fifo_desc
                    (map (fun kp : Z * product =>
                            valuation_row (inventory_movements t) (fst kp) (snd kp))
                         (List.filter (fun kp : Z * product => active (snd kp))
                                      (map_to_list (products t))))))
    end.

End Inventory.

(* ===================================================================== *)
(** ** HTTP responses *)
(* ===================================================================== *)

Module Http.

(** [res.status(code).json({error, message, methods, ...})]; a body
    without an [error] member has [error = ""]. *)
Record response := mkResponse {
  status_code : Z;
  error : string;
  message : string;
  methods : list (string * string)
}.

End Http.

(* ===================================================================== *)
(** ** routes/inventoryRoutes.cjs *)
(* ===================================================================== *)

Module InventoryRoutes.
Import Database Inventory Http.

(** The [catch] block of [POST /movements]. *)
Definition movements_error (msg : string) : response :=
  if Js.includes msg "no encontrado" then
    {| status_code := 404; error := "PRODUCT_NOT_FOUND"; message := msg; methods := [] |}
  else if Js.includes msg "No hay suficiente stock" then
    {| status_code := 400; error := "INSUFFICIENT_STOCK"; message := msg; methods := [] |}
  else
    {| status_code := 500; error := "ADD_MOVEMENT_ERROR"; message := msg; methods := [] |}.

(** [requiredFields.filter(field => !movementData[field])] *)
Definition missingFields (body : movementData) : list string :=
  (if Z.eqb (md_product_id body) 0 then ["product_id"] else []) ++
  (if Js.truthy (md_movement_type body) then [] else ["movement_type"]) ++
  (if Js.truthy_value (md_quantity body) then [] else ["quantity"]) ++
  (if Js.truthy (md_reference_type body) then [] else ["reference_type"]).

(** [router.post('/movements', ...)] *)
Definition post_movements (mode : pool_mode) (tenantSchema : string)
    (body : movementData) (d : database) : response * database :=
  match missingFields body with
  | _ :: _ =>
      ({| status_code := 400; error := "VALIDATION_ERROR";
          message := "Campos requeridos faltantes"; methods := [] |}, d)
  | [] =>
      match addMovement mode tenantSchema body d with
      | (inr _, d') =>
          ({| status_code := 201; error := "";
              message := "Movimiento de inventario registrado exitosamente";
              methods := [] |}, d')
      | (inl msg, d') => (movements_error msg, d')
      end
  end.

End InventoryRoutes.

(* ===================================================================== *)
(** ** models/Inventory-original.js *)
(* ===================================================================== *)

Module InventoryOriginal.
Import Database Inventory.

(** The single-tenant model works on the unqualified tables; the tables
    of one schema stand for them. *)
Definition stock_short (previousStock : Z) (quantity : Js.value) : string :=
  "Stock insuficiente. Stock actual: " +:+ Js.show previousStock +:+
  ", Cantidad solicitada: " +:+ Js.ToString (Js.abs quantity).

(** The parameters of the [INSERT] of [recordMovement]. *)
Definition record_insert (data : movementData) (currentProduct : product)
    (adjustedQuantity : Js.value) : movement_params :=
  {| a_product_id := md_product_id data;
     a_movement_type := md_movement_type data;
     a_quantity := adjustedQuantity;
     a_previous_stock := current_stock currentProduct;
     a_new_stock := Js.add (Js.Num (current_stock currentProduct)) adjustedQuantity;
     a_cost_per_unit := if Js.truthy_num (md_cost_per_unit data)
                        then md_cost_per_unit data
                        else Some (cost_price currentProduct);
     a_reference_type := md_reference_type data;
     a_reference_id := md_reference_id data;
     a_notes := md_notes data |}.

Definition recordMovement_try (data : movementData) (t : tenant_schema)
  : Js.result (movement * tenant_schema) :=
  if negb (String.eqb (md_movement_type data) "entrada"
           || String.eqb (md_movement_type data) "salida") then
    inl ("Tipo de movimiento inválido: " +:+ md_movement_type data)
  else
    match products t !! md_product_id data with
    | None =>
        inl ("Producto con ID " +:+ Js.show (md_product_id data) +:+
             " no encontrado o inactivo")
    | Some currentProduct =>
        if negb (active currentProduct) then
          inl ("Producto con ID " +:+ Js.show (md_product_id data) +:+
               " no encontrado o inactivo")
        else
          let previousStock := current_stock currentProduct in
          let adjustedQuantity :=
            if String.eqb (md_movement_type data) "entrada"
            then Js.abs (md_quantity data)
            else Js.neg (Js.abs (md_quantity data)) in
          let newStock := Js.add (Js.Num previousStock) adjustedQuantity in
          if Js.lt0 newStock then
            inl (stock_short previousStock (md_quantity data))
          else
            match movement_row (movements_seq t + 1)
                    (record_insert data currentProduct adjustedQuantity) with
            | inl e => inl e
            | inr row =>
                inr (row,
                     {| products := alter (set_stock (new_stock row))
                                          (md_product_id data) (products t);
                        inventory_movements := inventory_movements t ++ [row];
                        insights := insights t;
                        movements_seq := movements_seq t + 1 |})
            end
    end.

Definition recordMovement (data : movementData) (t : tenant_schema)
  : Js.result movement * tenant_schema :=
  match recordMovement_try data t with
  | inr (row, t') => (inr row, t')
  | inl e => (inl ("Error registrando movimiento: " +:+ e), t)
  end.

(** One element of [entryData.items]. *)
Record entryItem := mkEntryItem {
  ei_product_id : Z;
  ei_quantity : Z;
  ei_cost_per_unit : option Z
}.

(** The [entryData] of [processInventoryEntry]; [reference_type] is
    [None] when absent, in which case the default ['compra'] applies. *)
Record entryData := mkEntryData {
  ed_reference_type : option string;
  ed_reference_id : option Z;
  ed_notes : string;
  ed_items : list entryItem
}.

(** The [for (const item of items)] loop: the movements recorded so far,
    the tables as the calls left them, and the error that stopped the
    loop, if any.  Each [recordMovement] commits on its own. *)
Fixpoint entry_loop (e : entryData) (items : list entryItem)
    (movements : list movement) (t : tenant_schema)
  : Js.result (list movement) * tenant_schema :=
match items with
| [] => (inr movements, t)
| item :: rest =>
    if ei_quantity item <=? 0 then (inl "La cantidad debe ser mayor a cero", t)
    else
      match recordMovement
              {| md_product_id := ei_product_id item;
                 md_movement_type := "entrada";
                 md_quantity := Js.Num (ei_quantity item);
                 md_cost_per_unit := ei_cost_per_unit item;
                 md_reference_type := default "compra" (ed_reference_type e);
                 md_reference_id := ed_reference_id e;
                 md_notes := ed_notes e |} t with
      | (inl msg, t') => (inl msg, t')
      | (inr movement, t') => entry_loop e rest (movements ++ [movement]) t'
      end
end.

(** [Inventory.processInventoryEntry] of the original model. *)
Definition processInventoryEntry (e : entryData) (t : tenant_schema)
  : Js.result (list movement) * tenant_schema :=
match ed_items e with
| [] => (inl "Error procesando entrada: Debe especificar al menos un producto", t)
| items =>
    match entry_loop e items [] t with
    | (inr movements, t') => (inr movements, t')
    | (inl msg, t') => (inl ("Error procesando entrada: " +:+ msg), t')
    end
end.

End InventoryOriginal.

(* ===================================================================== *)
(** ** models/Insights.cjs *)
(* ===================================================================== *)

Module Insights.
Import Database.

(** What one rule evaluation reads from outside the database: the two
    [Date.now()] readings (expiry, identifier) and the nine base-36
    characters cut from [Math.random()]. *)
Record entropy := mkEntropy {
  now_expiry : Z;
  now_id : Z;
  random : string
}.

(** The [insightData] argument of [create]. *)
Record insightData := mkInsightData {
  d_triggered_by : string;
  d_type : string;
  d_priority : string;
  d_confidence : Z;
  d_channels : list string;
  d_affected_products : Z;
  d_expires_at : option Z
}.

Definition duplicate_key : string :=
  "duplicate key value violates unique constraint".

(** [Insights.create]: the identifier is built from the type, the clock
    and the random characters; the [INSERT] fails on a schema that does
    not exist and on the [UNIQUE] column [insight_id]. *)
Definition create (tenantSchema : string) (data : insightData) (e : entropy)
    (d : database) : Js.result insight * database :=
  if negb (Js.truthy tenantSchema) then
    (inl Inventory.tenant_required, d)
  else
    let new_id := d_type data +:+ "_" +:+ Js.show (now_id e) +:+ "_" +:+ random e in
    match schemas d !! tenantSchema with
    | None => (inl ("Error creando insight: " +:+ no_relation), d)
    | Some t =>
        if existsb (fun i => String.eqb (insight_id i) new_id) (insights t) then
          (inl ("Error creando insight: " +:+ duplicate_key), d)
        else
          let row := {| insight_id := new_id;
                        triggered_by := d_triggered_by data;
                        type := d_type data;
                        priority := d_priority data;
                        confidence := d_confidence data;
                        channels := d_channels data;
                        affected_products := d_affected_products data;
                        expires_at := d_expires_at data;
                        status := "generated";
                        created_at := now_id e |} in
          (inr row,
           set_schema tenantSchema
             {| products := products t;
                inventory_movements := inventory_movements t;
                insights := insights t ++ [row];
                movements_seq := movements_seq t |} d)
    end.

Definition days (n : Z) : Z := n * 24 * 60 * 60 * 1000.

(** The three [SELECT]s of [generateInventoryInsights]; only the number
    of rows is used below, so the [ORDER BY] is not represented. *)
Definition select_limit (cond : product -> bool) (limit : nat) (t : tenant_schema)
  : list (Z * product) :=
  take limit (List.filter (fun kp : Z * product => cond (snd kp) && active (snd kp))
                          (map_to_list (products t))).

Definition out_of_stock (p : product) : bool := Z.eqb (current_stock p) 0.
Definition low_stock (p : product) : bool :=
  (current_stock p >? 0) && (current_stock p <=? min_stock_threshold p).
Definition over_stock (p : product) : bool :=
  current_stock p >? max_stock_threshold p.

(** One block [const r = await query(...); if (r.rows.length > 0) {...}]
    of the generator. *)
Definition rule (tenantSchema : string) (cond : product -> bool) (limit : nat)
    (mk : Z -> entropy -> insightData) (e : entropy)
    (acc : list insight * database) : Js.result (list insight) * database :=
  let '(generated, d) := acc in
  match schemas d !! tenantSchema with
  | None => (inl no_relation, d)
  | Some t =>
      let rows := select_limit cond limit t in
      if (0 <? Z.of_nat (length rows)) then
        match create tenantSchema (mk (Z.of_nat (length rows)) e) e d with
        | (inr i, d') => (inr (generated ++ [i]), d')
        | (inl msg, d') => (inl msg, d')
        end
      else (inr generated, d)
  end.

Definition stockout_alert (n : Z) (e : entropy) : insightData :=
  {| d_triggered_by := "inventory_monitor"; d_type := "alert";
     d_priority := "critical"; d_confidence := 95;
     d_channels := ["dashboard"; "whatsapp"; "email"];
     d_affected_products := n;
     d_expires_at := Some (now_expiry e + days 7) |}.

Definition low_stock_alert (n : Z) (e : entropy) : insightData :=
  {| d_triggered_by := "inventory_monitor"; d_type := "alert";
     d_priority := "high"; d_confidence := 90;
     d_channels := ["dashboard"; "whatsapp"];
     d_affected_products := n;
     d_expires_at := Some (now_expiry e + days 5) |}.

Definition overstock_opportunity (n : Z) (e : entropy) : insightData :=
  {| d_triggered_by := "inventory_monitor"; d_type := "opportunity";
     d_priority := "medium"; d_confidence := 85;
     d_channels := ["dashboard"];
     d_affected_products := n;
     d_expires_at := Some (now_expiry e + days 14) |}.

Definition wrap_error (msg : string) : string :=
  "Error generando insights de inventario: " +:+ msg.

(** [generateInventoryInsights]; [env k] is what the [k]-th rule reads
    from the clock and the random generator. *)
Definition generateInventoryInsights (tenantSchema : string)
    (env : nat -> entropy) (d : database) : Js.result (list insight) * database :=
  if negb (Js.truthy tenantSchema) then (inl Inventory.tenant_required, d)
  else
    match rule tenantSchema out_of_stock 10 stockout_alert (env 0%nat) ([], d) with
    | (inl msg, d1) => (inl (wrap_error msg), d1)
    | (inr g1, d1) =>
        match rule tenantSchema low_stock 15 low_stock_alert (env 1%nat) (g1, d1) with
        | (inl msg, d2) => (inl (wrap_error msg), d2)
        | (inr g2, d2) =>
            match rule tenantSchema over_stock 10 overstock_opportunity
                       (env 2%nat) (g2, d2) with
            | (inl msg, d3) => (inl (wrap_error msg), d3)
            | (inr g3, d3) => (inr g3, d3)
            end
        end
    end.

(** [is_active] of [getAll]: no expiry, or expiry in the future. *)
Definition is_active (now : Z) (i : insight) : bool :=
  match expires_at i with
  | None => true
  | Some t => t >? now
  end.

(** [UPDATE "<sch>".insights SET status = $1 WHERE insight_id = $2]:
    only the status column changes. *)
Definition set_status (st : string) (i : insight) : insight :=
{| insight_id := insight_id i; triggered_by := triggered_by i; type := type i;
   priority := priority i; confidence := confidence i; channels := channels i;
   affected_products := affected_products i; expires_at := expires_at i;
   status := st; created_at := created_at i |}.

Definition insight_not_found (insightId : string) : string :=
"Insight con ID " +:+ insightId +:+ " no encontrado".

(** The type of the column [status]: [VARCHAR(50)] in
    tenant-base-schema.sql, [insight_status_enum] in
    postgres-schema.sql. *)
Inductive status_column := StatusVarchar | StatusEnum.

Definition insight_status_enum : list string :=
["generated"; "sent"; "read"; "acted"; "dismissed"].

(** The message with which the server rejects a status, if it does. *)
Definition status_rejected (col : status_column) (st : string) : option string :=
match col with
| StatusVarchar => if 50 <? Js.chars st then Some (too_long 50) else None
| StatusEnum =>
    if bool_decide (st ∈ insight_status_enum) then None
    else Some (invalid_enum "insight_status_enum" st)
end.

(** [Insights.updateStatus]; [col] is the type the column [status] of
    the schema has. *)
Definition updateStatus (col : status_column) (tenantSchema insightId st : string)
    (d : database) : Js.result insight * database :=
if negb (Js.truthy tenantSchema) then (inl Inventory.tenant_required, d)
else
  match schemas d !! tenantSchema with
  | None => (inl ("Error actualizando insight: " +:+ no_relation), d)
  | Some t =>
      match status_rejected col st with
      | Some e => (inl ("Error actualizando insight: " +:+ e), d)
      | None =>
          match List.filter (fun i => String.eqb (insight_id i) insightId)
                            (insights t) with
          | [] =>
              (inl ("Error actualizando insight: " +:+ insight_not_found insightId), d)
          | row :: _ =>
              (inr (set_status st row),
               set_schema tenantSchema
                 {| products := products t;
                    inventory_movements := inventory_movements t;
                    insights := map (fun i => if String.eqb (insight_id i) insightId
                                              then set_status st i else i)
                                    (insights t);
                    movements_seq := movements_seq t |} d)
          end
      end
  end.

(** [expires_at IS NOT NULL AND expires_at < CURRENT_TIMESTAMP] *)
Definition expired (now : Z) (i : insight) : bool :=
match expires_at i with
| None => false
| Some t => t <? now
end.

(** [Insights.cleanupExpiredInsights]; [now] is [CURRENT_TIMESTAMP]. *)
Definition cleanupExpiredInsights (tenantSchema : string) (now : Z) (d : database)
  : Js.result Z * database :=
if negb (Js.truthy tenantSchema) then (inl Inventory.tenant_required, d)
else
  match schemas d !! tenantSchema with
  | None => (inl ("Error limpiando insights: " +:+ no_relation), d)
  | Some t =>
      (inr (Z.of_nat (length (List.filter (expired now) (insights t)))),
       set_schema tenantSchema
         {| products := products t;
            inventory_movements := inventory_movements t;
            insights := List.filter (fun i => negb (expired now i)) (insights t);
            movements_seq := movements_seq t |} d)
  end.

(** The [options] of [Insights.getAll].  An absent text filter is the
    empty string; [o_active_only] is [Some false] only when the caller
    passed [false]. *)
Record getAllOptions := mkGetAllOptions {
  o_type : string;
  o_priority : string;
  o_status : string;
  o_active_only : option bool;
  o_date_from : option Z;
  o_date_to : option Z;
  o_limit : option Z;
  o_offset : option Z
}.

(** The [WHERE] clause built by [getAll]. *)
Definition matches (o : getAllOptions) (now : Z) (i : insight) : bool :=
(if Js.truthy (o_type o) then String.eqb (type i) (o_type o) else true)
&& (if Js.truthy (o_priority o) then String.eqb (priority i) (o_priority o) else true)
&& (if Js.truthy (o_status o) then String.eqb (status i) (o_status o) else true)
&& (match o_active_only o with
    | Some false => true
    | _ => is_active now i
    end)
&& (match o_date_from o with
    | Some t => t <=? created_at i
    | None => true
    end)
&& (match o_date_to o with
    | Some t => created_at i <=? t
    | None => true
    end).

(** [CASE priority WHEN 'critical' THEN 1 ... WHEN 'low' THEN 4 END];
    any other priority gives [NULL], which sorts last. *)
Definition priority_rank (p : string) : Z :=
if String.eqb p "critical" then 1
else if String.eqb p "high" then 2
else if String.eqb p "medium" then 3
else if String.eqb p "low" then 4
else 5.

(** [ORDER BY CASE priority ... END, created_at DESC] *)
Definition listed_before (a b : insight) : Prop :=
priority_rank (priority a) < priority_rank (priority b) \/
(priority_rank (priority a) = priority_rank (priority b) /\
 created_at b <= created_at a).

#[local] Instance listed_before_dec a b : Decision (listed_before a b).
Proof. unfold listed_before. apply _. Defined.

Definition negative_limit : string := "LIMIT must not be negative".
Definition negative_offset : string := "OFFSET must not be negative".

(** [Insights.getAll]; each row comes with its computed [is_active]
    column. *)
Definition getAll (tenantSchema : string) (o : getAllOptions) (now : Z)
    (d : database) : Js.result (list (insight * bool)) :=
if negb (Js.truthy tenantSchema) then inl Inventory.tenant_required
else
  match schemas d !! tenantSchema with
  | None => inl ("Error obteniendo insights: " +:+ no_relation)
  | Some t =>
      let rows := merge_sort listed_before (List.filter (matches o now) (insights t)) in
      let limit := if Js.truthy_num (o_limit o) then o_limit o else None in
      let offset := if Js.truthy_num (o_offset o) then o_offset o else None in
      if bool_decide (default 0 limit < 0) then
        inl ("Error obteniendo insights: " +:+ negative_limit)
      else if bool_decide (default 0 offset < 0) then
        inl ("Error obteniendo insights: " +:+ negative_offset)
      else
        let skipped := drop (Z.to_nat (default 0 offset)) rows in
        let taken := match limit with
                     | Some n => take (Z.to_nat n) skipped
                     | None => skipped
                     end in
        inr (map (fun i => (i, is_active now i)) taken)
  end.

End Insights.

(* ===================================================================== *)
(** ** routes/insightsRoutes.cjs *)
(* ===================================================================== *)

Module InsightsRoutes.
Import Database Insights Http.


End InsightsRoutes.

(* ===================================================================== *)
(** ** services/TenantService.cjs *)
(* ===================================================================== *)

Module TenantService.
Import Database.

(** A row of [getTenant]: the tenant with the computed [schema_name]. *)
Record tenant_info := mkTenantInfo {
  info : tenant;
  schema_name : string
}.

(** [SELECT ..., CONCAT('tenant_', tenant_code) AS schema_name
     FROM public.tenants WHERE tenant_code = $1 AND active = true],
    then [rows[0] || null]. *)
Definition getTenant (tenantCode : string) (d : database) : option tenant_info :=
  match List.filter (fun t => String.eqb (tenant_code t) tenantCode && tenant_active t)
                    (tenants d) with
  | t :: _ => Some {| info := t; schema_name := "tenant_" +:+ tenant_code t |}
  | [] => None
  end.

(** [schemaExists] *)
Definition schemaExists (schemaName : string) (d : database) : bool :=
  match schemas d !! schemaName with
  | Some _ => true
  | None => false
  end.

(** [DROP SCHEMA IF EXISTS "<name>" CASCADE] *)
Definition drop_schema (schemaName : string) (d : database) : database :=
  {| tenants := tenants d; schemas := delete schemaName (schemas d) |}.

(** [DELETE FROM public.tenants WHERE tenant_code = $1] *)
Definition delete_tenant_row (tenantCode : string) (d : database) : database :=
  {| tenants := List.filter (fun t => negb (String.eqb (tenant_code t) tenantCode))
                            (tenants d);
     schemas := schemas d |}.

(** Which of the two statements of [deleteTenant] the server rejects
    (lock timeout, missing privilege, lost connection), with the
    driver's message; a rejected statement changes nothing. *)
Record faults := mkFaults {
  drop_schema_error : option string;
  delete_row_error : option string
}.

Definition no_faults : faults :=
  {| drop_schema_error := None; delete_row_error := None |}.

Definition confirm_required : string :=
  "Debe confirmar explícitamente la eliminación del tenant".

(** Body of the [try] block of [deleteTenant]: the error thrown, if
    any, and the database the statements left behind. *)
Definition deleteTenant_try (tenantCode : string) (f : faults) (d : database)
  : option string * database :=
  match getTenant tenantCode d with
  | None => (Some ("Tenant " +:+ tenantCode +:+ " no encontrado"), d)
  | Some tenant =>
      let schemaName := schema_name tenant in
      match drop_schema_error f with
      | Some e => (Some e, d)
      | None =>
          let d1 := drop_schema schemaName d in
          match delete_row_error f with
          | Some e => (Some e, d1)
          | None => (None, delete_tenant_row tenantCode d1)
          end
      end
  end.

Definition deleteTenant (mode : pool_mode) (tenantCode : string)
    (confirmDelete : bool) (f : faults) (d : database) : Js.result bool * database :=
  if negb confirmDelete then (inl confirm_required, d)
  else
    let s := query_BEGIN d in
    match deleteTenant_try tenantCode f (conn_db s) with
    | (None, d') => (inr true, query_COMMIT mode (with_db s d'))
    | (Some e, d') =>
        (inl ("Error eliminando tenant: " +:+ e),
         query_ROLLBACK mode (with_db s d'))
    end.

(** [/^[a-z0-9_]+$/.test(code)] *)
Definition code_char (c : ascii) : bool :=
let n := nat_of_ascii c in
((97 <=? n)%nat && (n <=? 122)%nat) || ((48 <=? n)%nat && (n <=? 57)%nat)
|| (n =? 95)%nat.

Fixpoint all_code_chars (s : string) : bool :=
match s with
| EmptyString => true
| String c s' => code_char c && all_code_chars s'
end.

Definition valid_code (code : string) : bool :=
Js.truthy code && all_code_chars code.

(** One element of [initialData.products], by the members the product
    rows of this model hold; the stock and the thresholds are [None]
    when absent, [active] is [Some false] only when the member is
    [false]. *)
Record initialProduct := mkInitialProduct {
  ip_sku : string;
  ip_name : string;
  ip_cost_price : Z;
  ip_selling_price : Z;
  ip_current_stock : option Z;
  ip_min_stock_threshold : option Z;
  ip_max_stock_threshold : option Z;
  ip_active : option bool
}.

(** [tenantData.initialData].  The rows of [clients] go to a table
    these definitions do not hold; only their number is kept. *)
Record initialData := mkInitialData {
  id_products : list initialProduct;
  id_clients : nat
}.

(** The members of [tenantData] that the registry row of this model
    holds; [tenant_code] and [company_name] are present, [plan] and
    [active] are [None] when absent, and so is [initialData]. *)
Record tenantData := mkTenantData {
  td_tenant_code : string;
  td_company_name : string;
  td_plan : option string;
  td_active : option bool;
  td_initialData : option initialData
}.

(** What [createTenant] meets outside the tables of this model: the
    [COMMENT ON TABLE] statements of tenant-base-schema.sql name their
    tables without schema, so the server resolves them on the search
    path and rejects them when it finds no such table there; and the
    server may reject a row of [initialData.clients]. *)
Record create_env := mkCreateEnv {
  comment_error : option string;
  clients_error : option string
}.

Definition ready : create_env :=
{| comment_error := None; clients_error := None |}.

Definition invalid_code : string :=
"El código del tenant solo puede contener letras minúsculas, números y guiones bajos".

Definition tenant_exists (code : string) : string :=
"Ya existe un tenant con código: " +:+ code.

Definition relation_exists : string := "relation already exists".

Definition duplicate_sku : string :=
"duplicate key value violates unique constraint".

Definition empty_schema : tenant_schema :=
{| products := ∅; inventory_movements := []; insights := []; movements_seq := 0 |}.

(** [INSERT INTO public.tenants (...)]: [tenant_code VARCHAR(50)],
    [company_name VARCHAR(255)], [plan VARCHAR(50)]. *)
Definition tenant_row (data : tenantData) : Js.result tenant :=
if 50 <? Js.chars (td_tenant_code data) then inl (too_long 50)
else if 255 <? Js.chars (td_company_name data) then inl (too_long 255)
else if 50 <? Js.chars (default "basic" (td_plan data)) then inl (too_long 50)
else inr {| tenant_code := td_tenant_code data;
            company_name := td_company_name data;
            plan := default "basic" (td_plan data);
            tenant_active := default true (td_active data) |}.

(** [DECIMAL(15,2)], in hundredths. *)
Definition fits_decimal_15_2 (c : Z) : bool := Z.abs c <? 1000000000000000.

(** The row one [INSERT] of [insertInitialData] stores in the products
    of tenant-base-schema.sql ([sku VARCHAR(100) UNIQUE],
    [name VARCHAR(255)], prices [DECIMAL(15,2)], stock and thresholds
    [INTEGER]), or the message with which the server rejects it. *)
Definition initial_product_row (existing : gmap Z product) (p : initialProduct)
  : Js.result product :=
let stock := if Js.truthy_num (ip_current_stock p)
             then default 0 (ip_current_stock p) else 0 in
let min := if Js.truthy_num (ip_min_stock_threshold p)
           then default 0 (ip_min_stock_threshold p) else 10 in
let max := if Js.truthy_num (ip_max_stock_threshold p)
           then default 0 (ip_max_stock_threshold p) else 1000 in
if 100 <? Js.chars (ip_sku p) then inl (too_long 100)
else if 255 <? Js.chars (ip_name p) then inl (too_long 255)
else if negb (fits_decimal_15_2 (ip_cost_price p)) then inl numeric_overflow
else if negb (fits_decimal_15_2 (ip_selling_price p)) then inl numeric_overflow
else
  match int4 (Js.Num stock) with
  | inl e => inl e
  | inr _ =>
      match int4 (Js.Num min) with
      | inl e => inl e
      | inr _ =>
          match int4 (Js.Num max) with
          | inl e => inl e
          | inr _ =>
              if existsb (fun kp : Z * product => String.eqb (sku (snd kp)) (ip_sku p))
                         (map_to_list existing)
              then inl duplicate_sku
              else inr {| sku := ip_sku p; name := ip_name p;
                          cost_price := ip_cost_price p;
                          selling_price := ip_selling_price p;
                          current_stock := stock;
                          min_stock_threshold := min;
                          max_stock_threshold := max;
                          active := negb (bool_decide (ip_active p = Some false)) |}
          end
      end
  end.

(** The [for (const product of initialData.products)] loop on the
    tables of the new schema: the error that stopped it, if any, and
    the tables as the accepted rows left them.  In a new schema the
    rows get the identifiers 1, 2, ... *)
Fixpoint insert_products (rows : list initialProduct) (t : tenant_schema)
  : option string * tenant_schema :=
match rows with
| [] => (None, t)
| p :: rest =>
    match initial_product_row (products t) p with
    | inl e => (Some e, t)
    | inr row =>
        insert_products rest
          {| products := <[Z.of_nat (size (products t)) + 1 := row]> (products t);
             inventory_movements := inventory_movements t;
             insights := insights t;
             movements_seq := movements_seq t |}
    end
end.

(** [insertInitialData] on the new schema [t]. *)
Definition insertInitialData (env : create_env) (init : initialData)
    (t : tenant_schema) : option string * tenant_schema :=
match insert_products (id_products init) t with
| (Some e, t') => (Some e, t')
| (None, t') =>
    match id_clients init, clients_error env with
    | S _, Some e => (Some e, t')
    | _, _ => (None, t')
    end
end.

(** Body of the [try] block of [createTenant].  The base-schema file is
    taken to be readable; its [CREATE TABLE] statements fail on a schema
    that has the tables already, and its statements are accepted or
    rejected as a whole.  A schema is held by its tables: the empty
    name space that [CREATE SCHEMA] leaves behind when the statements
    of the file are rejected and nothing is rolled back is not
    represented. *)
Definition createTenant_try (env : create_env) (data : tenantData) (d : database)
  : Js.result tenant_info * database :=
let code := td_tenant_code data in
if negb (valid_code code) then (inl invalid_code, d)
else if existsb (fun t => String.eqb (tenant_code t) code) (tenants d) then
  (inl (tenant_exists code), d)
else
  match tenant_row data with
  | inl e => (inl e, d)
  | inr row =>
      let d1 := {| tenants := tenants d ++ [row]; schemas := schemas d |} in
      let schemaName := "tenant_" +:+ code in
      match schemas d1 !! schemaName with
      | Some _ => (inl relation_exists, d1)
      | None =>
          match comment_error env with
          | Some e => (inl e, d1)
          | None =>
              let created := {| info := row; schema_name := schemaName |} in
              match td_initialData data with
              | None => (inr created, set_schema schemaName empty_schema d1)
              | Some init =>
                  match insertInitialData env init empty_schema with
                  | (Some e, t) => (inl e, set_schema schemaName t d1)
                  | (None, t) => (inr created, set_schema schemaName t d1)
                  end
              end
          end
      end
  end.

Definition createTenant (mode : pool_mode) (env : create_env) (data : tenantData)
    (d : database) : Js.result tenant_info * database :=
let s := query_BEGIN d in
match createTenant_try env data (conn_db s) with
| (inr t, d') => (inr t, query_COMMIT mode (with_db s d'))
| (inl e, d') =>
    (inl ("Error creando tenant: " +:+ e), query_ROLLBACK mode (with_db s d'))
end.

(** [getAllTenants]: every row, newest first. *)
Definition getAllTenants (d : database) : list tenant_info :=
map (fun t => {| info := t; schema_name := "tenant_" +:+ tenant_code t |})
    (rev (tenants d)).

Definition set_inactive (t : tenant) : tenant :=
{| tenant_code := tenant_code t; company_name := company_name t;
   plan := plan t; tenant_active := false |}.

(** [deactivateTenant]: [true] when some row has the code. *)
Definition deactivateTenant (tenantCode : string) (d : database) : bool * database :=
(existsb (fun t => String.eqb (tenant_code t) tenantCode) (tenants d),
 {| tenants := map (fun t => if String.eqb (tenant_code t) tenantCode
                             then set_inactive t else t) (tenants d);
    schemas := schemas d |}).

End TenantService.

(* ===================================================================== *)
(** ** routes/tenantRoutes.cjs *)
(* ===================================================================== *)

Module TenantRoutes.
Import Database TenantService Http.

(** [router.delete('/:tenantCode', ...)]; [confirm] is
    [req.query.confirm]. *)
Definition delete_tenant (mode : pool_mode) (tenantCode confirm : string)
    (f : faults) (d : database) : response * database :=
  if negb (String.eqb confirm "DELETE_EVERYTHING") then
    ({| status_code := 400; error := "CONFIRMATION_REQUIRED";
        message := "Para eliminar un tenant permanentemente debe usar ?confirm=DELETE_EVERYTHING";
        methods := [] |}, d)
  else
    match deleteTenant mode tenantCode true f d with
    | (inr true, d') =>
        ({| status_code := 200; error := "";
            message := "Tenant " +:+ tenantCode +:+ " eliminado PERMANENTEMENTE";
            methods := [] |}, d')
    | (inr false, d') =>
        ({| status_code := 404; error := "TENANT_NOT_FOUND";
            message := "Tenant " +:+ tenantCode +:+ " no encontrado";
            methods := [] |}, d')
    | (inl msg, d') =>
        ({| status_code := 500; error := "DELETE_TENANT_ERROR";
            message := msg; methods := [] |}, d')
    end.

(** [router.post('/', ...)]: create a tenant. *)
Definition post_tenant (mode : pool_mode) (env : create_env) (data : tenantData)
    (d : database) : response * database :=
if negb (Js.truthy (td_tenant_code data)) || negb (Js.truthy (td_company_name data)) then
  ({| status_code := 400; error := "VALIDATION_ERROR";
      message := "tenant_code y company_name son requeridos"; methods := [] |}, d)
else if negb (valid_code (td_tenant_code data)) then
  ({| status_code := 400; error := "INVALID_TENANT_CODE";
      message := "tenant_code solo puede contener letras minúsculas, números y guiones bajos";
      methods := [] |}, d)
else
  match createTenant mode env data d with
  | (inr _, d') =>
      ({| status_code := 201; error := "";
          message := "Tenant creado exitosamente"; methods := [] |}, d')
  | (inl msg, d') =>
      if Js.includes msg "Ya existe un tenant" then
        ({| status_code := 409; error := "TENANT_EXISTS";
            message := msg; methods := [] |}, d')
      else
        ({| status_code := 500; error := "CREATE_TENANT_ERROR";
            message := msg; methods := [] |}, d')
  end.

(** [router.put('/:tenantCode/deactivate', ...)] *)
Definition put_deactivate (tenantCode : string) (d : database) : response * database :=
match deactivateTenant tenantCode d with
| (false, d') =>
    ({| status_code := 404; error := "TENANT_NOT_FOUND";
        message := "Tenant " +:+ tenantCode +:+ " no encontrado"; methods := [] |}, d')
| (true, d') =>
    ({| status_code := 200; error := "";
        message := "Tenant " +:+ tenantCode +:+ " desactivado exitosamente";
        methods := [] |}, d')
end.

End TenantRoutes.

(* ===================================================================== *)
(** ** middleware/tenantMiddleware.cjs *)
(* ===================================================================== *)

Module TenantMiddleware.
Import Database TenantService Http.

(** The parts of the request the middleware reads.  An absent header,
    route parameter or query parameter is the empty string. *)
Record request := mkRequest {
  header_x_tenant : string;
  hostname : string;
  params_tenantCode : string;
  path : string;
  query_tenant : string
}.

(** The characters of [s] before its first ["/"]; [None] when [s] has
    no ["/"]. *)
Fixpoint segment (s : string) : option string :=
  match s with
  | EmptyString => None
  | String c s' =>
      if Ascii.eqb c "/"%char then Some EmptyString
      else option_map (String c) (segment s')
  end.

Fixpoint drop_chars (n : nat) (s : string) : string :=
  match n, s with
  | O, _ => s
  | S n', String _ s' => drop_chars n' s'
  | S _, EmptyString => EmptyString
  end.

(** [path.match(/^\/api\/tenant\/([^\/]+)\//)], giving group 1. *)
Definition path_match (p : string) : option string :=
  if Js.startsWith p "/api/tenant/" then
    match segment (drop_chars 12 p) with
    | Some seg => if Js.truthy seg then Some seg else None
    | None => None
    end
  else None.

(** The chain of [if / else if] that sets [tenantCode]. *)
Definition resolveTenantCode (req : request) : option string :=
  if Js.truthy (header_x_tenant req) then Some (header_x_tenant req)
  else if Js.truthy (hostname req)
          && negb (String.eqb (hostname req) "localhost")
          && negb (Js.startsWith (hostname req) "127.0.0.1") then
    let hostParts := Js.split (hostname req) "."%char in
    if (2 <=? Z.of_nat (length hostParts)) then
      let subdomain := List.nth 0 hostParts "" in
      if Js.truthy subdomain && negb (String.eqb subdomain "www")
         && negb (String.eqb subdomain "api")
      then Some subdomain else None
    else None
  else if Js.truthy (params_tenantCode req) then Some (params_tenantCode req)
  else if Js.truthy (path req) && Js.startsWith (path req) "/api/tenant/" then
    match path_match (path req) with
    | Some code => Some code
    | None => None
    end
  else if Js.truthy (query_tenant req) then Some (query_tenant req)
  else None.

Definition publicRoutes : list string :=
  ["/api/health"; "/api/system"; "/api/admin"; "/api/tenants"; "/favicon.ico"].

Definition isPublicRoute (req : request) : bool :=
  existsb (fun route => Js.startsWith (path req) route) publicRoutes.

Definition tenant_required : response :=
  {| status_code := 400; error := "TENANT_REQUIRED";
     message := "Se requiere especificar el tenant. Use header X-Tenant, subdominio, o parámetro tenant.";
     methods := [("header", "X-Tenant: abc123");
                 ("subdomain", "abc123.fluxionai.com");
                 ("url_param", "/api/tenant/abc123/products");
                 ("query_param", "/api/products?tenant=abc123")] |}.

(** What the middleware leaves on the request before [next()]. *)
Record context := mkContext {
  ctx_tenant : tenant_info;
  ctx_tenantCode : string;
  ctx_tenantSchema : string
}.

Inductive outcome :=
| Respond (r : response)
| Next (ctx : option context).

Definition tenantMiddleware (req : request) (d : database) : outcome :=
  match resolveTenantCode req with
  | None =>
      if negb (isPublicRoute req) then Respond tenant_required
      else Next None
  | Some tenantCode =>
      match getTenant tenantCode d with
      | None =>
          Respond {| status_code := 404; error := "TENANT_NOT_FOUND";
                     message := "Tenant '" +:+ tenantCode +:+ "' no encontrado o inactivo";
                     methods := [] |}
      | Some tenant =>
          if negb (schemaExists (schema_name tenant) d) then
            Respond {| status_code := 500; error := "TENANT_SCHEMA_MISSING";
                       message := "Schema del tenant '" +:+ tenantCode +:+
                                  "' no existe. Contacte al administrador.";
                       methods := [] |}
          else
            Next (Some {| ctx_tenant := tenant; ctx_tenantCode := tenantCode;
                          ctx_tenantSchema := schema_name tenant |})
      end
  end.

(** *** The resolution rule in the words of the specification *)

(** The four signals of a request, each empty or not. *)
Definition header_signal (req : request) : option string :=
  if Js.truthy (header_x_tenant req) then Some (header_x_tenant req) else None.

Definition subdomain_signal (req : request) : option string :=
  if Js.truthy (hostname req)
     && negb (String.eqb (hostname req) "localhost")
     && negb (Js.startsWith (hostname req) "127.0.0.1") then
    let hostParts := Js.split (hostname req) "."%char in
    if (2 <=? Z.of_nat (length hostParts)) then
      let subdomain := List.nth 0 hostParts "" in
      if Js.truthy subdomain && negb (String.eqb subdomain "www")
         && negb (String.eqb subdomain "api")
      then Some subdomain else None
    else None
  else None.

Definition path_signal (req : request) : option string :=
  if Js.truthy (params_tenantCode req) then Some (params_tenantCode req)
  else path_match (path req).

Definition query_signal (req : request) : option string :=
  if Js.truthy (query_tenant req) then Some (query_tenant req) else None.

Fixpoint first_present (signals : list (option string)) : option string :=
  match signals with
  | [] => None
  | Some c :: _ => Some c
  | None :: rest => first_present rest
  end.

(** "First non-empty signal in the precedence list wins":
    header > subdomain > URL path segment > query parameter. *)
Definition spec_resolve (req : request) : option string :=
  first_present [header_signal req; subdomain_signal req;
                 path_signal req; query_signal req].

(** [requireTenant]: the response, or [None] for [next()]. *)
Definition requireTenant (ctx : option context) : option response :=
match ctx with
| Some c =>
    if negb (Js.truthy (ctx_tenantSchema c)) then
      Some {| status_code := 400; error := "TENANT_REQUIRED";
              message := "Esta operación requiere un tenant válido"; methods := [] |}
    else None
| None =>
    Some {| status_code := 400; error := "TENANT_REQUIRED";
            message := "Esta operación requiere un tenant válido"; methods := [] |}
end.

(** [checkTenantPermission]: every permission of an active tenant. *)
Definition checkTenantPermission (ctx : option context) (permission : string) : bool :=
match ctx with
| Some c => tenant_active (info (ctx_tenant c))
| None => false
end.

(** [tenantErrorHandler]: the response, or [None] for [next(error)]. *)
Definition tenantErrorHandler (msg : string) : option response :=
if Js.truthy msg && Js.includes msg "tenantSchema es requerido" then
  Some {| status_code := 400; error := "TENANT_CONTEXT_MISSING";
          message := "Error interno: contexto de tenant perdido en la operación";
          methods := [] |}
else None.

End TenantMiddleware.

(* ===================================================================== *)
(** ** Requests in flight: [addMovement] between its [await]s *)
(* ===================================================================== *)

Module Concurrent.
Import Database Inventory.

(** Where one call of [addMovement] stands.  Every [await query(...)]
    gives the event loop to the other requests; each statement is
    committed on its own ([SeparateConnections]). *)
Inductive task :=
| AtBegin (data : movementData)
| AtSelect (data : movementData)
| AtInsert (data : movementData) (currentStock : Z) (change : Js.value)
| AtUpdate (data : movementData) (row : movement) (newStock : Js.value)
| AtCommit (row : movement)
| AtRollback (e : string)
| Finished (r : Js.result movement).

(** Run a task up to its next [await]. *)
Definition step (sch : string) (t : task) (d : database) : task * database :=
  match t with
  | AtBegin data => (AtSelect data, d)
  | AtSelect data =>
      match select_product sch (md_product_id data) d with
      | inl e => (AtRollback e, d)
      | inr None => (AtRollback (not_found (md_product_id data)), d)
      | inr (Some p) =>
          match stockChange (md_movement_type data) (md_quantity data)
                            (current_stock p) with
          | inl e => (AtRollback e, d)
          | inr change => (AtInsert data (current_stock p) change, d)
          end
      end
  | AtInsert data currentStock change =>
      match insert_movement sch (movement_insert data currentStock change) d with
      | inl e => (AtRollback e, d)
      | inr (row, d1) =>
          (AtUpdate data row (Js.add (Js.Num currentStock) change), d1)
      end
  | AtUpdate data row newStock =>
      match update_stock sch (md_product_id data) newStock d with
      | inl e => (AtRollback e, d)
      | inr d2 => (AtCommit row, d2)
      end
  | AtCommit row => (Finished (inr row), d)
  | AtRollback e => (Finished (inl ("Error registrando movimiento: " +:+ e)), d)
  | Finished r => (Finished r, d)
  end.

(** The event loop resumes the tasks in the order of [schedule]. *)
Fixpoint run (sch : string) (schedule : list nat) (tasks : list task)
    (d : database) : list task * database :=
  match schedule with
  | [] => (tasks, d)
  | i :: rest =>
      match tasks !! i with
      | None => run sch rest tasks d
      | Some t =>
          let '(t', d') := step sch t d in
          run sch rest (<[i := t']> tasks) d'
      end
  end.

(** *** The statements of [deleteTenant], one at a time *)

(** Where one call of [deleteTenant] with the confirmation stands. *)
Inductive delete_task :=
| DelBegin
| DelSelect
| DelDrop (schemaName : string)
| DelDelete
| DelCommit
| DelRollback (e : string)
| DelFinished (r : Js.result bool).

(** Run the call up to its next [await]; each statement is committed
    on its own ([SeparateConnections]). *)
Definition delete_step (tenantCode : string) (f : TenantService.faults)
    (t : delete_task) (d : database) : delete_task * database :=
  match t with
  | DelBegin => (DelSelect, d)
  | DelSelect =>
      match TenantService.getTenant tenantCode d with
      | None => (DelRollback ("Tenant " +:+ tenantCode +:+ " no encontrado"), d)
      | Some tenant => (DelDrop (TenantService.schema_name tenant), d)
      end
  | DelDrop schemaName =>
      match TenantService.drop_schema_error f with
      | Some e => (DelRollback e, d)
      | None => (DelDelete, TenantService.drop_schema schemaName d)
      end
  | DelDelete =>
      match TenantService.delete_row_error f with
      | Some e => (DelRollback e, d)
      | None => (DelCommit, TenantService.delete_tenant_row tenantCode d)
      end
  | DelCommit => (DelFinished (inr true), d)
  | DelRollback e => (DelFinished (inl ("Error eliminando tenant: " +:+ e)), d)
  | DelFinished r => (DelFinished r, d)
  end.

Fixpoint delete_steps (n : nat) (tenantCode : string) (f : TenantService.faults)
    (t : delete_task) (d : database) : delete_task * database :=
  match n with
  | O => (t, d)
  | S n' =>
      let '(t', d') := delete_step tenantCode f t d in
      delete_steps n' tenantCode f t' d'
  end.

Definition succeeded (t : task) : bool :=
  match t with
  | Finished (inr _) => true
  | _ => false
  end.

End Concurrent.

(* ===================================================================== *)
(** ** Observations on a database and sample data *)
(* ===================================================================== *)

Module Ledger.
Import Database Inventory.

(** Current stock of product [pid] in schema [sch]. *)
Definition stock_of (sch : string) (pid : Z) (d : database) : option Z :=
  match schemas d !! sch with
  | Some t => current_stock <$> products t !! pid
  | None => None
  end.

(** All movements of schema [sch], oldest first. *)
Definition movements_of (sch : string) (d : database) : list movement :=
  match schemas d !! sch with
  | Some t => inventory_movements t
  | None => []
  end.

(** The movements of product [pid], oldest first. *)
Definition ledger_of (sch : string) (pid : Z) (d : database) : list movement :=
  List.filter (fun m => Z.eqb (product_id m) pid) (movements_of sch d).

Definition sum_deltas (l : list movement) : Z :=
  fold_right Z.add 0 (map quantity l).

(** A sequence of [addMovement] calls, each on its own schema; calls
    that throw are part of the sequence. *)
Definition run_calls (mode : pool_mode) (calls : list (string * movementData))
    (d : database) : database :=
  fold_left (fun d c => snd (addMovement mode (fst c) (snd c) d)) calls d.

(** The ledger of a product agrees with its stock, counted from a
    stock [s0] at creation. *)
Definition consistent (sch : string) (pid : Z) (s0 : Z) (d : database) : Prop :=
  exists s,
    stock_of sch pid d = Some s /\
    s = s0 + sum_deltas (ledger_of sch pid d) /\
    (forall m, last (ledger_of sch pid d) = Some m -> new_stock m = s) /\
    Forall (fun m => new_stock m = previous_stock m + quantity m)
           (ledger_of sch pid d).

(** What a successful [addMovement] writes, when the server reads
    [q] from the parameter [quantity] and [n] from [new_stock]. *)
Definition written (data : movementData) (t : tenant_schema)
    (p : product) (q n : Z) : movement * tenant_schema :=
  let row := {| id := movements_seq t + 1;
                product_id := md_product_id data;
                movement_type := md_movement_type data;
                quantity := q;
                previous_stock := current_stock p;
                new_stock := n;
                cost_per_unit := md_cost_per_unit data;
                reference_type := md_reference_type data;
                reference_id := md_reference_id data;
                notes := md_notes data |} in
  (row,
   {| products := alter (set_stock n) (md_product_id data) (products t);
      inventory_movements := inventory_movements t ++ [row];
      insights := insights t;
      movements_seq := movements_seq t + 1 |}).

(** The server reads every parameter of the [INSERT] but the
    quantities: the stock read fits [INTEGER], the unit cost
    [DECIMAL(10,2)], the reference type is one of
    [reference_type_enum] and the reference fits [INTEGER]. *)
Definition acceptable (cs : Z) (cost : option Z) (rtype : string) (rid : option Z)
  : Prop :=
  fits_int4 cs = true /\
  fits_decimal_10_2 (default 0 cost) = true /\
  rtype ∈ reference_type_enum /\
  fits_int4 (default 0 rid) = true.

(** An [ajuste] or a [sincronizacion] carries its quantity as a
    number. *)
Definition numeric (data : movementData) : Prop :=
  md_movement_type data = "ajuste" \/ md_movement_type data = "sincronizacion" ->
  exists z, md_quantity data = Js.Num z.

(** Entries of one product carry one [external_stock]. *)
Definition agree (items : list syncItem) : Prop :=
  forall a b, In a items -> In b items ->
              si_product_id a = si_product_id b ->
              si_external_stock a = si_external_stock b.

(** The product of the entry, if it exists, already has the entry's
    [external_stock]. *)
Definition settled (sch : string) (d : database) (item : syncItem) : Prop :=
  forall s, stock_of sch (si_product_id item) d = Some s ->
            Js.ToNumber (si_external_stock item) = Js.Num s.

Definition sync_entry (pid ext : Z) : syncItem :=
  {| si_product_id := pid; si_external_stock := Js.Num ext;
     si_cost_price := None; si_notes := None |}.

(** The only errors of a report are products that were not found: no
    statement of the run was rejected. *)
Definition clean (r : syncResults) : Prop :=
  Forall (fun e => exists pid, e = not_found pid) (errors r).

End Ledger.

Module Sample.
Import Database Inventory.

Definition widget : product :=
  {| sku := "SKU-1"; name := "Widget"; cost_price := 200; selling_price := 350;
     current_stock := 100; min_stock_threshold := 10;
     max_stock_threshold := 1000; active := true |}.

Definition acme : tenant :=
  {| tenant_code := "acme"; company_name := "Acme"; plan := "basic";
     tenant_active := true |}.

Definition with_stock (v : Z) : database :=
  {| tenants := [acme];
     schemas := {[ "tenant_acme" :=
                     {| products := {[ 1 := set_stock v widget ]};
                        inventory_movements := [];
                        insights := [];
                        movements_seq := 0 |} ]} |}.

Definition move (kind : string) (q : Z) (cost : option Z) : movementData :=
  {| md_product_id := 1; md_movement_type := kind; md_quantity := Js.Num q;
     md_cost_per_unit := cost; md_reference_type := "venta";
     md_reference_id := Some 7; md_notes := "" |}.

(** The same request with the quantity as text, as a form-encoded body
    or a quoted JSON member carries it. *)
Definition move_text (kind : string) (q : string) : movementData :=
  {| md_product_id := 1; md_movement_type := kind; md_quantity := Js.Str q;
     md_cost_per_unit := None; md_reference_type := "ajuste";
     md_reference_id := None; md_notes := "" |}.

End Sample.

Module Advisories.
Import Database Insights.

Definition insights_of (sch : string) (d : database) : list insight :=
  match schemas d !! sch with
  | Some t => insights t
  | None => []
  end.

(** What identifies the rule that produced an advisory. *)
Definition rule_key (i : insight) : string * string * string :=
  (triggered_by i, type i, priority i).

Definition data_key (x : insightData) : string * string * string :=
  (d_triggered_by x, d_type x, d_priority x).

Definition stockout_key : string * string * string :=
  ("inventory_monitor", "alert", "critical").

Definition is_stockout (i : insight) : bool :=
  bool_decide (rule_key i = stockout_key).

(** The critical-stockout advisories of a schema. *)
Definition stockouts (sch : string) (d : database) : list insight :=
  List.filter is_stockout (insights_of sch d).

(** The critical-stockout advisories still active at time [now]. *)
Definition active_stockouts (now : Z) (sch : string) (d : database) : list insight :=
  List.filter (is_active now) (stockouts sch d).

(** Some active product of the schema has no stock. *)
Definition has_out_of_stock (sch : string) (d : database) : Prop :=
  exists t, schemas d !! sch = Some t /\ select_limit out_of_stock 10 t <> [].

(** Clock and random characters of a run started at [t0]. *)
Definition env_at (t0 : Z) (rnd : string) (k : nat) : entropy :=
  {| now_expiry := t0; now_id := t0 + Z.of_nat k; random := rnd |}.

End Advisories.

Module Requests.
Import Database TenantMiddleware.

(** [GET https://api.fluxionai.com/api/products?tenant=acme], no
    [X-Tenant] header. *)
Definition query_only : request :=
  {| header_x_tenant := ""; hostname := "api.fluxionai.com";
     params_tenantCode := ""; path := "/api/products";
     query_tenant := "acme" |}.

(** The same request sent to [localhost]. *)
Definition query_only_local : request :=
  {| header_x_tenant := ""; hostname := "localhost";
     params_tenantCode := ""; path := "/api/products";
     query_tenant := "acme" |}.

Definition two_outbound : list Concurrent.task :=
  [Concurrent.AtBegin (Sample.move "salida" 10 None);
   Concurrent.AtBegin (Sample.move "salida" 10 None)].

(** The two requests take turns at every [await]. *)
Definition alternate : list nat :=
  [0; 1; 0; 1; 0; 1; 0; 1; 0; 1; 0; 1]%nat.

End Requests.

Module LedgerOps.
Import Database Inventory Ledger.

(** The same request with the sign of [quantity] flipped. *)
Definition negate_quantity (data : movementData) : movementData :=
{| md_product_id := md_product_id data;
   md_movement_type := md_movement_type data;
   md_quantity := Js.neg (md_quantity data);
   md_cost_per_unit := md_cost_per_unit data;
   md_reference_type := md_reference_type data;
   md_reference_id := md_reference_id data;
   md_notes := md_notes data |}.

(** The identifiers of a ledger grow along it and none is beyond
    [seq], the last value drawn from the sequence. *)
Definition numbered (seq : Z) (l : list movement) : Prop :=
StronglySorted Z.lt (map id l) /\ Forall (fun m => id m <= seq) l.

(** The last value drawn from the sequence of schema [sch]. *)
Definition seq_of (sch : string) (d : database) : Z :=
match schemas d !! sch with
| Some t => movements_seq t
| None => 0
end.

(** A write to the ledger through either entry point. *)
Inductive ledger_op :=
| Add (sch : string) (data : movementData)
| Sync (sch : string) (items : list syncItem).

Definition run_op (mode : pool_mode) (d : database) (op : ledger_op) : database :=
match op with
| Add sch data => snd (addMovement mode sch data d)
| Sync sch items => snd (syncInventory mode sch items d)
end.

Definition run_ops (mode : pool_mode) (ops : list ledger_op) (d : database) : database :=
fold_left (run_op mode) ops d.

(** An [ajuste] or a [sincronizacion] through [addMovement] carries its
    quantity as a number. *)
Definition numeric_op (op : ledger_op) : Prop :=
match op with
| Add _ data => numeric data
| Sync _ _ => True
end.

(** The report after an entry whose product has the stock already, and
    after an entry that was applied. *)
Definition counted (r : syncResults) : syncResults :=
{| processed := processed r + 1; updated := updated r; errors := errors r;
   movements_created := movements_created r |}.

Definition applied (r : syncResults) : syncResults :=
{| processed := processed r + 1; updated := updated r + 1; errors := errors r;
   movements_created := movements_created r + 1 |}.

(** The [external_stock] of the last entry for product [pid], if any. *)
Definition last_external (pid : Z) (items : list syncItem) : option Js.value :=
si_external_stock <$>
  last (List.filter (fun item => Z.eqb (si_product_id item) pid) items).

(** The ledger of [sch] in [d'] extends the one in [d], and the
    sequence has not gone back. *)
Definition extends (sch : string) (d d' : database) : Prop :=
  movements_of sch d `prefix_of` movements_of sch d' /\
  seq_of sch d <= seq_of sch d' /\
  (numbered (seq_of sch d) (movements_of sch d) ->
   numbered (seq_of sch d') (movements_of sch d')).

(** What [syncInventory] writes for an entry whose product [p] has
    another stock than the entry's, when the server reads [q] from the
    difference, [n] from the [external_stock] and [text] is the
    difference in the notes. *)
Definition sync_written (item : syncItem) (t : tenant_schema) (p : product)
    (q n : Z) (text : string) : movement * tenant_schema :=
let row := {| id := movements_seq t + 1;
              product_id := si_product_id item;
              movement_type := "sincronizacion";
              quantity := q;
              previous_stock := current_stock p;
              new_stock := n;
              cost_per_unit := si_cost_price item;
              reference_type := "sync";
              reference_id := None;
              notes := default "Sincronización externa" (si_notes item) +:+
                       " - Diferencia: " +:+ text |} in
(row,
 {| products := alter (set_stock n) (si_product_id item) (products t);
    inventory_movements := inventory_movements t ++ [row];
    insights := insights t;
    movements_seq := movements_seq t + 1 |}).

End LedgerOps.

Module Valuation.
Import Database Inventory.

(** Quantity times unit cost of an inbound layer; the product's cost
    price stands in for a missing unit cost. *)
Definition layer_cost (p : product) (m : movement) : Z :=
Z.abs (quantity m) * default (cost_price p) (cost_per_unit m).

(** The sum of [layer_cost] over a list of layers. *)
Definition layers_cost (p : product) (rows : list movement) : Z :=
fold_right Z.add 0 (map (layer_cost p) rows).

Definition received (rows : list movement) : Z :=
fold_right Z.add 0 (map (fun m => Z.abs (quantity m)) rows).

End Valuation.

Module InsightOps.
Import Database Insights Advisories.

(** The row [Insights.create] inserts for [data] with the readings [e]. *)
Definition created_row (data : insightData) (e : entropy) : insight :=
{| insight_id := d_type data +:+ "_" +:+ Js.show (now_id e) +:+ "_" +:+ random e;
   triggered_by := d_triggered_by data;
   type := d_type data;
   priority := d_priority data;
   confidence := d_confidence data;
   channels := d_channels data;
   affected_products := d_affected_products data;
   expires_at := d_expires_at data;
   status := "generated";
   created_at := now_id e |}.

(** No active product of the schema is out of stock, low on stock or
    over its maximum. *)
Definition nothing_to_report (t : tenant_schema) : Prop :=
forall pid p, products t !! pid = Some p -> active p = true ->
  out_of_stock p = false /\ low_stock p = false /\ over_stock p = false.

(** The schema with [added] appended to its insights. *)
Definition with_insights (t : tenant_schema) (added : list insight) : tenant_schema :=
{| products := products t;
   inventory_movements := inventory_movements t;
   insights := insights t ++ added;
   movements_seq := movements_seq t |}.

(** Options of [getAll] with no filter set. *)
Definition no_options : getAllOptions :=
{| o_type := ""; o_priority := ""; o_status := ""; o_active_only := None;
   o_date_from := None; o_date_to := None; o_limit := None; o_offset := None |}.

(** [?type=alert&active_only=false&limit=3] *)
Definition three_alerts : getAllOptions :=
{| o_type := "alert"; o_priority := ""; o_status := "";
   o_active_only := Some false; o_date_from := None; o_date_to := None;
   o_limit := Some 3; o_offset := None |}.

Definition one_insight (ident : string) (prio : string) (exp : option Z) (created : Z)
  : insight :=
{| insight_id := ident; triggered_by := "manual"; type := "alert";
   priority := prio; confidence := 80; channels := ["dashboard"];
   affected_products := 0; expires_at := exp; status := "generated";
   created_at := created |}.

(** A schema with four advisories: one already expired at time 1000,
    one expiring exactly at 1000, one expiring later, one without
    expiry. *)
Definition with_advisories : database :=
{| tenants := [Sample.acme];
   schemas := {[ "tenant_acme" :=
                   {| products := {[ 1 := Sample.widget ]};
                      inventory_movements := [];
                      insights := [one_insight "a" "low" (Some 900) 10;
                                   one_insight "b" "high" (Some 1000) 20;
                                   one_insight "c" "critical" (Some 5000) 30;
                                   one_insight "d" "high" None 40];
                      movements_seq := 0 |} ]} |}.

End InsightOps.

Module TenantOps.
Import Database TenantService TenantMiddleware.

(** A request that carries only the [X-Tenant] header. *)
Definition with_header (code : string) : request :=
{| header_x_tenant := code; hostname := "localhost";
   params_tenantCode := ""; path := "/api/products"; query_tenant := "" |}.

(** What the middleware leaves on the request for a tenant. *)
Definition context_of (ti : tenant_info) : context :=
{| ctx_tenant := ti; ctx_tenantCode := tenant_code (info ti);
   ctx_tenantSchema := schema_name ti |}.

Definition beta : tenantData :=
{| td_tenant_code := "beta_2"; td_company_name := "Beta";
   td_plan := None; td_active := None; td_initialData := None |}.

(** The tenant of [POST /api/admin/tenants/demo], with [stamp] for
    [Date.now()]: two products and one client. *)
Definition demo (stamp : Z) : tenantData :=
{| td_tenant_code := "demo_" +:+ Js.show stamp;
   td_company_name := "Distribuidora Demo Valencia";
   td_plan := Some "demo"; td_active := Some true;
   td_initialData :=
     Some {| id_products :=
               [ {| ip_sku := "HARINA-PAN-1KG"; ip_name := "Harina P.A.N. 1Kg";
                    ip_cost_price := 250; ip_selling_price := 320;
                    ip_current_stock := Some 45;
                    ip_min_stock_threshold := Some 20;
                    ip_max_stock_threshold := Some 100; ip_active := None |};
                 {| ip_sku := "ACEITE-MAZEITE-1L"; ip_name := "Aceite Mazeite 1L";
                    ip_cost_price := 180; ip_selling_price := 245;
                    ip_current_stock := Some 32;
                    ip_min_stock_threshold := Some 15;
                    ip_max_stock_threshold := Some 80; ip_active := None |} ];
             id_clients := 1 |} |}.

End TenantOps.

Module Schedules.
Import Database Inventory Ledger Concurrent.

(** What a task holds in its local variables between two statements
    cannot make a stock negative: the request is not a
    [sincronizacion], and the stock the server reads from what the
    task is about to write is not negative. *)
Definition harmless (t : task) : Prop :=
match t with
| AtBegin data | AtSelect data => md_movement_type data <> "sincronizacion"
| AtInsert _ currentStock change =>
    forall n, int4 (Js.add (Js.Num currentStock) change) = inr n -> 0 <= n
| AtUpdate _ _ newStock => forall n, int4 newStock = inr n -> 0 <= n
| AtCommit _ | AtRollback _ | Finished _ => True
end.

Definition stocks_nonneg (d : database) : Prop :=
forall sch pid s, stock_of sch pid d = Some s -> 0 <= s.

End Schedules.

Module Partition.
Import Database Inventory Insights.

(** The calls of the two models that write to the tables of a tenant. *)
Inductive tenant_write :=
| AddMovement (data : movementData)
| SyncInventory (items : list syncItem)
| CreateInsight (data : insightData) (e : entropy)
| GenerateInsights (env : nat -> entropy)
| UpdateStatus (col : status_column) (insightId st : string)
| Cleanup (now : Z).

Definition run_write (mode : pool_mode) (d : database) (w : string * tenant_write)
  : database :=
match snd w with
| AddMovement data => snd (addMovement mode (fst w) data d)
| SyncInventory items => snd (syncInventory mode (fst w) items d)
| CreateInsight data e => snd (create (fst w) data e d)
| GenerateInsights env => snd (generateInventoryInsights (fst w) env d)
| UpdateStatus col insightId st => snd (updateStatus col (fst w) insightId st d)
| Cleanup now => snd (cleanupExpiredInsights (fst w) now d)
end.

Definition run_writes (mode : pool_mode) (ws : list (string * tenant_write))
    (d : database) : database :=
fold_left (run_write mode) ws d.

(** [d'] differs from [d] at most in the tables of schema [sch], which
    exists in both or in neither. *)
Definition confined (sch : string) (d d' : database) : Prop :=
tenants d' = tenants d /\
(forall s, s <> sch -> schemas d' !! s = schemas d !! s) /\
(is_Some (schemas d' !! sch) <-> is_Some (schemas d !! sch)).

End Partition.

Module Entries.
Import Database Inventory InventoryOriginal.

(** A sequence of [recordMovement] calls; calls that throw are part of
    the sequence. *)
Definition record_all (calls : list movementData) (t : tenant_schema) : tenant_schema :=
fold_left (fun t data => snd (recordMovement data t)) calls t.

(** What [recordMovement] stores is well formed: one of the two types,
    a quantity signed by the type, and a resulting stock that is the
    previous one plus the quantity and is not negative. *)
Definition well_formed (m : movement) : Prop :=
(movement_type m = "entrada" /\ 0 <= quantity m \/
 movement_type m = "salida" /\ quantity m <= 0) /\
new_stock m = previous_stock m + quantity m /\
0 <= new_stock m.

Definition with_items (e : entryData) (items : list entryItem) : entryData :=
{| ed_reference_type := ed_reference_type e; ed_reference_id := ed_reference_id e;
   ed_notes := ed_notes e; ed_items := items |}.

(** The movement of an entry item, as [processInventoryEntry] asks for it. *)
Definition booked (e : entryData) (item : entryItem) (m : movement) : Prop :=
product_id m = ei_product_id item /\
movement_type m = "entrada" /\
quantity m = ei_quantity item /\
0 < quantity m /\
reference_type m = default "compra" (ed_reference_type e) /\
reference_id m = ed_reference_id e.

Definition flour : product :=
{| sku := "HARINA-PAN-1KG"; name := "Harina P.A.N. 1Kg"; cost_price := 250;
   selling_price := 320; current_stock := 45; min_stock_threshold := 20;
   max_stock_threshold := 100; active := true |}.

Definition store : tenant_schema :=
{| products := {[ 1 := flour ]}; inventory_movements := []; insights := [];
   movements_seq := 0 |}.

Definition purchase (items : list entryItem) : entryData :=
{| ed_reference_type := None; ed_reference_id := Some 12; ed_notes := "";
   ed_items := items |}.

End Entries.

(* ===================================================================== *)
(** ** Properties of the inventory ledger *)
(* ===================================================================== *)

Section LedgerFacts.
Import Database Inventory Ledger LedgerOps.

Lemma set_schema_lookup sch t d :
  schemas (set_schema sch t d) !! sch = Some t.
Proof. unfold set_schema; simpl. apply lookup_insert_eq. Qed.

Lemma set_schema_lookup_ne sch sch' t d :
  sch <> sch' -> schemas (set_schema sch t d) !! sch' = schemas d !! sch'.
Proof. intros H. unfold set_schema; simpl. by apply lookup_insert_ne. Qed.

Lemma set_schema_twice sch t1 t2 d :
  set_schema sch t2 (set_schema sch t1 d) = set_schema sch t2 d.
Proof. unfold set_schema; simpl. by rewrite insert_insert_eq. Qed.

(** *** Transactions *)

Lemma set_seq_id t : set_seq (movements_seq t) t = t.
Proof. by destruct t. Qed.

Lemma rolled_back_lookup start now k :
  schemas (rolled_back start now) !! k =
  (fun t => set_seq (match schemas now !! k with
                     | Some t' => movements_seq t'
                     | None => movements_seq t
                     end) t) <$> schemas start !! k.
Proof.
  unfold rolled_back; simpl. rewrite map_lookup_imap.
  by destruct (schemas start !! k).
Qed.

(** Rolling back a transaction that has written nothing changes
    nothing. *)
Lemma rolled_back_same d : rolled_back d d = d.
Proof.
  destruct d as [ts ss]. unfold rolled_back; simpl. f_equal.
  apply map_eq. intros k. rewrite map_lookup_imap.
  destruct (ss !! k) as [t|] eqn:E; simpl; [|done].
  by rewrite set_seq_id.
Qed.

(** *** Parameters and columns *)

Lemma int4_Num z n : int4 (Js.Num z) = inr n -> n = z /\ fits_int4 z = true.
Proof.
  unfold int4, int4_of. destruct (fits_int4 z); [|discriminate].
  by intros [= <-].
Qed.

Lemma int4_fits z : fits_int4 z = true -> int4 (Js.Num z) = inr z.
Proof. intros H. unfold int4, int4_of. by rewrite H. Qed.

Lemma int4_range v n : int4 v = inr n -> fits_int4 n = true.
Proof.
  unfold int4, int4_of. destruct v as [z| |txt].
  - destruct (fits_int4 z) eqn:E; [|discriminate]. by intros [= <-].
  - discriminate.
  - destruct (Js.integer txt) as [z|]; [|discriminate].
    destruct (fits_int4 z) eqn:E; [|discriminate]. by intros [= <-].
Qed.

(** What the server reads from a parameter is what [Number] makes of
    it. *)
Lemma int4_ToNumber v n : int4 v = inr n -> Js.ToNumber v = Js.Num n.
Proof.
  unfold int4, int4_of. destruct v as [z| |txt]; simpl.
  - destruct (fits_int4 z); [|discriminate]. by intros [= <-].
  - discriminate.
  - destruct (Js.integer txt) as [z|] eqn:Hz; [|discriminate].
    destruct (fits_int4 z); [|discriminate]. intros [= <-].
    destruct txt; [discriminate|]. done.
Qed.

Lemma movement_row_inr new_id a row :
  movement_row new_id a = inr row ->
  exists q n,
    int4 (a_quantity a) = inr q /\
    int4 (a_new_stock a) = inr n /\
    acceptable (a_previous_stock a) (a_cost_per_unit a) (a_reference_type a)
               (a_reference_id a) /\
    row = {| id := new_id; product_id := a_product_id a;
             movement_type := a_movement_type a; quantity := q;
             previous_stock := a_previous_stock a; new_stock := n;
             cost_per_unit := a_cost_per_unit a;
             reference_type := a_reference_type a;
             reference_id := a_reference_id a; notes := a_notes a |}.
Proof.
  unfold movement_row, acceptable.
  destruct (int4 (a_quantity a)) as [e|q]; [discriminate|].
  destruct (int4 (Js.Num (a_previous_stock a))) as [e|prev] eqn:Hprev; [discriminate|].
  apply int4_Num in Hprev as [-> Hfits].
  destruct (int4 (a_new_stock a)) as [e|n]; [discriminate|].
  destruct (fits_decimal_10_2 _) eqn:Hcost; [|discriminate]. cbn [negb].
  case_bool_decide as Hty; [|discriminate]. cbn [negb].
  destruct (int4 (Js.Num (default 0 (a_reference_id a)))) as [e|rid] eqn:Hrid;
    [discriminate|].
  apply int4_Num in Hrid as [_ Hrid].
  intros [= <-]. exists q, n. repeat split; done.
Qed.

Lemma movement_row_complete new_id a q n :
  int4 (a_quantity a) = inr q ->
  int4 (a_new_stock a) = inr n ->
  acceptable (a_previous_stock a) (a_cost_per_unit a) (a_reference_type a)
             (a_reference_id a) ->
  movement_row new_id a =
    inr {| id := new_id; product_id := a_product_id a;
           movement_type := a_movement_type a; quantity := q;
           previous_stock := a_previous_stock a; new_stock := n;
           cost_per_unit := a_cost_per_unit a;
           reference_type := a_reference_type a;
           reference_id := a_reference_id a; notes := a_notes a |}.
Proof.
  intros Hq Hn (Hprev & Hcost & Hty & Hrid). unfold movement_row.
  rewrite Hq, (int4_fits _ Hprev), Hn, Hcost, (int4_fits _ Hrid). cbn [negb].
  by rewrite bool_decide_eq_true_2.
Qed.

(** *** One call of [addMovement] *)

Lemma addMovement_try_inr sch data d row d' :
  addMovement_try sch data d = (inr row, d') ->
  exists t p change q n,
    schemas d !! sch = Some t /\
    products t !! md_product_id data = Some p /\
    stockChange (md_movement_type data) (md_quantity data) (current_stock p)
      = inr change /\
    int4 change = inr q /\
    int4 (Js.add (Js.Num (current_stock p)) change) = inr n /\
    acceptable (current_stock p) (md_cost_per_unit data) (md_reference_type data)
               (md_reference_id data) /\
    row = fst (written data t p q n) /\
    d' = set_schema sch (snd (written data t p q n)) d.
Proof.
  unfold addMovement_try, select_product, insert_movement, update_stock.
  destruct (schemas d !! sch) as [t|] eqn:Ht; [|discriminate].
  destruct (products t !! md_product_id data) as [p|] eqn:Hp; [|discriminate].
  destruct (stockChange _ _ _) as [e|change] eqn:Hc; [discriminate|].
  destruct (movement_row _ _) as [e|row1] eqn:Hrow; [discriminate|].
  apply movement_row_inr in Hrow as (q & n & Hq & Hn & Hacc & ->).
  cbn [movement_insert a_quantity a_new_stock a_previous_stock a_cost_per_unit
       a_reference_type a_reference_id a_product_id a_movement_type a_notes] in *.
  rewrite set_schema_lookup, Hn. cbn [products inventory_movements insights
                                      movements_seq].
  rewrite set_schema_twice.
  intros [= <- <-]. exists t, p, change, q, n. by repeat (split; [done|]).
Qed.

Lemma addMovement_try_complete sch data d t p change q n :
  schemas d !! sch = Some t ->
  products t !! md_product_id data = Some p ->
  stockChange (md_movement_type data) (md_quantity data) (current_stock p)
    = inr change ->
  int4 change = inr q ->
  int4 (Js.add (Js.Num (current_stock p)) change) = inr n ->
  acceptable (current_stock p) (md_cost_per_unit data) (md_reference_type data)
             (md_reference_id data) ->
  addMovement_try sch data d =
    (inr (fst (written data t p q n)),
     set_schema sch (snd (written data t p q n)) d).
Proof.
  intros Ht Hp Hc Hq Hn Hacc.
  unfold addMovement_try, select_product, insert_movement, update_stock.
  rewrite Ht, Hp, Hc.
  rewrite (movement_row_complete _ (movement_insert data (current_stock p) change)
             q n Hq Hn Hacc).
  rewrite set_schema_lookup, Hn.
  cbn [products inventory_movements insights movements_seq].
  by rewrite set_schema_twice.
Qed.

(** Every [throw] of the [try] block comes before its first write: the
    [UPDATE] binds the value the [INSERT] has bound already. *)
Lemma addMovement_try_inl sch data d e d' :
  addMovement_try sch data d = (inl e, d') -> d' = d.
Proof.
  unfold addMovement_try, select_product, insert_movement, update_stock.
  destruct (schemas d !! sch) as [t|] eqn:Ht; [|by intros [= _ <-]].
  destruct (products t !! md_product_id data) as [p|]; [|by intros [= _ <-]].
  destruct (stockChange _ _ _) as [e'|change]; [by intros [= _ <-]|].
  destruct (movement_row _ _) as [e'|row1] eqn:Hrow; [by intros [= _ <-]|].
  apply movement_row_inr in Hrow as (q & n & _ & Hn & _ & _).
  cbn [movement_insert a_new_stock] in Hn.
  rewrite set_schema_lookup, Hn. discriminate.
Qed.

(** A call that throws leaves the database as it was, whichever way the
    pool routes the statements. *)
Lemma addMovement_throw_unchanged mode sch data d e d' :
  addMovement mode sch data d = (inl e, d') -> d' = d.
Proof.
  unfold addMovement. destruct (negb (Js.truthy sch)); [by intros [= _ <-]|].
  simpl. destruct (addMovement_try sch data d) as [[e'|row] d1] eqn:Htry.
  - apply addMovement_try_inl in Htry as ->.
    intros [= _ <-]. destruct mode; [apply rolled_back_same|done].
  - discriminate.
Qed.

Lemma addMovement_ok mode sch data d row d' :
  addMovement mode sch data d = (inr row, d') ->
  addMovement_try sch data d = (inr row, d').
Proof.
  unfold addMovement. destruct (negb (Js.truthy sch)); [discriminate|].
  simpl. destruct (addMovement_try sch data d) as [[e'|row1] d1].
  - discriminate.
  - destruct mode; simpl; by intros [= <- <-].
Qed.

Lemma addMovement_run mode sch data d :
  Js.truthy sch = true ->
  addMovement mode sch data d =
  match addMovement_try sch data d with
  | (inr row, d') => (inr row, d')
  | (inl e, d') => (inl ("Error registrando movimiento: " +:+ e), d)
  end.
Proof.
  intros Hsch. unfold addMovement. rewrite Hsch. simpl.
  destruct (addMovement_try sch data d) as [[e|row] d1] eqn:Htry.
  - apply addMovement_try_inl in Htry as ->.
    destruct mode; simpl; [by rewrite rolled_back_same|done].
  - by destruct mode.
Qed.

Lemma stock_of_set_schema sch pid t d :
  stock_of sch pid (set_schema sch t d) = current_stock <$> products t !! pid.
Proof. unfold stock_of. by rewrite set_schema_lookup. Qed.

Lemma ledger_of_set_schema sch pid t d :
  ledger_of sch pid (set_schema sch t d) =
  List.filter (fun m => Z.eqb (product_id m) pid) (inventory_movements t).
Proof. unfold ledger_of, movements_of. by rewrite set_schema_lookup. Qed.

Lemma stock_of_other_schema sch sch' pid t d :
  sch' <> sch -> stock_of sch pid (set_schema sch' t d) = stock_of sch pid d.
Proof. intros H. unfold stock_of. by rewrite set_schema_lookup_ne. Qed.

Lemma ledger_of_other_schema sch sch' pid t d :
  sch' <> sch -> ledger_of sch pid (set_schema sch' t d) = ledger_of sch pid d.
Proof. intros H. unfold ledger_of, movements_of. by rewrite set_schema_lookup_ne. Qed.

Lemma stock_of_rolled_back sch pid start now :
  stock_of sch pid (rolled_back start now) = stock_of sch pid start.
Proof.
  unfold stock_of. rewrite rolled_back_lookup.
  by destruct (schemas start !! sch).
Qed.

Lemma movements_of_rolled_back sch start now :
  movements_of sch (rolled_back start now) = movements_of sch start.
Proof.
  unfold movements_of. rewrite rolled_back_lookup.
  by destruct (schemas start !! sch).
Qed.

Lemma sum_deltas_app l1 l2 :
  sum_deltas (l1 ++ l2) = sum_deltas l1 + sum_deltas l2.
Proof.
  unfold sum_deltas. induction l1 as [|m l1 IH]; simpl; [done|].
  rewrite IH. lia.
Qed.

(** When [stockChange] is a number, the server reads it as it is and
    reads their sum from [newStock]. *)
Lemma numeric_change ty v cs change q n :
  stockChange ty v cs = inr change ->
  int4 change = inr q ->
  int4 (Js.add (Js.Num cs) change) = inr n ->
  (ty = "ajuste" \/ ty = "sincronizacion" -> exists z, v = Js.Num z) ->
  n = cs + q.
Proof.
  intros Hc Hq Hn Hnum.
  assert (Hsum : forall z, change = Js.Num z -> n = cs + q).
  { intros z ->. simpl in Hn. apply int4_Num in Hq as [-> _].
    by apply int4_Num in Hn as [-> _]. }
  revert Hc. unfold stockChange.
  destruct (String.eqb_spec ty "entrada") as [_|_].
  { unfold Js.abs. destruct (Js.ToNumber v); intros [= <-]; eauto; discriminate. }
  destruct (String.eqb_spec ty "salida") as [_|_].
  { destruct (Js.lt0 _); [discriminate|]. unfold Js.neg, Js.abs.
    destruct (Js.ToNumber v); cbn [Js.ToNumber]; intros [= <-]; eauto; discriminate. }
  destruct (String.eqb_spec ty "ajuste") as [E|_].
  { destruct (Js.lt0 _); [discriminate|]. intros [= <-].
    destruct Hnum as [z ->]; eauto. }
  destruct (String.eqb_spec ty "sincronizacion") as [E|_]; [|discriminate].
  intros [= <-]. destruct Hnum as [z ->]; eauto.
Qed.

(** One call with a numeric quantity keeps the ledger of every product
    consistent. *)
Lemma addMovement_consistent mode sch pid s0 sch' data d :
  numeric data ->
  consistent sch pid s0 d ->
  consistent sch pid s0 (snd (addMovement mode sch' data d)).
Proof.
  intros Hnum Hc.
  destruct (addMovement mode sch' data d) as [[e|row] d'] eqn:Hcall; simpl.
  { apply addMovement_throw_unchanged in Hcall. by subst. }
  apply addMovement_ok, addMovement_try_inr in Hcall.
  destruct Hcall as (t & p & change & q & n & Ht & Hp & Hch & Hq & Hn & _ & Hrow & ->).
  pose proof (numeric_change _ _ _ _ _ _ Hch Hq Hn Hnum) as ->.
  destruct (decide (sch' = sch)) as [->|Hne]; cycle 1.
  { destruct Hc as (s & Hs & Hsum & Hlast & Hall). exists s.
    rewrite stock_of_other_schema, ledger_of_other_schema by done. done. }
  destruct Hc as (s & Hs & Hsum & Hlast & Hall).
  unfold stock_of in Hs. rewrite Ht in Hs.
  assert (Hl : ledger_of sch pid d =
               List.filter (fun m => Z.eqb (product_id m) pid) (inventory_movements t)).
  { unfold ledger_of, movements_of. by rewrite Ht. }
  rewrite Hl in *.
  unfold consistent. rewrite stock_of_set_schema, ledger_of_set_schema.
  unfold written in *; simpl in *. rewrite List.filter_app. simpl.
  destruct (Z.eqb_spec (md_product_id data) pid) as [E|Hpid].
  - rewrite E in *. rewrite Hp in Hs. simpl in Hs. injection Hs as <-.
    exists (current_stock p + q). split; [|split; [|split]].
    + rewrite lookup_alter_eq, Hp. done.
    + rewrite sum_deltas_app. unfold sum_deltas at 2. simpl. lia.
    + intros m. rewrite last_snoc. intros [= <-]. done.
    + apply Forall_app. split; [done|]. constructor; [done|constructor].
  - exists s. rewrite app_nil_r. split; [|done].
    rewrite lookup_alter_ne by done. done.
Qed.

(** A product as it is created: a stock and no movement yet. *)
Lemma created_consistent sch pid s0 d :
  stock_of sch pid d = Some s0 -> ledger_of sch pid d = [] ->
  consistent sch pid s0 d.
Proof.
  intros Hs Hl. exists s0. rewrite Hl. unfold sum_deltas; simpl.
  repeat split; [done|lia|discriminate|constructor].
Qed.

(** C1 at an [ajuste] whose quantity arrives as the text [5], on a
    stock of 100: the call succeeds, the movement is stored with
    quantity 5 and [new_stock] 1005 and the stock becomes 1005, so the
    movement does not have [new_stock = previous_stock + quantity] and
    the stock is not the creation stock plus the movements; the
    [POST /movements] handler, which only asks for the member to be
    present, answers 201.  A [salida] of the same text goes through
    [Math.abs] and takes 5 off. *)
Theorem ajuste_of_text_breaks_ledger :
  let d0 := Sample.with_stock 100 in
  (exists row d,
     addMovement SameConnection "tenant_acme" (Sample.move_text "ajuste" "5") d0
       = (inr row, d) /\
     (quantity row, previous_stock row, new_stock row) = (5, 100, 1005) /\
     new_stock row <> previous_stock row + quantity row /\
     stock_of "tenant_acme" 1 d = Some 1005 /\
     100 + sum_deltas (ledger_of "tenant_acme" 1 d) = 105) /\
  Http.status_code
    (fst (InventoryRoutes.post_movements SameConnection "tenant_acme"
            (Sample.move_text "ajuste" "5") d0)) = 201 /\
  (exists row d,
     addMovement SameConnection "tenant_acme" (Sample.move_text "salida" "5") d0
       = (inr row, d) /\
     (quantity row, previous_stock row, new_stock row) = (-5, 100, 95) /\
     stock_of "tenant_acme" 1 d = Some 95).
Proof.
  split; [|split].
  - eexists _, _. split; [vm_compute; reflexivity|]. vm_compute. repeat split; congruence.
  - vm_compute. reflexivity.
  - eexists _, _. split; [vm_compute; reflexivity|]. vm_compute. repeat split.
Qed.

Lemma stock_of_inv sch pid d s :
  stock_of sch pid d = Some s ->
  exists t p, schemas d !! sch = Some t /\ products t !! pid = Some p /\
              current_stock p = s.
Proof.
  unfold stock_of. destruct (schemas d !! sch) as [t|] eqn:Ht; [|discriminate].
  destruct (products t !! pid) as [p|] eqn:Hp; [|discriminate].
  simpl. intros [= <-]. by exists t, p.
Qed.

(** A [salida] of more than the stock throws before any write. *)
Lemma salida_over_stock_throws mode sch data d s q :
  Js.truthy sch = true ->
  md_movement_type data = "salida" ->
  stock_of sch (md_product_id data) d = Some s ->
  Js.ToNumber (md_quantity data) = Js.Num q ->
  s < q ->
  addMovement mode sch data d =
    (inl ("Error registrando movimiento: " +:+ insufficient_stock), d).
Proof.
  intros Hsch Hty Hs Hv Hq.
  apply stock_of_inv in Hs as (t & p & Ht & Hp & Hcs).
  rewrite addMovement_run by done.
  unfold addMovement_try, select_product.
  assert (Hneg : Js.neg (Js.abs (md_quantity data)) = Js.Num (- Z.abs q)).
  { unfold Js.neg, Js.abs. by rewrite Hv. }
  rewrite Ht, Hp, Hty. unfold stockChange. cbn [String.eqb Ascii.eqb Bool.eqb].
  rewrite Hneg. cbn [Js.add Js.lt0 Js.ToNumber].
  destruct (Z.ltb_spec (current_stock p + - Z.abs q) 0) as [_|Hge]; [done|lia].
Qed.

(** C2.  On a product with stock [s], a [salida] of any quantity
    [q > s], sent as a number or as its text, throws the
    insufficient-stock error, which the [POST /movements] handler
    turns into [400 INSUFFICIENT_STOCK], and the database (stock and
    ledger alike) is the one before the call. *)
Theorem outbound_over_stock_rejected mode sch data d s q :
  Js.truthy sch = true ->
  md_movement_type data = "salida" ->
  stock_of sch (md_product_id data) d = Some s ->
  Js.ToNumber (md_quantity data) = Js.Num q ->
  s < q ->
  let msg := "Error registrando movimiento: " +:+ insufficient_stock in
  addMovement mode sch data d = (inl msg, d) /\
  Http.status_code (InventoryRoutes.movements_error msg) = 400 /\
  Http.error (InventoryRoutes.movements_error msg) = "INSUFFICIENT_STOCK".
Proof.
  intros Hsch Hty Hs Hv Hq msg.
  split; [|split; reflexivity].
  by apply (salida_over_stock_throws mode sch data d s q).
Qed.

Lemma outbound_over_stock_rejected_witness :
  let d := Sample.with_stock 100 in
  let msg := "Error registrando movimiento: " +:+ insufficient_stock in
  addMovement SeparateConnections "tenant_acme" (Sample.move "salida" 101 None) d
    = (inl msg, d) /\
  Http.status_code (InventoryRoutes.movements_error msg) = 400 /\
  Http.error (InventoryRoutes.movements_error msg) = "INSUFFICIENT_STOCK".
Proof.
  apply (outbound_over_stock_rejected SeparateConnections "tenant_acme"
           (Sample.move "salida" 101 None) (Sample.with_stock 100) 100 101);
    [reflexivity | reflexivity | reflexivity | reflexivity | simpl; lia].
Defined.

(** The same request through the route handler. *)
Lemma post_movements_over_stock mode sch data d s q :
  Js.truthy sch = true ->
  InventoryRoutes.missingFields data = [] ->
  md_movement_type data = "salida" ->
  stock_of sch (md_product_id data) d = Some s ->
  Js.ToNumber (md_quantity data) = Js.Num q ->
  s < q ->
  exists r, InventoryRoutes.post_movements mode sch data d = (r, d) /\
            Http.status_code r = 400 /\ Http.error r = "INSUFFICIENT_STOCK".
Proof.
  intros Hsch Hmiss Hty Hs Hv Hq.
  unfold InventoryRoutes.post_movements.
  rewrite Hmiss, (salida_over_stock_throws mode sch data d s q) by done.
  eexists. split; [reflexivity|]. by split.
Qed.

(** *** One statement and one turn of the bulk synchronisation *)

(** A statement of a transaction is rejected and writes nothing, or
    runs on the database as the statements before left it. *)
Lemma run_query_cases {A : Type} mode
    (stmt : database -> Js.result (A * database)) s :
  (exists e s', run_query mode stmt s = (inl e, s') /\
                conn_db s' = conn_db s /\ txn_start s' = txn_start s /\
                (mode = SameConnection /\ aborted s = true \/
                 stmt (conn_db s) = inl e)) \/
  (exists a d' s',
     stmt (conn_db s) = inr (a, d') /\
     run_query mode stmt s = (inr a, s') /\
     conn_db s' = d' /\ txn_start s' = txn_start s /\ aborted s' = aborted s /\
     (mode = SameConnection -> aborted s = false)).
Proof.
  unfold run_query. destruct mode.
  - destruct (aborted s) eqn:Hab.
    { left. eexists _, _. repeat split; try reflexivity. by left. }
    destruct (stmt (conn_db s)) as [e|[a d']].
    { left. eexists _, _. repeat split; try reflexivity. by right. }
    right. eexists _, _, _. by repeat split.
  - destruct (stmt (conn_db s)) as [e|[a d']].
    { left. eexists _, _. repeat split; try reflexivity. by right. }
    right. eexists _, _, _. by repeat split.
Qed.

(** On a connection whose transaction is not aborted, and on separate
    connections, an accepted statement runs. *)
Lemma run_query_accepted {A : Type} mode
    (stmt : database -> Js.result (A * database)) s a d' :
  aborted s = false ->
  stmt (conn_db s) = inr (a, d') ->
  run_query mode stmt s = (inr a, with_db s d').
Proof. intros Hab Hstmt. unfold run_query. rewrite Hab, Hstmt. by destruct mode. Qed.

(** What the server reads from the parameters of an accepted [INSERT]
    of the loop. *)
Lemma sync_insert_read item cs q n :
  int4 (Js.sub (si_external_stock item) (Js.Num cs)) = inr q ->
  int4 (si_external_stock item) = inr n ->
  Js.ToNumber (si_external_stock item) = Js.Num n /\ q = n - cs.
Proof.
  intros Hq Hn. apply int4_ToNumber in Hn. split; [done|].
  unfold Js.sub in Hq. rewrite Hn in Hq. cbn [Js.ToNumber] in Hq.
  by apply int4_Num in Hq as [-> _].
Qed.

(** The four ways one turn of the loop ends: product not found, a
    statement rejected, nothing to do, or one movement written. *)
Lemma sync_item_cases mode sch r s item :
  exists r' s',
    sync_item mode sch (r, s) item = (r', s') /\
    txn_start s' = txn_start s /\
    ((conn_db s' = conn_db s /\ aborted s' = aborted s /\
      r' = push_error r (not_found (si_product_id item)) /\
      stock_of sch (si_product_id item) (conn_db s) = None) \/
     (conn_db s' = conn_db s /\
      exists e, r' = push_error r (item_error item e) \/
                r' = push_error (counted r) (item_error item e)) \/
     (conn_db s' = conn_db s /\ aborted s' = aborted s /\ r' = counted r /\
      exists t p, schemas (conn_db s) !! sch = Some t /\
                  products t !! si_product_id item = Some p /\
                  Js.ToNumber (si_external_stock item) = Js.Num (current_stock p)) \/
     (aborted s' = aborted s /\ r' = applied r /\
      exists t p q n,
        schemas (conn_db s) !! sch = Some t /\
        products t !! si_product_id item = Some p /\
        Js.ToNumber (si_external_stock item) = Js.Num n /\
        q = n - current_stock p /\ q <> 0 /\
        conn_db s' =
          set_schema sch
            (snd (sync_written item t p q n
                    (Js.ToString (Js.sub (si_external_stock item)
                                         (Js.Num (current_stock p))))))
            (conn_db s))).
Proof.
  unfold sync_item.
  destruct (run_query_cases mode (select_stmt sch (si_product_id item)) s)
    as [(e & s1 & -> & Hc1 & Ht1 & _)
       |(a & d1 & s1 & Hsel & -> & Hc1 & Ht1 & Ha1 & Hm1)].
  { eexists _, _. split; [reflexivity|]. split; [done|]. right; left. eauto. }
  unfold select_stmt, select_product in Hsel.
  destruct (schemas (conn_db s) !! sch) as [t|] eqn:Ht; [|discriminate].
  injection Hsel as <- <-.
  destruct (products t !! si_product_id item) as [p|] eqn:Hp; cycle 1.
  { eexists _, _. split; [reflexivity|]. split; [done|]. left.
    repeat split; try done. unfold stock_of. by rewrite Ht, Hp. }
  destruct (Js.ne0 _) eqn:Hne; cycle 1.
  { eexists _, _. split; [reflexivity|]. split; [done|]. right; right; left.
    repeat split; try done. exists t, p. repeat split; try done.
    unfold Js.sub in Hne. cbn [Js.ToNumber] in Hne.
    destruct (Js.ToNumber (si_external_stock item)) as [x| |?]; try discriminate.
    simpl in Hne. apply negb_false_iff, Z.eqb_eq in Hne. f_equal. lia. }
  destruct (run_query_cases mode
              (insert_movement sch
                 (sync_insert item (current_stock p)
                    (Js.sub (si_external_stock item) (Js.Num (current_stock p)))))
              s1)
    as [(e & s2 & -> & Hc2 & Ht2 & _)
       |(row & d2 & s2 & Hins & -> & Hc2 & Ht2 & Ha2 & Hm2)].
  { eexists _, _. split; [reflexivity|]. split; [congruence|]. right; left.
    split; [congruence|]. eauto. }
  unfold insert_movement in Hins. rewrite Hc1, Ht in Hins.
  destruct (movement_row _ _) as [e|row1] eqn:Hrow; [discriminate|].
  injection Hins as <- <-.
  apply movement_row_inr in Hrow as (q & n & Hq & Hn & _ & ->).
  cbn [sync_insert a_quantity a_new_stock a_previous_stock a_cost_per_unit
       a_reference_type a_reference_id a_product_id a_movement_type a_notes] in *.
  destruct (sync_insert_read _ _ _ _ Hq Hn) as [Hnum ->].
  assert (Hupd : update_stmt sch (si_product_id item) (si_external_stock item)
                   (conn_db s2) =
                 inr (tt, set_schema sch
                            (snd (sync_written item t p (n - current_stock p) n
                                    (Js.ToString
                                       (Js.sub (si_external_stock item)
                                               (Js.Num (current_stock p))))))
                            (conn_db s))).
  { unfold update_stmt, update_stock. rewrite Hc2, set_schema_lookup, Hn.
    cbn [products inventory_movements insights movements_seq].
    by rewrite set_schema_twice. }
  destruct (run_query_cases mode
              (update_stmt sch (si_product_id item) (si_external_stock item)) s2)
    as [(e & s3 & -> & Hc3 & Ht3 & [[Hmode Hab]|Hrej])
       |(u & d3 & s3 & Hupd' & -> & Hc3 & Ht3 & Ha3 & Hm3)].
  { rewrite Ha2, Ha1, Hm1 in Hab by done. discriminate. }
  { rewrite Hupd in Hrej. discriminate. }
  rewrite Hupd in Hupd'. injection Hupd' as <- <-.
  eexists _, _. split; [reflexivity|]. split; [congruence|]. right; right; right.
  split; [congruence|]. split; [done|].
  exists t, p, (n - current_stock p), n. repeat split; try done.
  intros Hz. unfold Js.sub in Hne. rewrite Hnum in Hne. cbn [Js.ToNumber] in Hne.
  simpl in Hne. apply negb_true_iff, Z.eqb_neq in Hne. lia.
Qed.

(** A turn for an existing product whose [external_stock] is a number
    other than its stock, all values within the columns: one movement
    is written and the stock is set. *)
Lemma sync_item_applies mode sch r s item t p n :
  aborted s = false ->
  schemas (conn_db s) !! sch = Some t ->
  products t !! si_product_id item = Some p ->
  si_external_stock item = Js.Num n ->
  n <> current_stock p ->
  fits_int4 n = true ->
  fits_int4 (n - current_stock p) = true ->
  fits_int4 (current_stock p) = true ->
  fits_decimal_10_2 (default 0 (si_cost_price item)) = true ->
  exists s',
    sync_item mode sch (r, s) item = (applied r, s') /\
    aborted s' = false /\ txn_start s' = txn_start s /\
    conn_db s' =
      set_schema sch
        (snd (sync_written item t p (n - current_stock p) n
                (Js.show (n - current_stock p))))
        (conn_db s).
Proof.
  intros Hab Ht Hp Hext Hne Hn Hq Hcs Hcost. unfold sync_item.
  rewrite (run_query_accepted mode _ s (products t !! si_product_id item) (conn_db s))
    by (try done; unfold select_stmt, select_product; by rewrite Ht).
  rewrite Hp, Hext. cbn [Js.sub Js.ToNumber Js.ne0].
  destruct (Z.eqb_spec (n - current_stock p) 0) as [|_]; [lia|]. cbn [negb].
  erewrite (run_query_accepted mode (insert_movement _ _)); cycle 1.
  { done. }
  { unfold insert_movement. cbn [with_db conn_db]. rewrite Ht.
    erewrite movement_row_complete; [reflexivity| | |].
    - cbn [sync_insert a_quantity]. by apply int4_fits.
    - cbn [sync_insert a_new_stock]. rewrite Hext. by apply int4_fits.
    - repeat split; try done. cbn [sync_insert a_reference_type].
      unfold reference_type_enum. set_solver. }
  erewrite (run_query_accepted mode (update_stmt _ _ _)); cycle 1.
  { done. }
  { unfold update_stmt, update_stock. cbn [with_db conn_db].
    rewrite set_schema_lookup, (int4_fits _ Hn).
    cbn [products inventory_movements insights movements_seq].
    rewrite set_schema_twice. reflexivity. }
  eexists. split; [reflexivity|]. cbn [with_db aborted txn_start conn_db].
  repeat split; try done.
Qed.

(** A turn for an existing product that has the [external_stock]
    already counts the entry and writes nothing. *)
Lemma sync_item_counts mode sch r s item t p :
  aborted s = false ->
  schemas (conn_db s) !! sch = Some t ->
  products t !! si_product_id item = Some p ->
  Js.ToNumber (si_external_stock item) = Js.Num (current_stock p) ->
  exists s',
    sync_item mode sch (r, s) item = (counted r, s') /\
    aborted s' = false /\ txn_start s' = txn_start s /\ conn_db s' = conn_db s.
Proof.
  intros Hab Ht Hp Hext. unfold sync_item.
  rewrite (run_query_accepted mode _ s (products t !! si_product_id item) (conn_db s))
    by (try done; unfold select_stmt, select_product; by rewrite Ht).
  rewrite Hp. unfold Js.sub. rewrite Hext. cbn [Js.ToNumber Js.ne0].
  rewrite Z.sub_diag. cbn [Z.eqb negb].
  eexists. split; [reflexivity|]. by repeat split.
Qed.

(** C4, as the code has it.  A [sincronizacion] movement whose quantity
    is a number, on an existing product, with values the columns can
    hold, succeeds and applies the signed quantity as given: the stock
    becomes [s + quantity], negative or not, nothing is clamped and
    nothing is reported.  The bulk path does the same for an entry that
    reports this stock: it sets the stock to the [external_stock] as
    given and its report has no error. *)
Theorem sync_applied_unclamped mode sch data d s q :
  Js.truthy sch = true ->
  md_movement_type data = "sincronizacion" ->
  md_quantity data = Js.Num q ->
  stock_of sch (md_product_id data) d = Some s ->
  fits_int4 q = true ->
  fits_int4 (s + q) = true ->
  acceptable s (md_cost_per_unit data) (md_reference_type data)
             (md_reference_id data) ->
  (exists row d',
     addMovement mode sch data d = (inr row, d') /\
     quantity row = q /\
     new_stock row = s + q /\
     stock_of sch (md_product_id data) d' = Some (s + q)) /\
  (forall notes,
   exists r d',
     syncInventory mode sch
       [ {| si_product_id := md_product_id data;
            si_external_stock := Js.Num (s + q);
            si_cost_price := md_cost_per_unit data; si_notes := notes |} ] d
       = (inr r, d') /\
     processed r = 1 /\ errors r = [] /\
     stock_of sch (md_product_id data) d' = Some (s + q)).
Proof.
  intros Hsch Hty Hnum Hs Hq Hn Hacc.
  pose proof Hs as Hs'.
  apply stock_of_inv in Hs as (t & p & Ht & Hp & Hcs). subst s. split.
  - assert (Hc : stockChange (md_movement_type data) (md_quantity data)
                             (current_stock p) = inr (Js.Num q)).
    { rewrite Hty, Hnum. reflexivity. }
    pose proof (addMovement_try_complete sch data d t p _ q (current_stock p + q)
                  Ht Hp Hc (int4_fits _ Hq) (int4_fits _ Hn) Hacc) as Htry.
    rewrite addMovement_run, Htry by done.
    eexists _, _. split; [reflexivity|]. unfold written; simpl.
    repeat split.
    rewrite stock_of_set_schema; simpl. by rewrite lookup_alter_eq, Hp.
  - intros notes. unfold syncInventory. rewrite Hsch. cbn [negb fold_left].
    destruct Hacc as (Hcs & Hcost & _ & _).
    destruct (decide (q = 0)) as [->|Hq0].
    + edestruct (sync_item_counts mode sch (mkSyncResults 0 0 [] 0) (query_BEGIN d))
        as (s' & -> & Hab & _ & Hdb); [done|exact Ht|exact Hp| |].
      { cbn [si_external_stock Js.ToNumber]. f_equal. lia. }
      eexists _, _. split; [reflexivity|]. split; [done|]. split; [done|].
      unfold query_COMMIT. rewrite Hab, Hdb. cbn [query_BEGIN conn_db].
      rewrite Z.add_0_r. by destruct mode.
    + edestruct (sync_item_applies mode sch (mkSyncResults 0 0 [] 0) (query_BEGIN d))
        as (s' & -> & Hab & _ & Hdb);
        [done|exact Ht|exact Hp|reflexivity| | | | | |].
      { lia. }
      { done. }
      { by replace (current_stock p + q - current_stock p) with q by lia. }
      { done. }
      { done. }
      eexists _, _. split; [reflexivity|]. split; [done|]. split; [done|].
      unfold query_COMMIT. rewrite Hab, Hdb. cbn [query_BEGIN conn_db].
      assert (stock_of sch (md_product_id data)
                (set_schema sch
                   (snd (sync_written
                           {| si_product_id := md_product_id data;
                              si_external_stock := Js.Num (current_stock p + q);
                              si_cost_price := md_cost_per_unit data;
                              si_notes := notes |} t p
                           (current_stock p + q - current_stock p)
                           (current_stock p + q)
                           (Js.show (current_stock p + q - current_stock p)))) d)
              = Some (current_stock p + q)) as Hstock.
      { rewrite stock_of_set_schema. unfold sync_written; simpl.
        by rewrite lookup_alter_eq, Hp. }
      by destruct mode.
Qed.

Lemma sync_applied_unclamped_witness :
  (exists row d',
     addMovement SameConnection "tenant_acme"
                 (Sample.move "sincronizacion" (-15) None) (Sample.with_stock 10)
       = (inr row, d') /\
     quantity row = -15 /\
     new_stock row = 10 + -15 /\
     stock_of "tenant_acme" 1 d' = Some (10 + -15)) /\
  (exists r d',
     syncInventory SameConnection "tenant_acme"
       [ {| si_product_id := 1; si_external_stock := Js.Num (10 + -15);
            si_cost_price := None; si_notes := None |} ] (Sample.with_stock 10)
       = (inr r, d') /\
     processed r = 1 /\ errors r = [] /\
     stock_of "tenant_acme" 1 d' = Some (10 + -15)).
Proof.
  destruct (sync_applied_unclamped SameConnection "tenant_acme"
              (Sample.move "sincronizacion" (-15) None) (Sample.with_stock 10) 10 (-15))
    as [Hone Hbulk]; try reflexivity.
  { repeat split; try reflexivity. vm_compute. set_solver. }
  split; [exact Hone|exact (Hbulk None)].
Defined.

(** C4 as stated fails: after a [sincronizacion] of -15 on a stock of
    10 the product stock is -5, not clamped to 0. *)
Lemma sync_not_clamped :
  ~ (forall mode sch data d row d' s,
       md_movement_type data = "sincronizacion" ->
       addMovement mode sch data d = (inr row, d') ->
       stock_of sch (md_product_id data) d' = Some s ->
       0 <= s).
Proof.
  intros H.
  specialize (H SameConnection "tenant_acme"
                (Sample.move "sincronizacion" (-15) None) (Sample.with_stock 10)
                _ _ (-5) eq_refl eq_refl eq_refl).
  lia.
Qed.

(** *** FIFO valuation *)

Lemma is_layer_quantity pid m : is_layer pid m = true -> 0 < quantity m.
Proof.
  unfold is_layer. rewrite !andb_true_iff. intros [_ H]. lia.
Qed.

Lemma single_layer_positive pid ledger m :
  List.filter (is_layer pid) ledger = [m] -> 0 < quantity m.
Proof.
  intros H. apply (is_layer_quantity pid).
  assert (Hin : In m (List.filter (is_layer pid) ledger)) by (rewrite H; by left).
  apply List.filter_In in Hin. tauto.
Qed.

Lemma fifo_single_layer pid p ledger m c :
  List.filter (is_layer pid) ledger = [m] ->
  cost_per_unit m = Some c ->
  0 <= current_stock p <= quantity m ->
  fifo_valuation_cte pid p ledger = Some (current_stock p * c).
Proof.
  intros Hl Hc [H0 Hq].
  pose proof (single_layer_positive _ _ _ Hl) as Hpos.
  unfold fifo_valuation_cte, layers, total_received. rewrite Hl. simpl.
  rewrite Z.abs_eq by lia. rewrite Z.add_0_l, Z.add_0_r.
  destruct (Z.gtb_spec (current_stock p) 0) as [Hcs|Hcs]; cycle 1.
  { assert (current_stock p = 0) as -> by lia. done. }
  destruct (Z.gtb_spec (quantity m) (quantity m - current_stock p)) as [_|]; [|lia].
  simpl. rewrite Hc; simpl. rewrite Z.abs_eq by lia.
  destruct (Z.leb_spec (quantity m) (current_stock p)).
  - f_equal. assert (quantity m = current_stock p) as -> by lia. ring.
  - destruct (Z.ltb_spec (quantity m - quantity m) (current_stock p)); [|lia].
    f_equal. ring.
Qed.

Lemma fifo_no_layer pid p ledger :
  List.filter (is_layer pid) ledger = [] ->
  0 <= current_stock p ->
  fifo_valuation_cte pid p ledger = Some (current_stock p * cost_price p).
Proof.
  intros Hl H0. unfold fifo_valuation_cte, layers. rewrite Hl. simpl.
  destruct (Z.gtb_spec (current_stock p) 0); [done|].
  assert (current_stock p = 0) as -> by lia. done.
Qed.

(** Where [getFIFOValuation] agrees with the claim: a single inbound
    layer, of unit cost [c], that covers the stock gives
    [current_stock * c], and no inbound layer at all gives
    [current_stock * cost_price]. *)
Lemma fifo_single_layer_or_no_history sch pid d t p :
  Js.truthy sch = true ->
  pid <> 0 ->
  schemas d !! sch = Some t ->
  products t !! pid = Some p ->
  active p = true ->
  0 <= current_stock p ->
  exists row,
    getFIFOValuation sch (Some pid) d = inr (OneProduct (Some row)) /\
    (forall m c,
       List.filter (is_layer pid) (inventory_movements t) = [m] ->
       cost_per_unit m = Some c ->
       current_stock p <= quantity m ->
       fifo_valuation row = current_stock p * c) /\
    (List.filter (is_layer pid) (inventory_movements t) = [] ->
     fifo_valuation row = current_stock p * cost_price p).
Proof.
  intros Hsch Hpid Ht Hp Hact H0.
  unfold getFIFOValuation. rewrite Hsch; simpl. rewrite Ht.
  destruct (Z.eqb_spec pid 0) as [|_]; [done|]. simpl.
  rewrite Hp, Hact. eexists. split; [reflexivity|]. split.
  - intros m c Hl Hc Hq. simpl.
    by rewrite (fifo_single_layer pid p _ m c).
  - intros Hl. simpl. by rewrite fifo_no_layer.
Qed.

(** The movements of the failing input of C5: 10 units received at
    1.00, 20 units received at 2.00, 25 units sold, on a product that
    starts without stock. *)
Lemma two_layers_sold :
  let d := run_calls SameConnection
             [("tenant_acme", Sample.move "entrada" 10 (Some 100));
              ("tenant_acme", Sample.move "entrada" 20 (Some 200));
              ("tenant_acme", Sample.move "salida" 25 None)]
             (Sample.with_stock 0) in
  stock_of "tenant_acme" 1 d = Some 5 /\
  map (fun m => (movement_type m, quantity m, cost_per_unit m))
      (ledger_of "tenant_acme" 1 d)
  = [("entrada", 10, Some 100); ("entrada", 20, Some 200); ("salida", -25, None)].
Proof. vm_compute. by split. Qed.

(** C5 at 10 units received at 1.00, then 20 units received at 2.00,
    then 25 units sold: the 5 units in stock all come from the one
    layer received at 2.00, so the claim values them 10.00;
    [getFIFOValuation] values them 0.00, and the cost-price valuation
    of that row is 10.00.  The [WHERE] of the subquery keeps only the
    layer received at 1.00 (running total 30 > 30 - 5) and neither arm
    of the [CASE] applies to it.  With part of the history missing
    (30 units at 1.00 recorded, stock 100 at cost price 2.00) the
    valuation is 30.00, not the fall-back 200.00. *)
Theorem fifo_values_remaining_layer_at_zero :
  let sold := run_calls SameConnection
                [("tenant_acme", Sample.move "entrada" 10 (Some 100));
                 ("tenant_acme", Sample.move "entrada" 20 (Some 200));
                 ("tenant_acme", Sample.move "salida" 25 None)]
                (Sample.with_stock 0) in
  let partial := run_calls SameConnection
                   [("tenant_acme", Sample.move "entrada" 30 (Some 100))]
                   (Sample.with_stock 70) in
  (exists row,
     getFIFOValuation "tenant_acme" (Some 1) sold = inr (OneProduct (Some row)) /\
     v_current_stock row = 5 /\
     fifo_valuation row = 0 /\
     current_cost_valuation row = 5 * 200) /\
  (exists row,
     getFIFOValuation "tenant_acme" (Some 1) partial = inr (OneProduct (Some row)) /\
     v_current_stock row = 100 /\
     fifo_valuation row = 30 * 100 /\
     current_cost_valuation row = 100 * 200).
Proof.
  split; (eexists; split; [vm_compute; reflexivity|]); vm_compute; by repeat split.
Qed.

(** *** Bulk synchronisation *)

Lemma sync_fold_ind mode sch (P : syncResults -> session -> Prop) :
  (forall r s item, P r s ->
     P (fst (sync_item mode sch (r, s) item))
       (snd (sync_item mode sch (r, s) item))) ->
  forall items r s, P r s ->
    P (fst (fold_left (sync_item mode sch) items (r, s)))
      (snd (fold_left (sync_item mode sch) items (r, s))).
Proof.
  intros Hstep. induction items as [|item items IH]; intros r s H;
    cbn [fold_left]; [done|].
  specialize (Hstep r s item H).
  destruct (sync_item mode sch (r, s) item) as [r1 s1]. by apply IH.
Qed.

Lemma item_error_not_found item e pid : item_error item e <> not_found pid.
Proof. unfold item_error, not_found. simpl. discriminate. Qed.

Lemma clean_push r e : clean (push_error r e) -> clean r /\ exists pid, e = not_found pid.
Proof.
  unfold clean, push_error; simpl. rewrite Forall_app.
  intros [H1 H2]. split; [done|]. by inversion H2.
Qed.

(** A turn that leaves a clean report has rejected no statement: the
    product was not found, or had the stock already, or one movement
    was written. *)
Lemma sync_item_clean mode sch r s item :
  clean (fst (sync_item mode sch (r, s) item)) ->
  clean r /\
  exists r' s',
    sync_item mode sch (r, s) item = (r', s') /\
    txn_start s' = txn_start s /\ aborted s' = aborted s /\
    ((conn_db s' = conn_db s /\
      r' = push_error r (not_found (si_product_id item)) /\
      stock_of sch (si_product_id item) (conn_db s) = None) \/
     (conn_db s' = conn_db s /\ r' = counted r /\
      exists t p, schemas (conn_db s) !! sch = Some t /\
                  products t !! si_product_id item = Some p /\
                  Js.ToNumber (si_external_stock item) = Js.Num (current_stock p)) \/
     (r' = applied r /\
      exists t p q n,
        schemas (conn_db s) !! sch = Some t /\
        products t !! si_product_id item = Some p /\
        Js.ToNumber (si_external_stock item) = Js.Num n /\
        q = n - current_stock p /\ q <> 0 /\
        conn_db s' =
          set_schema sch
            (snd (sync_written item t p q n
                    (Js.ToString (Js.sub (si_external_stock item)
                                         (Js.Num (current_stock p))))))
            (conn_db s))).
Proof.
  destruct (sync_item_cases mode sch r s item)
    as (r' & s' & Hrun & Hstart & Hcase).
  rewrite Hrun. cbn [fst]. intros Hclean.
  destruct Hcase as [(Hdb & Hab & -> & Hnone)|[(Hdb & e & [->| ->])
                    |[(Hdb & Hab & -> & Hex)|(Hab & -> & Hex)]]].
  - apply clean_push in Hclean as [Hclean _]. split; [done|].
    eexists _, _. split; [reflexivity|]. split; [done|]. split; [done|]. by left.
  - apply clean_push in Hclean as [_ [pid Hpid]].
    by apply item_error_not_found in Hpid.
  - apply clean_push in Hclean as [_ [pid Hpid]].
    by apply item_error_not_found in Hpid.
  - split; [done|].
    eexists _, _. split; [reflexivity|]. split; [done|]. split; [done|].
    right; left. done.
  - split; [done|].
    eexists _, _. split; [reflexivity|]. split; [done|]. split; [done|].
    right; right. done.
Qed.

(** The stocks after a turn that leaves a clean report: the product of
    the entry, if it exists, has the entry's stock, and the others
    have theirs. *)
Lemma sync_item_clean_stock mode sch r s item pid :
  clean (fst (sync_item mode sch (r, s) item)) ->
  match stock_of sch pid (conn_db s) with
  | None => stock_of sch pid (conn_db (snd (sync_item mode sch (r, s) item))) = None
  | Some st =>
      if decide (pid = si_product_id item) then
        exists n, Js.ToNumber (si_external_stock item) = Js.Num n /\
                  stock_of sch pid (conn_db (snd (sync_item mode sch (r, s) item)))
                  = Some n
      else stock_of sch pid (conn_db (snd (sync_item mode sch (r, s) item))) = Some st
  end.
Proof.
  intros Hclean.
  destruct (sync_item_clean mode sch r s item Hclean)
    as (_ & r' & s' & -> & _ & _ & Hcase). cbn [snd].
  destruct Hcase as [(-> & _ & Hnone)|[(-> & _ & t & p & Ht & Hp & Hext)
                    |(_ & t & p & q & n & Ht & Hp & Hext & _ & _ & ->)]].
  - destruct (stock_of sch pid (conn_db s)) as [st|] eqn:Hst; [|done].
    case_decide as Hpid; [|done]. subst. congruence.
  - destruct (stock_of sch pid (conn_db s)) as [st|] eqn:Hst; [|done].
    case_decide as Hpid; [|done]. subst. exists st. split; [|done].
    unfold stock_of in Hst. rewrite Ht, Hp in Hst. simpl in Hst. congruence.
  - rewrite stock_of_set_schema. unfold sync_written. cbn [snd products].
    unfold stock_of. rewrite Ht.
    destruct (decide (pid = si_product_id item)) as [->|Hpid].
    + rewrite lookup_alter_eq, Hp. simpl. by exists n.
    + rewrite lookup_alter_ne by done.
      by destruct (products t !! pid).
Qed.

Lemma sync_item_settles mode sch r s item :
  clean (fst (sync_item mode sch (r, s) item)) ->
  settled sch (conn_db (snd (sync_item mode sch (r, s) item))) item.
Proof.
  intros Hclean st Hst.
  pose proof (sync_item_clean_stock mode sch r s item (si_product_id item) Hclean) as H.
  destruct (stock_of sch (si_product_id item) (conn_db s)); [|congruence].
  rewrite decide_True in H by done. destruct H as (n & Hn & Hs). congruence.
Qed.

Lemma sync_item_keeps_settled mode sch r s item other :
  clean (fst (sync_item mode sch (r, s) item)) ->
  (si_product_id other = si_product_id item ->
   si_external_stock other = si_external_stock item) ->
  settled sch (conn_db s) other ->
  settled sch (conn_db (snd (sync_item mode sch (r, s) item))) other.
Proof.
  intros Hclean Hag Hset st Hst.
  pose proof (sync_item_clean_stock mode sch r s item (si_product_id other) Hclean) as H.
  destruct (stock_of sch (si_product_id other) (conn_db s)) as [st0|] eqn:H0;
    [|congruence].
  case_decide as Hpid.
  - destruct H as (n & Hn & Hs). rewrite Hag by done. congruence.
  - apply Hset. congruence.
Qed.

(** On a settled entry the loop writes nothing and counts no
    movement. *)
Lemma sync_item_settled_noop mode sch r s item :
  settled sch (conn_db s) item ->
  exists r' s',
    sync_item mode sch (r, s) item = (r', s') /\
    conn_db s' = conn_db s /\ txn_start s' = txn_start s /\
    movements_created r' = movements_created r /\
    updated r' = updated r.
Proof.
  intros Hset.
  destruct (sync_item_cases mode sch r s item)
    as (r' & s' & Hrun & Hstart & Hcase).
  exists r', s'. split; [done|].
  destruct Hcase as [(Hdb & Hab & -> & Hnone)|[(Hdb & e & [->| ->])
                    |[(Hdb & Hab & -> & Hex)
                     |(Hab & -> & t & p & q & n & Ht & Hp & Hext & -> & Hq & _)]]];
    try done.
  exfalso. apply Hq.
  assert (Js.ToNumber (si_external_stock item) = Js.Num (current_stock p)) as Hcs.
  { apply Hset. unfold stock_of. by rewrite Ht, Hp. }
  rewrite Hext in Hcs. injection Hcs as ->. lia.
Qed.

Lemma sync_fold_errors mode sch items : forall r s,
  errors r `prefix_of` errors (fst (fold_left (sync_item mode sch) items (r, s))).
Proof.
  induction items as [|item items IH]; intros r s; cbn [fold_left]; [done|].
  destruct (sync_item_cases mode sch r s item) as (r' & s' & -> & _ & Hcase).
  etrans; [|apply IH].
  destruct Hcase as [(_ & _ & -> & _)|[(_ & e & [->| ->])
                    |[(_ & _ & -> & _)|(_ & -> & _)]]]; simpl;
    try done; by apply prefix_app_r.
Qed.

Lemma clean_prefix r r' : errors r `prefix_of` errors r' -> clean r' -> clean r.
Proof.
  unfold clean. intros [k ->]. rewrite Forall_app. tauto.
Qed.

(** A run with a clean report leaves every entry settled, when the
    entries of one product carry one [external_stock]; its transaction
    is not aborted. *)
Lemma sync_fold_settles mode sch : forall items seen r s,
  clean (fst (fold_left (sync_item mode sch) items (r, s))) ->
  agree (seen ++ items) ->
  Forall (settled sch (conn_db s)) seen ->
  Forall (settled sch (conn_db (snd (fold_left (sync_item mode sch) items (r, s)))))
         (seen ++ items) /\
  aborted (snd (fold_left (sync_item mode sch) items (r, s))) = aborted s.
Proof.
  induction items as [|item items IH]; intros seen r s Hclean Hag Hseen;
    cbn [fold_left] in *.
  { by rewrite app_nil_r. }
  destruct (sync_item mode sch (r, s) item) as [r1 s1] eqn:Hstep.
  assert (Hclean1 : clean (fst (sync_item mode sch (r, s) item))).
  { rewrite Hstep. eapply clean_prefix; [apply sync_fold_errors|exact Hclean]. }
  replace (seen ++ item :: items) with ((seen ++ [item]) ++ items) in *
    by (by rewrite <- app_assoc).
  destruct (IH (seen ++ [item]) r1 s1 Hclean Hag) as [Hall Hab].
  - assert (s1 = snd (sync_item mode sch (r, s) item)) as -> by (by rewrite Hstep).
    apply Forall_app. split.
    + rewrite Forall_forall in Hseen |- *. intros a Ha.
      apply sync_item_keeps_settled; [done| |by apply Hseen].
      apply Hag; apply in_or_app; left; apply in_or_app.
      * left. by apply list_elem_of_In.
      * right. by left.
    + constructor; [|constructor]. by apply sync_item_settles.
  - split; [done|]. rewrite Hab.
    destruct (sync_item_clean mode sch r s item Hclean1)
      as (_ & r' & s' & Hrun & _ & Hab' & _).
    rewrite Hstep in Hrun. by injection Hrun as _ <-.
Qed.

Lemma sync_fold_settled_noop mode sch : forall items r s,
  Forall (settled sch (conn_db s)) items ->
  exists r' s',
    fold_left (sync_item mode sch) items (r, s) = (r', s') /\
    conn_db s' = conn_db s /\ txn_start s' = txn_start s /\
    movements_created r' = movements_created r /\
    updated r' = updated r.
Proof.
  induction items as [|item items IH]; intros r s Hall; cbn [fold_left].
  { by exists r, s. }
  inversion Hall as [|? ? Hitem Hrest]; subst.
  destruct (sync_item_settled_noop mode sch r s item Hitem)
    as (r1 & s1 & -> & Hdb & Hstart & Hm & Hu).
  rewrite <- Hdb in Hrest.
  destruct (IH r1 s1 Hrest) as (r2 & s2 & -> & Hdb2 & Hstart2 & Hm2 & Hu2).
  exists r2, s2. split; [done|]. repeat split; congruence.
Qed.

(** C6, as the code has it.  When the entries of one product carry one
    [external_stock] and the first [syncInventory] has rejected no
    statement (the only errors of its report are products not found),
    a second [syncInventory] of the same entries on the database left
    by the first creates no movement, updates no stock and leaves the
    database as it is. *)
Theorem sync_twice_no_new_movements mode sch items d r1 d1 :
  agree items ->
  syncInventory mode sch items d = (inr r1, d1) ->
  clean r1 ->
  exists r2,
    syncInventory mode sch items d1 = (inr r2, d1) /\
    movements_created r2 = 0 /\ updated r2 = 0.
Proof.
  intros Hag. unfold syncInventory.
  destruct (negb (Js.truthy sch)); [discriminate|].
  destruct (fold_left (sync_item mode sch) items
              (mkSyncResults 0 0 [] 0, query_BEGIN d)) as [r s] eqn:Hfold.
  intros [= <- <-] Hclean.
  destruct (sync_fold_settles mode sch items [] (mkSyncResults 0 0 [] 0)
              (query_BEGIN d)) as [Hset Hab].
  { by rewrite Hfold. }
  { done. }
  { constructor. }
  rewrite Hfold in Hset, Hab. cbn [snd app query_BEGIN aborted] in Hset, Hab.
  assert (Hd1 : query_COMMIT mode s = conn_db s).
  { unfold query_COMMIT. rewrite Hab. by destruct mode. }
  rewrite Hd1.
  destruct (sync_fold_settled_noop mode sch items (mkSyncResults 0 0 [] 0)
              (query_BEGIN (conn_db s)) Hset)
    as (r2 & s2 & -> & Hdb & Hstart & Hm & Hu).
  exists r2. split; [|done]. f_equal.
  unfold query_COMMIT. cbn [query_BEGIN conn_db txn_start] in Hdb, Hstart.
  rewrite Hdb, Hstart, rolled_back_same. destruct mode; [|done].
  by destruct (aborted s2).
Qed.

Lemma sync_twice_no_new_movements_witness :
  let items := [sync_entry 1 5; sync_entry 2 9; sync_entry 1 5] in
  exists r1 d1 r2,
    syncInventory SeparateConnections "tenant_acme" items (Sample.with_stock 100)
      = (inr r1, d1) /\
    movements_created r1 = 1 /\
    syncInventory SeparateConnections "tenant_acme" items d1 = (inr r2, d1) /\
    movements_created r2 = 0 /\ updated r2 = 0.
Proof.
  intros items.
  destruct (syncInventory SeparateConnections "tenant_acme" items
              (Sample.with_stock 100)) as [[e|r1] d1] eqn:Hrun;
    [discriminate Hrun|].
  assert (Hag : agree items).
  { intros a b Ha Hb; simpl in Ha, Hb.
    destruct Ha as [<-|[<-|[<-|[]]]]; destruct Hb as [<-|[<-|[<-|[]]]];
      simpl; intros; congruence. }
  assert (Hclean : clean r1).
  { injection Hrun as <- _. repeat constructor. by exists 2. }
  destruct (sync_twice_no_new_movements SeparateConnections "tenant_acme"
              items (Sample.with_stock 100) r1 d1 Hag Hrun Hclean)
    as (r2 & H2 & Hm & Hu).
  exists r1, d1, r2. split; [reflexivity|]. split; [|done].
  injection Hrun as <- _. reflexivity.
Defined.

(** C6 as stated fails for a list with two different values for one
    product: the second run of [(1, 5); (1, 7)] creates two
    movements. *)
Lemma sync_twice_duplicate_entries :
  ~ (forall mode sch items d r1 d1 r2 d2,
       syncInventory mode sch items d = (inr r1, d1) ->
       syncInventory mode sch items d1 = (inr r2, d2) ->
       movements_created r2 = 0).
Proof.
  intros H.
  specialize (H SeparateConnections "tenant_acme"
                [sync_entry 1 5; sync_entry 1 7] (Sample.with_stock 100)
                _ _ _ _ eq_refl eq_refl).
  vm_compute in H. discriminate.
Qed.

End LedgerFacts.

(* ===================================================================== *)
(** ** Properties of insight generation *)
(* ===================================================================== *)

Section InsightFacts.
Import Database Insights Advisories.

(** A rule that returns has appended at most one advisory, carrying
    the key of the rule, and has left products and movements alone. *)
Lemma rule_adds sch cond limit mk e g d r d' t :
  rule sch cond limit mk e (g, d) = (inr r, d') ->
  schemas d !! sch = Some t ->
  exists added,
    schemas d' !! sch =
      Some (mkSchema (products t) (inventory_movements t) (insights t ++ added)
                      (movements_seq t)) /\
    ((select_limit cond limit t = [] /\ added = []) \/
     (select_limit cond limit t <> [] /\
      exists row, added = [row] /\
        rule_key row =
          data_key (mk (Z.of_nat (length (select_limit cond limit t))) e))).
Proof.
  intros Hrule Ht. unfold rule in Hrule. rewrite Ht in Hrule.
  destruct (select_limit cond limit t) as [|x rows] eqn:Hsel.
  - simpl in Hrule. injection Hrule as <- <-. exists [].
    rewrite app_nil_r, Ht. split; [by destruct t|]. by left.
  - replace (0 <? Z.of_nat (length (x :: rows))) with true in Hrule
      by (symmetry; apply Z.ltb_lt; simpl; lia).
    unfold create in Hrule.
    destruct (negb (Js.truthy sch)); [discriminate|].
    rewrite Ht in Hrule.
    destruct (existsb _ (insights t)); [discriminate|].
    injection Hrule as <- <-. eexists [_].
    rewrite set_schema_lookup. split; [reflexivity|]. right.
    split; [discriminate|]. eexists. split; reflexivity.
Qed.

Lemma stockouts_lookup sch d t :
  schemas d !! sch = Some t -> stockouts sch d = List.filter is_stockout (insights t).
Proof. intros H. unfold stockouts, insights_of. by rewrite H. Qed.

(** One successful run with an out-of-stock product adds exactly one
    critical-stockout advisory, whatever advisories exist already. *)
Lemma generate_adds_stockout sch env d g d' :
  has_out_of_stock sch d ->
  generateInventoryInsights sch env d = (inr g, d') ->
  length (stockouts sch d') = S (length (stockouts sch d)) /\
  has_out_of_stock sch d'.
Proof.
  intros (t & Ht & Hout) Hgen. unfold generateInventoryInsights in Hgen.
  destruct (negb (Js.truthy sch)); [discriminate|].
  destruct (rule sch out_of_stock 10 stockout_alert (env 0%nat) ([], d))
    as [[e1|g1] d1] eqn:H1; [discriminate|].
  destruct (rule sch low_stock 15 low_stock_alert (env 1%nat) (g1, d1))
    as [[e2|g2] d2] eqn:H2; [discriminate|].
  destruct (rule sch over_stock 10 overstock_opportunity (env 2%nat) (g2, d2))
    as [[e3|g3] d3] eqn:H3; [discriminate|].
  injection Hgen as <- <-.
  destruct (rule_adds _ _ _ _ _ _ _ _ _ t H1 Ht)
    as (a1 & Ht1 & [[Hnone _]|(_ & row1 & -> & Hk1)]); [done|].
  destruct (rule_adds _ _ _ _ _ _ _ _ _ _ H2 Ht1) as (a2 & Ht2 & Ha2).
  destruct (rule_adds _ _ _ _ _ _ _ _ _ _ H3 Ht2) as (a3 & Ht3 & Ha3).
  split; [|by eexists; split; [exact Ht3|]].
  rewrite (stockouts_lookup _ _ _ Ht), (stockouts_lookup _ _ _ Ht3).
  cbn [insights].
  assert (Hz2 : List.filter is_stockout a2 = []).
  { destruct Ha2 as [[_ ->]|(_ & row & -> & Hk)]; [done|].
    cbn [List.filter]. unfold is_stockout. rewrite Hk. done. }
  assert (Hz3 : List.filter is_stockout a3 = []).
  { destruct Ha3 as [[_ ->]|(_ & row & -> & Hk)]; [done|].
    cbn [List.filter]. unfold is_stockout. rewrite Hk. done. }
  rewrite !List.filter_app, Hz2, Hz3, !app_nil_r.
  cbn [List.filter]. unfold is_stockout at 2. rewrite Hk1.
  rewrite length_app. simpl. lia.
Qed.

(** C7, as the code has it.  [generateInventoryInsights] looks up no
    earlier advisory: while some active product is out of stock, two
    successful runs leave two more critical-stockout advisories than
    there were, however close in time the runs are. *)
Theorem insights_not_deduplicated sch env1 env2 d g1 d1 g2 d2 :
  has_out_of_stock sch d ->
  generateInventoryInsights sch env1 d = (inr g1, d1) ->
  generateInventoryInsights sch env2 d1 = (inr g2, d2) ->
  length (stockouts sch d2) = (length (stockouts sch d) + 2)%nat.
Proof.
  intros Hout Hrun1 Hrun2.
  destruct (generate_adds_stockout _ _ _ _ _ Hout Hrun1) as [Hlen1 Hout1].
  destruct (generate_adds_stockout _ _ _ _ _ Hout1 Hrun2) as [Hlen2 _].
  lia.
Qed.

Lemma insights_not_deduplicated_witness :
  let d0 := Sample.with_stock 0 in
  let d1 := snd (generateInventoryInsights "tenant_acme"
                   (env_at 1000 "k3x9q0a1z") d0) in
  let d2 := snd (generateInventoryInsights "tenant_acme"
                   (env_at 2000 "p7m2c5v8b") d1) in
  has_out_of_stock "tenant_acme" d0 /\
  length (stockouts "tenant_acme" d2) =
    (length (stockouts "tenant_acme" d0) + 2)%nat.
Proof.
  intros d0 d1 d2.
  assert (Hout : has_out_of_stock "tenant_acme" d0).
  { eexists. split; [reflexivity|]. discriminate. }
  split; [exact Hout|].
  eapply (insights_not_deduplicated "tenant_acme" (env_at 1000 "k3x9q0a1z")
            (env_at 2000 "p7m2c5v8b") d0 _ d1 _ d2 Hout); reflexivity.
Defined.

(** C7 as stated fails: two runs one second apart, with one product
    out of stock, leave two active critical-stockout advisories. *)
Lemma insights_duplicated_within_window :
  ~ (forall sch env1 env2 d g1 d1 g2 d2 now,
       insights_of sch d = [] ->
       generateInventoryInsights sch env1 d = (inr g1, d1) ->
       generateInventoryInsights sch env2 d1 = (inr g2, d2) ->
       now_id (env1 0%nat) <= now_id (env2 0%nat) <= now ->
       now < now_id (env1 0%nat) + days 1 ->
       (length (active_stockouts now sch d2) <= 1)%nat).
Proof.
  intros H.
  specialize (H "tenant_acme" (env_at 1000 "k3x9q0a1z") (env_at 2000 "p7m2c5v8b")
                (Sample.with_stock 0) _ _ _ _ 3000 eq_refl eq_refl eq_refl).
  vm_compute in H.
  assert (Hle : (2 <= 1)%nat); [|lia].
  apply H; [split; discriminate | reflexivity].
Qed.

End InsightFacts.

(* ===================================================================== *)
(** ** Properties of tenant resolution and tenant deletion *)
(* ===================================================================== *)

Section TenantFacts.
Import Database TenantService TenantMiddleware Http.

(** Whenever the chain resolves a code, it is the first non-empty
    signal in precedence order. *)
Lemma resolve_sound req code :
  resolveTenantCode req = Some code -> spec_resolve req = Some code.
Proof.
  unfold resolveTenantCode, spec_resolve, header_signal, subdomain_signal,
    path_signal, query_signal; simpl.
  destruct (Js.truthy (header_x_tenant req)); [done|].
  destruct (Js.truthy (hostname req) && negb (hostname req =? "localhost")%string
            && negb (Js.startsWith (hostname req) "127.0.0.1")).
  - destruct (2 <=? _); [|done].
    destruct (Js.truthy _ && _ && _); done.
  - destruct (Js.truthy (params_tenantCode req)); [done|].
    destruct (Js.truthy (path req) && Js.startsWith (path req) "/api/tenant/")
      eqn:Hpath.
    + destruct (path_match (path req)); done.
    + assert (path_match (path req) = None) as ->.
      { unfold path_match. destruct (Js.startsWith (path req) "/api/tenant/") eqn:Hs;
          [|done].
        rewrite andb_true_r in Hpath. unfold Js.truthy in Hpath.
        destruct (path req); [discriminate Hs | discriminate Hpath]. }
      destruct (Js.truthy (query_tenant req)); done.
Qed.

(** A request without any signal on a route that is not public is
    answered [400 TENANT_REQUIRED], with the four methods. *)
Lemma no_signal_tenant_required req d :
  spec_resolve req = None ->
  isPublicRoute req = false ->
  tenantMiddleware req d = Respond tenant_required /\
  status_code tenant_required = 400 /\
  error tenant_required = "TENANT_REQUIRED" /\
  map fst (methods tenant_required) =
    ["header"; "subdomain"; "url_param"; "query_param"].
Proof.
  intros Hnone Hpub. split; [|done].
  unfold tenantMiddleware.
  destruct (resolveTenantCode req) as [code|] eqn:Hres.
  - apply resolve_sound in Hres. congruence.
  - by rewrite Hpub.
Qed.

(** C8 at a request without header to [api.fluxionai.com] that carries
    [?tenant=acme]: the query parameter is the first non-empty signal,
    but the chain stops at the host name and the request is answered
    [400 TENANT_REQUIRED]; the same request to [localhost] resolves to
    [acme]. *)
Theorem resolve_skips_query_on_named_host :
  spec_resolve Requests.query_only = Some "acme" /\
  resolveTenantCode Requests.query_only = None /\
  (forall d, tenantMiddleware Requests.query_only d = Respond tenant_required) /\
  resolveTenantCode Requests.query_only_local = Some "acme".
Proof. repeat split. Qed.

(** *** Tenant deletion *)

Lemma getTenant_same_tenants code d d' :
  tenants d' = tenants d -> getTenant code d' = getTenant code d.
Proof. unfold getTenant. by intros ->. Qed.

Lemma getTenant_deleted code d :
  getTenant code (delete_tenant_row code d) = None.
Proof.
  unfold getTenant, delete_tenant_row; simpl.
  induction (tenants d) as [|t l IH]; simpl; [done|].
  destruct (String.eqb_spec (tenant_code t) code) as [E|E]; simpl; [done|].
  destruct (String.eqb_spec (tenant_code t) code); [done|]. simpl. exact IH.
Qed.

(** What [deleteTenant] does keep of the claim: without the
    confirmation flag it throws and the route without the confirmation
    token answers [400 CONFIRMATION_REQUIRED], both leaving the database
    untouched; when the [DROP SCHEMA] statement fails the call throws
    and the registry and the schemas are as before; a call that returns
    has removed both the record and the schema; and in no outcome is
    the registry record gone while the schema is still there. *)
Lemma delete_confirmed_and_record_kept_on_failed_drop mode code f d :
  deleteTenant mode code false f d = (inl confirm_required, d) /\
  (forall confirm, confirm <> "DELETE_EVERYTHING" ->
     exists r, TenantRoutes.delete_tenant mode code confirm f d = (r, d) /\
               status_code r = 400 /\ error r = "CONFIRMATION_REQUIRED") /\
  (forall e, drop_schema_error f = Some e ->
     exists msg, deleteTenant mode code true f d = (inl msg, d)) /\
  (forall ti b d',
     getTenant code d = Some ti ->
     deleteTenant mode code true f d = (inr b, d') ->
     getTenant code d' = None /\ schemaExists (schema_name ti) d' = false) /\
  (forall ti confirm r d',
     getTenant code d = Some ti ->
     deleteTenant mode code confirm f d = (r, d') ->
     getTenant code d' = None ->
     schemaExists (schema_name ti) d' = false).
Proof.
  assert (Hgone : forall name,
            schemaExists name (delete_tenant_row code (drop_schema name d)) = false).
  { intros name. unfold schemaExists, delete_tenant_row, drop_schema; simpl.
    by rewrite lookup_delete_eq. }
  split; [done|]. split; [|split; [|split]].
  - intros confirm Hc. unfold TenantRoutes.delete_tenant.
    destruct (String.eqb_spec confirm "DELETE_EVERYTHING"); [done|].
    simpl. eexists. split; [reflexivity|]. done.
  - intros e He. unfold deleteTenant, deleteTenant_try; simpl.
    destruct (getTenant code d); [rewrite He|]; eexists;
      (destruct mode; simpl; [by rewrite rolled_back_same|done]).
  - intros ti b d' Hti. unfold deleteTenant, deleteTenant_try; simpl.
    rewrite Hti.
    destruct (drop_schema_error f); [discriminate|].
    destruct (delete_row_error f); [discriminate|].
    assert (query_COMMIT mode
              (with_db (query_BEGIN d)
                 (delete_tenant_row code (drop_schema (schema_name ti) d)))
            = delete_tenant_row code (drop_schema (schema_name ti) d)) as ->
      by (by destruct mode).
    intros [= _ <-]. split; [apply getTenant_deleted|apply Hgone].
  - intros ti confirm r d' Hti Hdel Hnone.
    unfold deleteTenant, deleteTenant_try in Hdel. simpl in Hdel.
    rewrite Hti in Hdel.
    destruct confirm; simpl in Hdel; cycle 1.
    { injection Hdel as _ <-. congruence. }
    destruct (drop_schema_error f).
    { assert (d' = d) as ->.
      { destruct mode; simpl in Hdel; injection Hdel as _ <-;
          [apply rolled_back_same|done]. }
      congruence. }
    destruct (delete_row_error f).
    { assert (getTenant code d' = getTenant code d) as Hsame.
      { apply getTenant_same_tenants.
        destruct mode; simpl in Hdel; by injection Hdel as _ <-. }
      congruence. }
    assert (d' = delete_tenant_row code (drop_schema (schema_name ti) d)) as ->.
    { destruct mode; simpl in Hdel; by injection Hdel as _ <-. }
    apply Hgone.
Qed.

(** A call of [deleteTenant] that runs alone goes through its six
    steps to the result of the function. *)
Lemma delete_alone code f d :
  Concurrent.delete_steps 6 code f Concurrent.DelBegin d =
  (Concurrent.DelFinished (fst (deleteTenant SeparateConnections code true f d)),
   snd (deleteTenant SeparateConnections code true f d)).
Proof.
  unfold deleteTenant, deleteTenant_try. simpl.
  destruct (getTenant code d) as [ti|]; simpl; [|done].
  destruct (drop_schema_error f); simpl; [done|].
  destruct (delete_row_error f); simpl; done.
Qed.

(** C9 at the deletion of tenant [acme], confirmed.  The drop of the
    schema and the removal of the record are two statements that the
    pool commits one by one: after the third step of the call, with no
    statement rejected, every other request finds the record of the
    tenant and no schema, and the middleware answers a request of the
    tenant [500 TENANT_SCHEMA_MISSING]; and when the [DELETE] is
    rejected the call throws, its [ROLLBACK] undoes nothing, and the
    record stays without its schema.  On one connection the same call
    leaves the database as it was. *)
Theorem delete_is_not_one_unit :
  let d := Sample.with_stock 100 in
  let between := snd (Concurrent.delete_steps 3 "acme" no_faults
                        Concurrent.DelBegin d) in
  let f := {| drop_schema_error := None;
              delete_row_error := Some "connection terminated" |} in
  let stuck := deleteTenant SeparateConnections "acme" true f d in
  (getTenant "acme" between = Some (mkTenantInfo Sample.acme "tenant_acme") /\
   schemaExists "tenant_acme" between = false /\
   exists r, tenantMiddleware (TenantOps.with_header "acme") between = Respond r /\
             status_code r = 500 /\ error r = "TENANT_SCHEMA_MISSING") /\
  (fst stuck = inl "Error eliminando tenant: connection terminated" /\
   getTenant "acme" (snd stuck) = Some (mkTenantInfo Sample.acme "tenant_acme") /\
   schemaExists "tenant_acme" (snd stuck) = false) /\
  snd (deleteTenant SameConnection "acme" true f d) = d.
Proof.
  split; [|split].
  - split; [reflexivity|]. split; [reflexivity|].
    eexists. split; [reflexivity|]. by split.
  - by repeat split.
  - vm_compute. reflexivity.
Qed.

End TenantFacts.

(* ===================================================================== *)
(** ** Stored unit cost and requests in flight *)
(* ===================================================================== *)

Section LedgerDefects.
Import Database Inventory Ledger Concurrent.

(** The row written by [addMovement] carries the caller's
    [cost_per_unit] as it came. *)
Lemma addMovement_cost_as_given mode sch data d row d' :
  addMovement mode sch data d = (inr row, d') ->
  cost_per_unit row = md_cost_per_unit data.
Proof.
  intros H. apply addMovement_ok, addMovement_try_inr in H.
  destruct H as (t & p & change & q & n & _ & _ & _ & _ & _ & _ & -> & _).
  reflexivity.
Qed.

(** C10 at an inbound movement of 10 units without unit cost on a
    product of cost price 2.00: [addMovement] stores no unit cost,
    where [recordMovement] of the original model stores 2.00. *)
Theorem addMovement_stores_no_default_cost :
  (exists row d',
     addMovement SameConnection "tenant_acme" (Sample.move "entrada" 10 None)
                 (Sample.with_stock 100) = (inr row, d') /\
     cost_per_unit row = None /\
     (forall t, schemas d' !! "tenant_acme" = Some t ->
                cost_per_unit <$> last (inventory_movements t) = Some None)) /\
  (exists row t',
     InventoryOriginal.recordMovement (Sample.move "entrada" 10 None)
       (mkSchema {[ 1 := set_stock 100 Sample.widget ]} [] [] 0) = (inr row, t') /\
     cost_per_unit row = Some 200).
Proof.
  split.
  - eexists _, _. split; [reflexivity|]. split; [reflexivity|].
    intros t Ht. vm_compute in Ht. by injection Ht as <-.
  - eexists _, _. split; reflexivity.
Qed.

(** A request that runs alone goes through its six steps to the result
    of [addMovement]. *)
Lemma run_alone sch data d :
  Js.truthy sch = true ->
  run sch [0; 0; 0; 0; 0; 0]%nat [AtBegin data] d =
  ([Finished (fst (addMovement SeparateConnections sch data d))],
   snd (addMovement SeparateConnections sch data d)).
Proof.
  intros Hsch. unfold addMovement, addMovement_try. rewrite Hsch. simpl.
  destruct (select_product sch (md_product_id data) d) as [e|[p|]]; simpl; try done.
  destruct (stockChange _ _ _) as [e|change]; simpl; try done.
  destruct (insert_movement sch _ d) as [e|[row d1]]; simpl; try done.
  destruct (update_stock sch _ _ d1) as [e|d2]; simpl; done.
Qed.

(** C3 at two [salida] requests of 10 units each on a stock of 10 that
    take turns at every [await]: both succeed, the ledger gains two
    movements of -10 from 10 to 0, and the stock is 0. *)
Theorem concurrent_outbound_both_succeed :
  let '(tasks, d) := run "tenant_acme" Requests.alternate Requests.two_outbound
                         (Sample.with_stock 10) in
  forallb succeeded tasks = true /\
  map quantity (ledger_of "tenant_acme" 1 d) = [-10; -10] /\
  map previous_stock (ledger_of "tenant_acme" 1 d) = [10; 10] /\
  map new_stock (ledger_of "tenant_acme" 1 d) = [0; 0] /\
  stock_of "tenant_acme" 1 d = Some 0 /\
  10 + sum_deltas (ledger_of "tenant_acme" 1 d) = -10.
Proof. vm_compute. repeat split. Qed.

(** The end-to-end example of the specification: stock 100 at cost
    2.00, a [salida] of 30, then an [ajuste] of -70 and a run of the
    inventory rules. *)
Example end_to_end :
  let d0 := Sample.with_stock 100 in
  let '(r1, d1) := addMovement SameConnection "tenant_acme"
                     (Sample.move "salida" 30 None) d0 in
  let '(r2, d2) := addMovement SameConnection "tenant_acme"
                     (Sample.move "ajuste" (-70) None) d1 in
  let '(r3, d3) := Insights.generateInventoryInsights "tenant_acme"
                     (Advisories.env_at 1000 "k3x9q0a1z") d2 in
  stock_of "tenant_acme" 1 d1 = Some 70 /\
  (match r1 with
   | inr m => Some (previous_stock m, new_stock m)
   | inl _ => None
   end) = Some (100, 70) /\
  (match getFIFOValuation "tenant_acme" (Some 1) d1 with
   | inr (OneProduct (Some row)) => fifo_valuation row
   | _ => -1
   end) = 14000 /\
  stock_of "tenant_acme" 1 d2 = Some 0 /\
  (Advisories.rule_key <$> Advisories.insights_of "tenant_acme" d3)
    = [Advisories.stockout_key].
Proof. vm_compute. repeat split. Qed.

End LedgerDefects.

(* ===================================================================== *)
(** ** Further properties of [addMovement] and its route *)
(* ===================================================================== *)

Section MovementFacts.
Import Database Inventory Ledger LedgerOps Http InventoryRoutes.

Lemma includes_prefix s t : String.prefix t s = true -> Js.includes s t = true.
Proof. intros H. destruct s; cbn [Js.includes]; by rewrite H. Qed.

Lemma prefix_append t s : String.prefix t (t +:+ s) = true.
Proof.
induction t as [|c t IH]; simpl; [by destruct s|].
destruct (ascii_dec c c); [exact IH|done].
Qed.

Lemma includes_append_r s1 s2 t :
  Js.includes s2 t = true -> Js.includes (s1 +:+ s2) t = true.
Proof.
intros H. induction s1 as [|c s1 IH]; simpl; [done|].
by rewrite IH, orb_true_r.
Qed.

Lemma includes_middle s1 t s2 : Js.includes (s1 +:+ t +:+ s2) t = true.
Proof. apply includes_append_r, includes_prefix, prefix_append. Qed.




(** X2.  An [ajuste] that would make the stock negative throws, leaves
    the database as it was, and the [POST /movements] handler answers
    [500 ADD_MOVEMENT_ERROR]: only the message of a [salida] is mapped
    to [400 INSUFFICIENT_STOCK]. *)
Theorem negative_adjustment_is_server_error mode sch data d s q :
  Js.truthy sch = true ->
  md_movement_type data = "ajuste" ->
  stock_of sch (md_product_id data) d = Some s ->
  md_quantity data = Js.Num q ->
  s + q < 0 ->
  let msg := "Error registrando movimiento: " +:+ negative_adjust in
  addMovement mode sch data d = (inl msg, d) /\
  status_code (movements_error msg) = 500 /\
  error (movements_error msg) = "ADD_MOVEMENT_ERROR".
Proof.
intros Hsch Hty Hs Hv Hq msg. split; [|split; reflexivity].
apply stock_of_inv in Hs as (t & p & Ht & Hp & Hcs).
rewrite addMovement_run by done.
unfold addMovement_try, select_product.
rewrite Ht, Hp, Hty, Hv. unfold stockChange.
cbn [String.eqb Ascii.eqb Bool.eqb Js.add Js.lt0 Js.ToNumber].
destruct (Z.ltb_spec (current_stock p + q) 0) as [_|Hge]; [done|lia].
Qed.

Lemma negative_adjustment_is_server_error_witness :
  let msg := "Error registrando movimiento: " +:+ negative_adjust in
  addMovement SeparateConnections "tenant_acme" (Sample.move "ajuste" (-101) None)
              (Sample.with_stock 100) = (inl msg, Sample.with_stock 100) /\
  status_code (movements_error msg) = 500 /\
  error (movements_error msg) = "ADD_MOVEMENT_ERROR".
Proof.
apply (negative_adjustment_is_server_error SeparateConnections "tenant_acme"
         (Sample.move "ajuste" (-101) None) (Sample.with_stock 100) 100 (-101));
  [reflexivity | reflexivity | reflexivity | reflexivity | lia].
Defined.

(** The stock of a product after one call: as before, or the stock the
    server read from the sum the call computed. *)
Lemma addMovement_stock mode sch pid sch' data d :
  stock_of sch pid (snd (addMovement mode sch' data d)) = stock_of sch pid d \/
  exists s change n,
    stock_of sch pid d = Some s /\
    stockChange (md_movement_type data) (md_quantity data) s = inr change /\
    int4 (Js.add (Js.Num s) change) = inr n /\
    stock_of sch pid (snd (addMovement mode sch' data d)) = Some n.
Proof.
destruct (addMovement mode sch' data d) as [[e|row] d'] eqn:Hcall; simpl.
{ apply addMovement_throw_unchanged in Hcall. subst. by left. }
apply addMovement_ok, addMovement_try_inr in Hcall.
destruct Hcall as (t & p & change & q & n & Ht & Hp & Hc & _ & Hn & _ & _ & ->).
destruct (decide (sch' = sch)) as [->|Hne];
  [|left; by apply stock_of_other_schema].
rewrite stock_of_set_schema. unfold written; simpl.
destruct (decide (md_product_id data = pid)) as [<-|Hpid].
- right. exists (current_stock p), change, n.
  unfold stock_of. rewrite Ht, Hp, lookup_alter_eq, Hp. done.
- left. unfold stock_of. rewrite Ht, lookup_alter_ne by done. done.
Qed.

(** The checks of [addMovement] read the sum as the server reads it:
    but for a [sincronizacion], the new stock of a stock that is not
    negative is not negative, whatever the quantity holds. *)
Lemma stockChange_keeps_sign ty v s change n :
  ty <> "sincronizacion" ->
  stockChange ty v s = inr change ->
  int4 (Js.add (Js.Num s) change) = inr n ->
  0 <= s -> 0 <= n.
Proof.
intros Hty. unfold stockChange.
destruct (String.eqb_spec ty "entrada").
{ intros [= <-]. unfold Js.abs. destruct (Js.ToNumber v); try discriminate.
  intros [-> _]%int4_Num. lia. }
destruct (String.eqb_spec ty "salida").
{ unfold Js.abs. destruct (Js.ToNumber v) as [z| |txt];
    cbn [Js.neg Js.ToNumber Js.add Js.lt0];
    try (intros [= <-]; discriminate).
  destruct (Z.ltb_spec (s + - Z.abs z) 0); [discriminate|].
  intros [= <-] [-> _]%int4_Num. lia. }
destruct (String.eqb_spec ty "ajuste").
{ destruct (Js.lt0 (Js.add (Js.Num s) v)) eqn:Hlt; [discriminate|].
  intros [= <-] Hn%int4_ToNumber _. unfold Js.lt0 in Hlt. rewrite Hn in Hlt. lia. }
destruct (String.eqb_spec ty "sincronizacion"); [done|discriminate].
Qed.

(** X3.  Over any sequence of [addMovement] calls none of which is a
    [sincronizacion], on any schemas and products, a stock that is not
    negative stays so. *)
Theorem stock_never_negative_without_sync mode sch pid calls : forall d s0,
  Forall (fun c => md_movement_type (snd c) <> "sincronizacion") calls ->
  stock_of sch pid d = Some s0 ->
  0 <= s0 ->
  exists s, stock_of sch pid (run_calls mode calls d) = Some s /\ 0 <= s.
Proof.
unfold run_calls.
induction calls as [|[sch' data] calls IH]; intros d s0 Hall Hs H0; simpl.
{ by exists s0. }
inversion Hall as [|? ? Hty Hrest]; subst. simpl in Hty.
destruct (addMovement_stock mode sch pid sch' data d)
  as [Hsame|(s & change & n & Hs' & Hc & Hn & Hnew)].
- apply (IH _ s0); [done| |done]. by rewrite Hsame.
- apply (IH _ n); [done|done|].
  assert (s = s0) as -> by congruence.
  by apply (stockChange_keeps_sign _ _ _ _ _ Hty Hc Hn).
Qed.

Lemma stock_never_negative_without_sync_witness :
  exists s,
    stock_of "tenant_acme" 1
      (run_calls SameConnection
         [("tenant_acme", Sample.move "salida" 60 None);
          ("tenant_acme", Sample.move "salida" 60 None);
          ("tenant_acme", Sample.move "ajuste" (-41) None);
          ("tenant_acme", Sample.move_text "ajuste" "-7");
          ("tenant_acme", Sample.move_text "ajuste" "7");
          ("tenant_acme", Sample.move "ajuste" (-40) None)]
         (Sample.with_stock 100)) = Some s /\ 0 <= s.
Proof.
apply (stock_never_negative_without_sync SameConnection "tenant_acme" 1 _
         (Sample.with_stock 100) 100); [|reflexivity|lia].
repeat constructor; discriminate.
Defined.

(** X4.  [entrada] and [salida] use the absolute value of the quantity:
    the same request with the sign of [quantity] flipped has the same
    result and leaves the same database. *)
Theorem entrada_salida_ignore_sign mode sch data d :
  md_movement_type data = "entrada" \/ md_movement_type data = "salida" ->
  addMovement mode sch (negate_quantity data) d = addMovement mode sch data d.
Proof.
intros Hty. unfold addMovement, addMovement_try; simpl.
assert (Habs : Js.abs (Js.neg (md_quantity data)) = Js.abs (md_quantity data)).
{ unfold Js.abs, Js.neg. destruct (Js.ToNumber (md_quantity data)); try done.
  cbn [Js.ToNumber]. by rewrite Z.abs_opp. }
assert (Hc : forall s,
          stockChange (md_movement_type data) (Js.neg (md_quantity data)) s =
          stockChange (md_movement_type data) (md_quantity data) s).
{ intros s. unfold stockChange.
  destruct Hty as [-> | ->]; cbn [String.eqb Ascii.eqb Bool.eqb]; by rewrite Habs. }
destruct (negb (Js.truthy sch)); [done|].
destruct (select_product sch (md_product_id data) d) as [e|[p|]]; try done.
rewrite Hc.
destruct (stockChange _ _ _) as [e|change]; [done|].
reflexivity.
Qed.

Lemma entrada_salida_ignore_sign_witness :
  addMovement SameConnection "tenant_acme" (Sample.move "salida" (-30) None)
              (Sample.with_stock 100) =
  addMovement SameConnection "tenant_acme" (Sample.move "salida" 30 None)
              (Sample.with_stock 100).
Proof.
apply (entrada_salida_ignore_sign SameConnection "tenant_acme"
         (Sample.move "salida" 30 None) (Sample.with_stock 100)).
right. reflexivity.
Defined.

End MovementFacts.

(* ===================================================================== *)
(** ** Further properties of the ledger under both entry points *)
(* ===================================================================== *)

Section SyncFacts.
Import Database Inventory Ledger LedgerOps Http InventoryRoutes.

Lemma movements_of_set_schema sch t d :
  movements_of sch (set_schema sch t d) = inventory_movements t.
Proof. unfold movements_of. by rewrite set_schema_lookup. Qed.

Lemma movements_of_other_schema sch sch' t d :
  sch' <> sch -> movements_of sch (set_schema sch' t d) = movements_of sch d.
Proof. intros H. unfold movements_of. by rewrite set_schema_lookup_ne. Qed.

Lemma seq_of_set_schema sch t d : seq_of sch (set_schema sch t d) = movements_seq t.
Proof. unfold seq_of. by rewrite set_schema_lookup. Qed.

Lemma seq_of_other_schema sch sch' t d :
  sch' <> sch -> seq_of sch (set_schema sch' t d) = seq_of sch d.
Proof. intros H. unfold seq_of. by rewrite set_schema_lookup_ne. Qed.

(** The database a turn of the sync loop leaves on the connection: the
    one before, or the one before with one movement and the stock
    written. *)
Lemma sync_item_db mode sch r s item :
  txn_start (snd (sync_item mode sch (r, s) item)) = txn_start s /\
  (conn_db (snd (sync_item mode sch (r, s) item)) = conn_db s \/
   exists t p q n text,
     schemas (conn_db s) !! sch = Some t /\
     products t !! si_product_id item = Some p /\
     q = n - current_stock p /\
     conn_db (snd (sync_item mode sch (r, s) item)) =
       set_schema sch (snd (sync_written item t p q n text)) (conn_db s)).
Proof.
destruct (sync_item_cases mode sch r s item) as (r' & s' & -> & Hstart & Hcases).
cbn [snd]. split; [done|].
destruct Hcases as [(H & _)|[(H & _)|[(H & _)|(_ & _ & t & p & q & n & Ht & Hp & _ & Hq & _ & H)]]];
  [by left|by left|by left|].
right. eexists t, p, q, n, _. by repeat split.
Qed.

(** An invariant of the connection's database that every turn keeps
    holds after the loop. *)
Lemma sync_fold_db mode sch (P : database -> Prop) items r s :
  (forall item r s, P (conn_db s) ->
     P (conn_db (snd (sync_item mode sch (r, s) item)))) ->
  P (conn_db s) ->
  P (conn_db (snd (fold_left (sync_item mode sch) items (r, s)))) /\
  txn_start (snd (fold_left (sync_item mode sch) items (r, s))) = txn_start s.
Proof.
intros Hstep H0.
apply (sync_fold_ind mode sch
         (fun _ s' => P (conn_db s') /\ txn_start s' = txn_start s)); [|done].
intros r1 s1 item [HP Hst]. split; [by apply Hstep|].
destruct (sync_item_db mode sch r1 s1 item) as [-> _]. done.
Qed.

Lemma syncInventory_run mode sch items d :
  Js.truthy sch = true ->
  syncInventory mode sch items d =
  (inr (fst (fold_left (sync_item mode sch) items
                       (mkSyncResults 0 0 [] 0, query_BEGIN d))),
   query_COMMIT mode
     (snd (fold_left (sync_item mode sch) items
                     (mkSyncResults 0 0 [] 0, query_BEGIN d)))).
Proof.
intros Hsch. unfold syncInventory. rewrite Hsch. simpl.
by destruct (fold_left _ _ _).
Qed.

Lemma syncInventory_falsy mode sch items d :
  Js.truthy sch = false -> snd (syncInventory mode sch items d) = d.
Proof. intros Hsch. unfold syncInventory. by rewrite Hsch. Qed.

Lemma query_COMMIT_cases mode s :
  query_COMMIT mode s = conn_db s \/
  query_COMMIT mode s = rolled_back (txn_start s) (conn_db s).
Proof. unfold query_COMMIT. destruct mode, (aborted s); auto. Qed.

(** What holds of the database at [BEGIN], is kept by every turn and
    survives a rollback holds after [syncInventory]. *)
Lemma syncInventory_db mode sch (P : database -> Prop) items d :
  (forall item r s, P (conn_db s) ->
     P (conn_db (snd (sync_item mode sch (r, s) item)))) ->
  (forall now, P now -> P (rolled_back d now)) ->
  P d ->
  P (snd (syncInventory mode sch items d)).
Proof.
intros Hstep Hback H0.
destruct (Js.truthy sch) eqn:Hsch; [|by rewrite syncInventory_falsy].
rewrite syncInventory_run by done. cbn [snd].
destruct (sync_fold_db mode sch P items (mkSyncResults 0 0 [] 0) (query_BEGIN d)
            Hstep H0) as [HP Hst].
destruct (query_COMMIT_cases mode
            (snd (fold_left (sync_item mode sch) items
                            (mkSyncResults 0 0 [] 0, query_BEGIN d)))) as [-> | ->];
  [done|].
rewrite Hst. by apply Hback.
Qed.

(** *** The ledger only grows *)

Lemma numbered_mono seq seq' l : seq <= seq' -> numbered seq l -> numbered seq' l.
Proof.
intros Hle [Hs Hb]. split; [done|].
eapply Forall_impl; [exact Hb|]. simpl. intros. lia.
Qed.

Lemma numbered_snoc seq l row :
  numbered seq l -> id row = seq + 1 -> numbered (seq + 1) (l ++ [row]).
Proof.
intros [Hs Hb] Hid. split.
- rewrite map_app. apply StronglySorted_app_2; [|done|repeat constructor].
  intros x1 x2 Hx1 Hx2. simpl in Hx2. apply list_elem_of_singleton in Hx2 as ->.
  apply list_elem_of_fmap in Hx1 as (m & -> & Hm).
  rewrite Forall_forall in Hb. specialize (Hb m Hm). simpl in Hb. lia.
- apply Forall_app. split.
  + eapply Forall_impl; [exact Hb|]. simpl. intros. lia.
  + constructor; [lia|constructor].
Qed.

Lemma extends_refl sch d : extends sch d d.
Proof. split; [done|]. split; [lia|done]. Qed.

Lemma extends_trans sch d1 d2 d3 :
  extends sch d1 d2 -> extends sch d2 d3 -> extends sch d1 d3.
Proof.
intros (P1 & S1 & N1) (P2 & S2 & N2).
split; [by etrans|]. split; [lia|auto].
Qed.

Lemma extends_write sch sch' t t' row d :
  schemas d !! sch' = Some t ->
  inventory_movements t' = inventory_movements t ++ [row] ->
  id row = movements_seq t + 1 ->
  movements_seq t' = movements_seq t + 1 ->
  extends sch d (set_schema sch' t' d).
Proof.
intros Ht Hmov Hid Hseq.
destruct (decide (sch' = sch)) as [->|Hne].
- unfold extends. rewrite movements_of_set_schema, seq_of_set_schema, Hmov, Hseq.
  unfold movements_of, seq_of. rewrite Ht. split; [|split].
  + by apply prefix_app_r.
  + lia.
  + intros Hn. by apply numbered_snoc.
- unfold extends.
  rewrite movements_of_other_schema, seq_of_other_schema by done.
  apply extends_refl.
Qed.

Lemma movements_of_rolled sch start now :
  movements_of sch (rolled_back start now) = movements_of sch start.
Proof. apply movements_of_rolled_back. Qed.

Lemma seq_of_rolled_back sch start now :
  seq_of sch start <= seq_of sch now ->
  seq_of sch start <= seq_of sch (rolled_back start now).
Proof.
unfold seq_of. rewrite rolled_back_lookup.
destruct (schemas start !! sch) as [t|]; simpl; [|lia].
destruct (schemas now !! sch) as [t'|]; destruct t; simpl; lia.
Qed.

Lemma extends_rolled_back sch d now :
  extends sch d now -> extends sch d (rolled_back d now).
Proof.
intros (_ & Hseq & _). unfold extends. rewrite movements_of_rolled.
pose proof (seq_of_rolled_back sch d now Hseq) as Hle.
split; [done|]. split; [done|]. intros Hn. by apply (numbered_mono _ _ _ Hle).
Qed.

Lemma addMovement_extends mode sch sch' data d :
  extends sch d (snd (addMovement mode sch' data d)).
Proof.
destruct (addMovement mode sch' data d) as [[e|row] d'] eqn:Hcall; simpl.
{ apply addMovement_throw_unchanged in Hcall. subst. apply extends_refl. }
apply addMovement_ok, addMovement_try_inr in Hcall.
destruct Hcall as (t & p & change & q & n & Ht & _ & _ & _ & _ & _ & _ & ->).
by eapply extends_write.
Qed.

Lemma sync_item_extends mode sch sch' d0 r s item :
  extends sch d0 (conn_db s) ->
  extends sch d0 (conn_db (snd (sync_item mode sch' (r, s) item))).
Proof.
intros H0.
destruct (sync_item_db mode sch' r s item)
  as [_ [-> | (t & p & q & n & text & Ht & _ & _ & ->)]]; [done|].
eapply extends_trans; [exact H0|]. by eapply extends_write.
Qed.

Lemma run_op_extends mode sch op d : extends sch d (run_op mode d op).
Proof.
destruct op as [sch' data|sch' items]; simpl.
- apply addMovement_extends.
- apply (syncInventory_db mode sch' (extends sch d)).
  + intros item r s. apply sync_item_extends.
  + apply extends_rolled_back.
  + apply extends_refl.
Qed.

(** X5.  The ledger is append-only and its identifiers come from the
    sequence of the table: over any sequence of [addMovement] and
    [syncInventory] calls the movements recorded before remain,
    unchanged and in place, as a prefix of the ledger, and if the
    identifiers grew along the ledger with none beyond the last value
    drawn from the sequence, they still do.  The sequence does not go
    back when a transaction is rolled back, so the identifiers may have
    gaps. *)
Theorem ledger_append_only mode sch ops : forall d,
  numbered (seq_of sch d) (movements_of sch d) ->
  movements_of sch d `prefix_of` movements_of sch (run_ops mode ops d) /\
  seq_of sch d <= seq_of sch (run_ops mode ops d) /\
  numbered (seq_of sch (run_ops mode ops d)) (movements_of sch (run_ops mode ops d)).
Proof.
unfold run_ops. induction ops as [|op ops IH]; intros d Hs; simpl.
{ split; [done|]. split; [lia|done]. }
destruct (run_op_extends mode sch op d) as (Hp & Hseq & Hnum).
destruct (IH (run_op mode d op) (Hnum Hs)) as (Hp' & Hseq' & Hs').
split; [by etrans|]. split; [lia|done].
Qed.

Lemma ledger_append_only_witness :
  let ops := [Add "tenant_acme" (Sample.move "salida" 30 None);
              Sync "tenant_acme" [sync_entry 1 50; sync_entry 1 3000000000];
              Sync "tenant_acme" [sync_entry 1 50; sync_entry 1 20];
              Add "tenant_acme" (Sample.move "salida" 500 None)] in
  let d := run_ops SameConnection ops (Sample.with_stock 100) in
  map id (movements_of "tenant_acme" d) = [1; 3; 4] /\
  movements_of "tenant_acme" (Sample.with_stock 100)
    `prefix_of` movements_of "tenant_acme" d /\
  seq_of "tenant_acme" (Sample.with_stock 100) <= seq_of "tenant_acme" d /\
  numbered (seq_of "tenant_acme" d) (movements_of "tenant_acme" d).
Proof.
intros ops d. split; [reflexivity|].
apply (ledger_append_only SameConnection "tenant_acme" ops (Sample.with_stock 100)).
split; [constructor|constructor].
Defined.

(** *** The ledger stays in step with the stock *)

Lemma consistent_rolled_back sch pid s0 d now :
  consistent sch pid s0 d -> consistent sch pid s0 (rolled_back d now).
Proof.
unfold consistent, ledger_of.
by rewrite stock_of_rolled_back, movements_of_rolled_back.
Qed.

(** One turn of the sync loop keeps the ledger of every product
    consistent with its stock. *)
Lemma sync_item_consistent mode sch pid s0 sch' r s item :
  consistent sch pid s0 (conn_db s) ->
  consistent sch pid s0 (conn_db (snd (sync_item mode sch' (r, s) item))).
Proof.
intros Hc.
destruct (sync_item_db mode sch' r s item)
  as [_ [-> | (t & p & q & n & text & Ht & Hp & Hq & ->)]]; [done|].
destruct (decide (sch' = sch)) as [->|Hne]; cycle 1.
{ destruct Hc as (st & Hs & Hsum & Hlast & Hall). exists st.
  rewrite stock_of_other_schema, ledger_of_other_schema by done. done. }
destruct Hc as (st & Hs & Hsum & Hlast & Hall).
unfold stock_of in Hs. rewrite Ht in Hs.
assert (Hl : ledger_of sch pid (conn_db s) =
             List.filter (fun m => Z.eqb (product_id m) pid) (inventory_movements t)).
{ unfold ledger_of, movements_of. by rewrite Ht. }
rewrite Hl in *.
unfold consistent. rewrite stock_of_set_schema, ledger_of_set_schema.
unfold sync_written; simpl. rewrite List.filter_app. simpl.
destruct (Z.eqb_spec (si_product_id item) pid) as [E|Hpid].
- rewrite E in *. rewrite Hp in Hs. simpl in Hs. injection Hs as <-.
  exists n. split; [|split; [|split]].
  + rewrite lookup_alter_eq, Hp. done.
  + rewrite sum_deltas_app. unfold sum_deltas at 2. simpl. lia.
  + intros m. rewrite last_snoc. intros [= <-]. done.
  + apply Forall_app. split; [done|]. constructor; [simpl; lia|constructor].
- exists st. rewrite app_nil_r. split; [|done].
  rewrite lookup_alter_ne by done. done.
Qed.

Lemma run_op_consistent mode sch pid s0 op d :
  numeric_op op ->
  consistent sch pid s0 d -> consistent sch pid s0 (run_op mode d op).
Proof.
intros Hnum Hc. destruct op as [sch' data|sch' items]; simpl.
- by apply addMovement_consistent.
- apply (syncInventory_db mode sch' (consistent sch pid s0)); [| |done].
  + intros item r s. apply sync_item_consistent.
  + intros now _. by apply consistent_rolled_back.
Qed.

(** X6.  [syncInventory] keeps the ledger in step with the stock just
    as [addMovement] does: from the creation of a product, after any
    mix of [syncInventory] calls and of [addMovement] calls whose
    [ajuste] and [sincronizacion] quantities are numbers, the product's
    stock is the [new_stock] of its latest movement and the creation
    stock plus the sum of its movements' quantities. *)
Theorem ledger_consistent_under_all_writes mode sch pid s0 ops d0 :
  Forall numeric_op ops ->
  stock_of sch pid d0 = Some s0 ->
  ledger_of sch pid d0 = [] ->
  exists s,
    stock_of sch pid (run_ops mode ops d0) = Some s /\
    s = s0 + sum_deltas (ledger_of sch pid (run_ops mode ops d0)) /\
    (forall m, last (ledger_of sch pid (run_ops mode ops d0)) = Some m ->
               new_stock m = s) /\
    Forall (fun m => new_stock m = previous_stock m + quantity m)
           (ledger_of sch pid (run_ops mode ops d0)).
Proof.
intros Hnum Hs Hl.
assert (Hc : consistent sch pid s0 d0) by (by apply created_consistent).
clear Hs Hl. revert d0 Hc. unfold run_ops.
induction Hnum as [|op ops Hop Hops IH]; intros d Hc; simpl; [exact Hc|].
apply IH. by apply run_op_consistent.
Qed.

Lemma ledger_consistent_under_all_writes_witness :
  let d := run_ops SeparateConnections
             [Sync "tenant_acme" [sync_entry 1 40];
              Add "tenant_acme" (Sample.move "entrada" 5 None);
              Add "tenant_acme" (Sample.move_text "salida" "3");
              Sync "tenant_acme" [sync_entry 1 (-3); sync_entry 9 1]]
             (Sample.with_stock 100) in
  stock_of "tenant_acme" 1 d = Some (-3) /\
  exists s,
    stock_of "tenant_acme" 1 d = Some s /\
    s = 100 + sum_deltas (ledger_of "tenant_acme" 1 d) /\
    (forall m, last (ledger_of "tenant_acme" 1 d) = Some m -> new_stock m = s) /\
    Forall (fun m => new_stock m = previous_stock m + quantity m)
           (ledger_of "tenant_acme" 1 d).
Proof.
split; [reflexivity|].
apply (ledger_consistent_under_all_writes SeparateConnections "tenant_acme" 1 100 _
         (Sample.with_stock 100)); [|reflexivity|reflexivity].
repeat constructor; intros [H|H]; discriminate H.
Defined.

(** *** The report of a run *)

Lemma length_push r e :
  Z.of_nat (length (errors (push_error r e))) = Z.of_nat (length (errors r)) + 1.
Proof. unfold push_error; simpl. rewrite length_app. simpl. lia. Qed.

(** The counters after one turn, whatever the turn met. *)
Lemma sync_item_counters mode sch r s item :
  let r' := fst (sync_item mode sch (r, s) item) in
  updated r' - movements_created r' = updated r - movements_created r /\
  0 <= movements_created r' - movements_created r <= processed r' - processed r /\
  processed r' - processed r <= 1 /\
  1 <= (processed r' - processed r) +
       (Z.of_nat (length (errors r')) - Z.of_nat (length (errors r))).
Proof.
destruct (sync_item_cases mode sch r s item) as (r' & s' & -> & _ & Hcases).
cbn [fst].
destruct Hcases as [(_ & _ & -> & _)|[(_ & e & [-> | ->])
                   |[(_ & _ & -> & _)|(_ & -> & _)]]];
  rewrite ?length_push; simpl; lia.
Qed.

Lemma sync_fold_counters mode sch items : forall r0 s0,
  let r := fst (fold_left (sync_item mode sch) items (r0, s0)) in
  updated r - movements_created r = updated r0 - movements_created r0 /\
  0 <= movements_created r - movements_created r0 <= processed r - processed r0 /\
  processed r - processed r0 <= Z.of_nat (length items) /\
  Z.of_nat (length items) <=
    (processed r - processed r0) +
    (Z.of_nat (length (errors r)) - Z.of_nat (length (errors r0))).
Proof.
induction items as [|item items IH]; intros r0 s0; cbn [fold_left].
{ simpl. lia. }
pose proof (sync_item_counters mode sch r0 s0 item) as H1. cbv zeta in H1.
destruct (sync_item mode sch (r0, s0) item) as [r1 s1].
specialize (IH r1 s1). cbv zeta in IH. cbn [fst] in H1.
cbn [length]. lia.
Qed.

(** A run in which no statement was rejected: the session is not
    aborted, every entry counts once, and the ledger on the connection
    has one more row for each movement of the report. *)
Lemma sync_fold_clean mode sch items : forall r0 s0,
  let r := fst (fold_left (sync_item mode sch) items (r0, s0)) in
  let s := snd (fold_left (sync_item mode sch) items (r0, s0)) in
  clean r ->
  aborted s = aborted s0 /\
  (processed r - processed r0) +
    (Z.of_nat (length (errors r)) - Z.of_nat (length (errors r0)))
    = Z.of_nat (length items) /\
  Z.of_nat (length (movements_of sch (conn_db s))) =
    Z.of_nat (length (movements_of sch (conn_db s0))) +
    (movements_created r - movements_created r0).
Proof.
induction items as [|item items IH]; intros r0 s0; cbn [fold_left].
{ simpl. intros _. repeat split; lia. }
cbv zeta. intros Hclean.
destruct (sync_item mode sch (r0, s0) item) as [r1 s1] eqn:Hstep.
specialize (IH r1 s1). cbv zeta in IH.
destruct (IH Hclean) as (Hab & Hcount & Hlen).
assert (Hc1 : clean (fst (sync_item mode sch (r0, s0) item))).
{ rewrite Hstep. cbn [fst].
  eapply clean_prefix; [apply (sync_fold_errors mode sch items r1 s1)|done]. }
apply sync_item_clean in Hc1 as (_ & r' & s' & Hr' & _ & Hab1 & Hcases).
rewrite Hstep in Hr'. injection Hr' as <- <-.
rewrite Hab, Hab1. split; [done|].
destruct Hcases as [(Hdb & -> & _)|[(Hdb & -> & _)
                   |(-> & t & p & q & n & Ht & _ & _ & _ & _ & Hdb)]].
- rewrite Hdb in Hlen. rewrite length_push in Hcount. simpl in *.
  cbn [length]. split; lia.
- rewrite Hdb in Hlen. simpl in *. cbn [length]. split; lia.
- rewrite Hdb, movements_of_set_schema in Hlen.
  unfold sync_written in Hlen; simpl in Hlen.
  rewrite length_app in Hlen. simpl in Hlen.
  assert (movements_of sch (conn_db s0) = inventory_movements t) as ->
    by (unfold movements_of; by rewrite Ht).
  simpl in *. cbn [length]. split; lia.
Qed.

(** X7.  The report of [syncInventory]: [updated] and
    [movements_created] are the same number, at most [processed], which
    is at most the number of entries; every entry is processed or
    reported as an error, and one whose statement was rejected after
    the product was read is both.  When the only errors are products
    that were not found, every entry counts once and the ledger of the
    schema has grown by exactly [movements_created] rows. *)
Theorem sync_report_adds_up mode sch items d r d' :
  syncInventory mode sch items d = (inr r, d') ->
  updated r = movements_created r /\
  0 <= movements_created r <= processed r /\
  processed r <= Z.of_nat (length items) /\
  Z.of_nat (length items) <= processed r + Z.of_nat (length (errors r)) /\
  (clean r ->
   processed r + Z.of_nat (length (errors r)) = Z.of_nat (length items) /\
   Z.of_nat (length (movements_of sch d')) =
     Z.of_nat (length (movements_of sch d)) + movements_created r).
Proof.
destruct (Js.truthy sch) eqn:Hsch; cycle 1.
{ unfold syncInventory. by rewrite Hsch. }
rewrite syncInventory_run by done. intros [= <- <-].
pose proof (sync_fold_counters mode sch items (mkSyncResults 0 0 [] 0)
              (query_BEGIN d)) as H. cbv zeta in H. simpl in H.
destruct H as (H1 & H2 & H3 & H4).
repeat (split; [lia|]).
intros Hclean.
destruct (sync_fold_clean mode sch items (mkSyncResults 0 0 [] 0) (query_BEGIN d)
            Hclean) as (Hab & Hcount & Hlen).
simpl in Hab, Hcount, Hlen. split; [lia|].
unfold query_COMMIT. rewrite Hab.
destruct mode; lia.
Qed.

Lemma sync_report_adds_up_witness :
  exists r d',
    syncInventory SameConnection "tenant_acme"
      [sync_entry 1 40; sync_entry 7 3; sync_entry 1 40; sync_entry 1 41]
      (Sample.with_stock 100) = (inr r, d') /\
    processed r = 3 /\ length (errors r) = 1%nat /\
    updated r = movements_created r /\ movements_created r = 2.
Proof.
eexists _, _. split; [reflexivity|].
destruct (sync_report_adds_up SameConnection "tenant_acme"
            [sync_entry 1 40; sync_entry 7 3; sync_entry 1 40; sync_entry 1 41]
            (Sample.with_stock 100) _ _ eq_refl) as (Hu & _).
split; [reflexivity|]. split; [reflexivity|]. split; [exact Hu|reflexivity].
Defined.

(** *** The stock after a run *)

Lemma sync_fold_last_wins mode sch pid items : forall r0 s0 st,
  clean (fst (fold_left (sync_item mode sch) items (r0, s0))) ->
  stock_of sch pid (conn_db s0) = Some st ->
  exists n,
    stock_of sch pid
      (conn_db (snd (fold_left (sync_item mode sch) items (r0, s0)))) = Some n /\
    Js.ToNumber (default (Js.Num st) (last_external pid items)) = Js.Num n.
Proof.
unfold last_external.
induction items as [|item items IH]; intros r0 s0 st Hclean Hs; cbn [fold_left] in *.
{ by exists st. }
destruct (sync_item mode sch (r0, s0) item) as [r1 s1] eqn:Hstep.
assert (Hc1 : clean (fst (sync_item mode sch (r0, s0) item))).
{ rewrite Hstep. cbn [fst].
  eapply clean_prefix; [apply (sync_fold_errors mode sch items r1 s1)|done]. }
pose proof (sync_item_clean_stock mode sch r0 s0 item pid Hc1) as Hst.
rewrite Hstep, Hs in Hst. cbn [snd] in Hst. simpl.
destruct (Z.eqb_spec (si_product_id item) pid) as [E|Hne].
- rewrite decide_True in Hst by done. destruct Hst as (n1 & Hn1 & Hst).
  destruct (IH r1 s1 n1 Hclean Hst) as (n & Hn & Hlast).
  exists n. split; [done|]. rewrite last_cons.
  destruct (last (List.filter _ items)); simpl in *; [done|].
  injection Hlast as <-. done.
- rewrite decide_False in Hst by done. by apply IH.
Qed.

(** X8.  After a [syncInventory] in which no statement was rejected (the
    only errors of the report are products not found), the stock of
    every product that exists is the number in the [external_stock] of
    the last entry that names it, and the stock it had when no entry
    names it. *)
Theorem sync_last_entry_wins mode sch items d r d' pid s :
  syncInventory mode sch items d = (inr r, d') ->
  clean r ->
  stock_of sch pid d = Some s ->
  exists n,
    stock_of sch pid d' = Some n /\
    Js.ToNumber (default (Js.Num s) (last_external pid items)) = Js.Num n.
Proof.
destruct (Js.truthy sch) eqn:Hsch; cycle 1.
{ unfold syncInventory. by rewrite Hsch. }
rewrite syncInventory_run by done. intros [= <- <-] Hclean Hs.
destruct (sync_fold_clean mode sch items (mkSyncResults 0 0 [] 0) (query_BEGIN d)
            Hclean) as (Hab & _).
destruct (sync_fold_last_wins mode sch pid items (mkSyncResults 0 0 [] 0)
            (query_BEGIN d) s Hclean Hs) as (n & Hn & Hlast).
exists n. split; [|done].
unfold query_COMMIT. rewrite Hab. simpl. by destruct mode.
Qed.

Lemma sync_last_entry_wins_witness :
  exists r d',
    syncInventory SameConnection "tenant_acme"
      [sync_entry 1 5; sync_entry 2 8;
       {| si_product_id := 1; si_external_stock := Js.Str "7";
          si_cost_price := None; si_notes := None |}]
      (Sample.with_stock 100) = (inr r, d') /\
    stock_of "tenant_acme" 1 d' = Some 7.
Proof.
eexists _, _. split; [reflexivity|].
destruct (sync_last_entry_wins SameConnection "tenant_acme"
            [sync_entry 1 5; sync_entry 2 8;
             {| si_product_id := 1; si_external_stock := Js.Str "7";
                si_cost_price := None; si_notes := None |}]
            (Sample.with_stock 100) _ _ 1 100 eq_refl)
  as (n & Hn & Hlast); [|reflexivity|].
{ repeat constructor. by exists 2. }
injection Hlast as <-. exact Hn.
Defined.

(** X9.  [POST /movements] is all or nothing: a [201] answer means one
    row was appended to the ledger of the schema and the product's
    stock is that row's [new_stock]; any other answer is 400, 404 or 500
    and the database is the one before the request. *)
Theorem post_movements_all_or_nothing mode sch body d r d' :
  post_movements mode sch body d = (r, d') ->
  (status_code r = 201 /\
   exists row,
     movements_of sch d' = movements_of sch d ++ [row] /\
     product_id row = md_product_id body /\
     stock_of sch (md_product_id body) d' = Some (new_stock row)) \/
  ((status_code r = 400 \/ status_code r = 404 \/ status_code r = 500) /\ d' = d).
Proof.
unfold post_movements.
destruct (missingFields body); cycle 1.
{ intros [= <- <-]. right. split; [by left|done]. }
destruct (addMovement mode sch body d) as [[msg|row] d1] eqn:Hcall.
- apply addMovement_throw_unchanged in Hcall as ->.
  intros [= <- <-]. right. split; [|done].
  unfold movements_error.
  destruct (Js.includes msg "no encontrado"); [right; by left|].
  destruct (Js.includes msg "No hay suficiente stock"); [by left|right; by right].
- intros [= <- <-]. left. split; [done|].
  apply addMovement_ok, addMovement_try_inr in Hcall.
  destruct Hcall as (t & p & change & q & n & Ht & Hp & _ & _ & _ & _ & -> & ->).
  eexists. rewrite movements_of_set_schema, stock_of_set_schema.
  unfold written; simpl. unfold movements_of. rewrite Ht.
  split; [reflexivity|]. split; [done|].
  by rewrite lookup_alter_eq, Hp.
Qed.

Lemma post_movements_all_or_nothing_witness :
  let res := post_movements SameConnection "tenant_acme"
               (Sample.move "salida" 30 None) (Sample.with_stock 100) in
  status_code (fst res) = 201 /\
  stock_of "tenant_acme" 1 (snd res) = Some 70.
Proof.
intros res.
destruct (post_movements_all_or_nothing SameConnection "tenant_acme"
            (Sample.move "salida" 30 None) (Sample.with_stock 100)
            (fst res) (snd res) eq_refl)
  as [(H201 & row & _)|([H|[H|H]] & _)]; try discriminate H.
split; [exact H201|reflexivity].
Defined.

End SyncFacts.

(* ===================================================================== *)
(** ** Further properties of the FIFO valuation *)
(* ===================================================================== *)

Section ValuationFacts.
Import Database Inventory Ledger Valuation.

Lemma running_stock_fst rows : forall acc,
  map fst (running_stock acc rows) = rows.
Proof.
induction rows as [|m rows IH]; intros acc; simpl; [done|]. by rewrite IH.
Qed.

Lemma received_nonneg rows : 0 <= received rows.
Proof.
unfold received. induction rows as [|m rows IH]; simpl; lia.
Qed.

Lemma running_stock_bounds rows : forall acc,
  Forall (fun m => 0 < quantity m) rows ->
  Forall (fun row : movement * Z => acc < snd row <= acc + received rows)
         (running_stock acc rows).
Proof.
induction rows as [|m rows IH]; intros acc Hpos; simpl; [constructor|].
inversion Hpos as [|? ? Hm Hrest]; subst.
pose proof (received_nonneg rows) as Hnn.
unfold received in *. simpl. constructor.
- simpl. lia.
- eapply Forall_impl; [apply (IH _ Hrest)|].
  intros row Hrow. simpl in Hrow. lia.
Qed.

Lemma received_rev rows : received (rev rows) = received rows.
Proof.
unfold received. induction rows as [|m rows IH]; simpl; [done|].
rewrite map_app, fold_right_app. simpl.
rewrite <- IH. clear IH. generalize (rev rows). intros l.
induction l as [|x l IHl]; simpl; lia.
Qed.

Lemma total_received_alt pid ledger :
  total_received pid ledger = received (layers pid ledger).
Proof.
unfold total_received, layers. rewrite received_rev. unfold received.
by destruct (List.filter (is_layer pid) ledger).
Qed.

Lemma layers_positive pid ledger :
  Forall (fun m => 0 < quantity m) (layers pid ledger).
Proof.
unfold layers. apply Forall_forall. intros m Hm.
apply list_elem_of_In, in_rev, List.filter_In in Hm.
apply (is_layer_quantity pid). tauto.
Qed.

(** What the valuation column is when the recorded inbound quantity
    does not exceed the stock. *)
Lemma fifo_unconsumed pid p ledger :
  layers pid ledger <> [] ->
  total_received pid ledger <= current_stock p ->
  fifo_valuation_cte pid p ledger = Some (layers_cost p (layers pid ledger)).
Proof.
intros Hne Htot. rewrite total_received_alt in Htot.
pose proof (running_stock_bounds _ 0 (layers_positive pid ledger)) as Hb.
assert (Hpos : 0 < current_stock p).
{ destruct (layers pid ledger) as [|m rows] eqn:Hl; [done|].
  simpl in Hb. inversion Hb as [|? ? Hm _]; subst. simpl in Hm. lia. }
unfold fifo_valuation_cte. rewrite total_received_alt.
replace (current_stock p >? 0) with true by (symmetry; apply Z.gtb_lt; lia).
rewrite forallb_filter_id; cycle 1.
{ apply forallb_forall. intros row Hrow.
  rewrite Forall_forall in Hb. apply list_elem_of_In, Hb in Hrow.
  apply Z.gtb_lt. lia. }
assert (Hmap : map (layer_value p) (running_stock 0 (layers pid ledger)) =
               map (layer_cost p) (layers pid ledger)).
{ rewrite <- (running_stock_fst (layers pid ledger) 0) at 2.
  rewrite map_map. apply map_ext_Forall.
  eapply Forall_impl; [exact Hb|]. intros [m r] Hr. simpl in Hr.
  unfold layer_value, layer_cost. simpl.
  replace (r <=? current_stock p) with true by (symmetry; apply Z.leb_le; lia).
  done. }
rewrite Hmap. unfold layers_cost.
destruct (layers pid ledger); [done|]. reflexivity.
Qed.

(** X10.  When everything received is still in stock (the inbound
    quantities recorded for the product sum to no more than its current
    stock, and there is at least one), [getFIFOValuation] values the
    product at the sum of quantity times unit cost over all its inbound
    movements, with the product's cost price for a movement without
    unit cost. *)
Theorem fifo_values_all_layers_when_unconsumed sch pid d t p :
  Js.truthy sch = true ->
  pid <> 0 ->
  schemas d !! sch = Some t ->
  products t !! pid = Some p ->
  active p = true ->
  layers pid (inventory_movements t) <> [] ->
  total_received pid (inventory_movements t) <= current_stock p ->
  exists row,
    getFIFOValuation sch (Some pid) d = inr (OneProduct (Some row)) /\
    fifo_valuation row = layers_cost p (layers pid (inventory_movements t)).
Proof.
intros Hsch Hpid Ht Hp Hact Hne Htot.
unfold getFIFOValuation. rewrite Hsch; simpl. rewrite Ht.
destruct (Z.eqb_spec pid 0) as [|_]; [done|]. simpl.
rewrite Hp, Hact. eexists. split; [reflexivity|]. simpl.
by rewrite fifo_unconsumed.
Qed.

Lemma fifo_values_all_layers_when_unconsumed_witness :
  let d := run_calls SameConnection
             [("tenant_acme", Sample.move "entrada" 10 (Some 150));
              ("tenant_acme", Sample.move "entrada" 20 None);
              ("tenant_acme", Sample.move "entrada" 5 (Some 300))]
             (Sample.with_stock 0) in
  exists row,
    getFIFOValuation "tenant_acme" (Some 1) d = inr (OneProduct (Some row)) /\
    fifo_valuation row = 10 * 150 + 20 * 200 + 5 * 300.
Proof.
intros d.
destruct (fifo_values_all_layers_when_unconsumed "tenant_acme" 1 d
            (mkSchema {[ 1 := set_stock 35 Sample.widget ]}
                      (movements_of "tenant_acme" d) [] 3)
            (set_stock 35 Sample.widget))
  as (row & Hrow & Hval);
  [reflexivity | lia | reflexivity | reflexivity | reflexivity
  | vm_compute; discriminate | vm_compute; discriminate |].
exists row. split; [exact Hrow|]. rewrite Hval. vm_compute. reflexivity.
Defined.

#[local] Instance by_fifo_desc_total : Total by_fifo_desc.
Proof. intros a b. unfold by_fifo_desc. lia. Qed.



End ValuationFacts.

(* ===================================================================== *)
(** ** Further properties of the insight store *)
(* ===================================================================== *)

Section InsightStoreFacts.
Import Database Insights Advisories InsightOps Http InsightsRoutes.

Lemma set_schema_id sch t d :
  schemas d !! sch = Some t -> set_schema sch t d = d.
Proof.
intros H. unfold set_schema. rewrite insert_id by done. by destruct d.
Qed.

Lemma with_insights_nil t : with_insights t [] = t.
Proof. unfold with_insights. rewrite app_nil_r. by destruct t. Qed.

Lemma select_limit_length cond limit t :
  (length (select_limit cond limit t) <= limit)%nat.
Proof. unfold select_limit. rewrite length_take. lia. Qed.

(** What one rule block does when it returns. *)
Lemma rule_effect sch cond limit mk e g d r d' t :
  rule sch cond limit mk e (g, d) = (inr r, d') ->
  schemas d !! sch = Some t ->
  exists added,
    r = g ++ added /\
    d' = set_schema sch (with_insights t added) d /\
    ((select_limit cond limit t = [] /\ added = []) \/
     (select_limit cond limit t <> [] /\
      added = [created_row (mk (Z.of_nat (length (select_limit cond limit t))) e) e])).
Proof.
intros Hrule Ht. unfold rule in Hrule. rewrite Ht in Hrule.
destruct (select_limit cond limit t) as [|x rows] eqn:Hsel.
- simpl in Hrule. injection Hrule as <- <-. exists [].
  rewrite app_nil_r, with_insights_nil, set_schema_id by done.
  split; [done|]. split; [done|]. by left.
- replace (0 <? Z.of_nat (length (x :: rows))) with true in Hrule
    by (symmetry; apply Z.ltb_lt; simpl; lia).
  unfold create in Hrule.
  destruct (negb (Js.truthy sch)); [discriminate|].
  rewrite Ht in Hrule.
  destruct (existsb _ (insights t)); [discriminate|].
  injection Hrule as <- <-. eexists [_].
  split; [reflexivity|]. split; [reflexivity|]. right. split; [discriminate|done].
Qed.

Lemma with_insights_twice t a b :
  with_insights (with_insights t a) b = with_insights t (a ++ b).
Proof. unfold with_insights; simpl. by rewrite app_assoc. Qed.

(** The three rule blocks in a row. *)
Lemma generate_effect sch env d g d' t :
  generateInventoryInsights sch env d = (inr g, d') ->
  schemas d !! sch = Some t ->
  exists a1 a2 a3,
    g = a1 ++ a2 ++ a3 /\
    d' = set_schema sch (with_insights t g) d /\
    ((select_limit out_of_stock 10 t = [] /\ a1 = []) \/
     (select_limit out_of_stock 10 t <> [] /\
      a1 = [created_row (stockout_alert
                           (Z.of_nat (length (select_limit out_of_stock 10 t)))
                           (env 0%nat)) (env 0%nat)])) /\
    ((select_limit low_stock 15 t = [] /\ a2 = []) \/
     (select_limit low_stock 15 t <> [] /\
      a2 = [created_row (low_stock_alert
                           (Z.of_nat (length (select_limit low_stock 15 t)))
                           (env 1%nat)) (env 1%nat)])) /\
    ((select_limit over_stock 10 t = [] /\ a3 = []) \/
     (select_limit over_stock 10 t <> [] /\
      a3 = [created_row (overstock_opportunity
                           (Z.of_nat (length (select_limit over_stock 10 t)))
                           (env 2%nat)) (env 2%nat)])).
Proof.
intros Hgen Ht. unfold generateInventoryInsights in Hgen.
destruct (negb (Js.truthy sch)); [discriminate|].
destruct (rule sch out_of_stock 10 stockout_alert (env 0%nat) ([], d))
  as [[e1|g1] d1] eqn:H1; [discriminate|].
destruct (rule sch low_stock 15 low_stock_alert (env 1%nat) (g1, d1))
  as [[e2|g2] d2] eqn:H2; [discriminate|].
destruct (rule sch over_stock 10 overstock_opportunity (env 2%nat) (g2, d2))
  as [[e3|g3] d3] eqn:H3; [discriminate|].
injection Hgen as <- <-.
destruct (rule_effect _ _ _ _ _ _ _ _ _ t H1 Ht) as (a1 & -> & -> & Ha1).
assert (Ht1 : schemas (set_schema sch (with_insights t a1) d) !! sch
              = Some (with_insights t a1)) by apply set_schema_lookup.
destruct (rule_effect _ _ _ _ _ _ _ _ _ _ H2 Ht1) as (a2 & -> & -> & Ha2).
rewrite set_schema_twice, with_insights_twice in H3.
assert (Ht2 : schemas (set_schema sch (with_insights t (a1 ++ a2)) d) !! sch
              = Some (with_insights t (a1 ++ a2))) by apply set_schema_lookup.
destruct (rule_effect _ _ _ _ _ _ _ _ _ _ H3 Ht2) as (a3 & -> & -> & Ha3).
rewrite set_schema_twice, with_insights_twice.
exists a1, a2, a3. simpl. rewrite <- app_assoc.
split; [done|]. split; [done|]. split; [exact Ha1|]. split; [exact Ha2|exact Ha3].
Qed.

(** X12.  A run of [generateInventoryInsights] that returns has changed
    nothing but the insights of its schema, to which it has appended
    exactly the advisories it returns: at most three, each in status
    [generated], raised by [inventory_monitor], counting between 1 and
    15 products, stamped with the clock reading of its rule and not
    expired at that time. *)
Theorem generate_appends_what_it_returns sch env d g d' t :
  generateInventoryInsights sch env d = (inr g, d') ->
  schemas d !! sch = Some t ->
  d' = set_schema sch (with_insights t g) d /\
  (length g <= 3)%nat /\
  Forall (fun i =>
            status i = "generated" /\
            triggered_by i = "inventory_monitor" /\
            1 <= affected_products i <= 15 /\
            exists k, (k < 3)%nat /\ created_at i = now_id (env k) /\
                      is_active (now_expiry (env k)) i = true) g.
Proof.
intros Hgen Ht.
destruct (generate_effect _ _ _ _ _ _ Hgen Ht)
  as (a1 & a2 & a3 & -> & -> & Ha1 & Ha2 & Ha3).
split; [done|].
pose proof (select_limit_length out_of_stock 10 t) as L1.
pose proof (select_limit_length low_stock 15 t) as L2.
pose proof (select_limit_length over_stock 10 t) as L3.
assert (Hact : forall now n, 0 < n -> (now + n >? now) = true)
  by (intros; apply Z.gtb_lt; lia).
split.
- rewrite !length_app.
  destruct Ha1 as [[_ ->]|[_ ->]]; destruct Ha2 as [[_ ->]|[_ ->]];
    destruct Ha3 as [[_ ->]|[_ ->]]; simpl; lia.
- rewrite !Forall_app. repeat split.
  + destruct Ha1 as [[_ ->]|[Hne ->]]; constructor; [|constructor].
    simpl. repeat split; try done.
    * destruct (select_limit out_of_stock 10 t); [done|simpl; lia].
    * lia.
    * exists 0%nat. repeat split; [lia|]. by apply Hact.
  + destruct Ha2 as [[_ ->]|[Hne ->]]; constructor; [|constructor].
    simpl. repeat split; try done.
    * destruct (select_limit low_stock 15 t); [done|simpl; lia].
    * lia.
    * exists 1%nat. repeat split; [lia|]. by apply Hact.
  + destruct Ha3 as [[_ ->]|[Hne ->]]; constructor; [|constructor].
    simpl. repeat split; try done.
    * destruct (select_limit over_stock 10 t); [done|simpl; lia].
    * lia.
    * exists 2%nat. repeat split; [lia|]. by apply Hact.
Qed.

Lemma generate_appends_what_it_returns_witness :
  let d := Sample.with_stock 5 in
  let res := generateInventoryInsights "tenant_acme" (env_at 1000 "k3x9q0a1z") d in
  exists g, fst res = inr g /\
    snd res = set_schema "tenant_acme"
                (with_insights (mkSchema {[ 1 := set_stock 5 Sample.widget ]} [] [] 0) g) d /\
    length g = 1%nat.
Proof.
intros d res.
destruct res as [[e|g] d'] eqn:Hres; [discriminate Hres|].
exists g. split; [reflexivity|].
destruct (generate_appends_what_it_returns "tenant_acme" (env_at 1000 "k3x9q0a1z")
            d g d' (mkSchema {[ 1 := set_stock 5 Sample.widget ]} [] [] 0) Hres eq_refl)
  as (Hd & _ & _).
split; [exact Hd|]. by injection Hres as <- _.
Defined.

Lemma filter_none {A} (f : A -> bool) (l : list A) :
  (forall x, In x l -> f x = false) -> List.filter f l = [].
Proof.
induction l as [|x l IH]; intros H; simpl; [done|].
rewrite (H x) by (by left). apply IH. intros y Hy. apply H. by right.
Qed.

Lemma select_limit_nil cond limit t :
  (0 < limit)%nat ->
  select_limit cond limit t = [] <->
  forall pid p, products t !! pid = Some p -> active p = true -> cond p = false.
Proof.
intros Hlim. unfold select_limit. split.
- intros Hnil pid p Hp Hact.
  destruct (cond p) eqn:Hc; [|done].
  assert (Hin : In (pid, p)
                   (List.filter (fun kp : Z * product => cond kp.2 && active kp.2)
                                (map_to_list (products t)))).
  { apply List.filter_In. split.
    - by apply list_elem_of_In, elem_of_map_to_list.
    - simpl. by rewrite Hc, Hact. }
  destruct (List.filter _ (map_to_list (products t))) as [|x l]; [done|].
  destruct limit; [lia|]. discriminate Hnil.
- intros Hall.
  assert (Hf : List.filter (fun kp : Z * product => cond kp.2 && active kp.2)
                           (map_to_list (products t)) = []).
  { apply filter_none. intros [pid p] Hin. simpl.
    apply list_elem_of_In, elem_of_map_to_list in Hin.
    destruct (active p) eqn:Hact; [|by rewrite andb_false_r].
    by rewrite (Hall pid p Hin Hact). }
  by rewrite Hf, take_nil.
Qed.

(** X13.  A run of [generateInventoryInsights] that returns yields no
    advisory exactly when every active product of the schema has a
    stock that is not 0, is negative or above its minimum threshold,
    and is at most its maximum threshold; and then the database is
    unchanged.  The low-stock rule asks for a stock above 0, so a
    negative stock raises nothing. *)
Theorem generate_silent_iff_nothing_to_report sch env d g d' t :
  generateInventoryInsights sch env d = (inr g, d') ->
  schemas d !! sch = Some t ->
  (g = [] <->
   forall pid p, products t !! pid = Some p -> active p = true ->
     current_stock p <> 0 /\
     (current_stock p < 0 \/ min_stock_threshold p < current_stock p) /\
     current_stock p <= max_stock_threshold p) /\
  (g = [] -> d' = d).
Proof.
intros Hgen Ht.
assert (Hrules : nothing_to_report t <->
          forall pid p, products t !! pid = Some p -> active p = true ->
            current_stock p <> 0 /\
            (current_stock p < 0 \/ min_stock_threshold p < current_stock p) /\
            current_stock p <= max_stock_threshold p).
{ unfold nothing_to_report, out_of_stock, low_stock, over_stock.
  split; intros H pid p Hp Hact; specialize (H pid p Hp Hact);
    destruct (Z.eqb_spec (current_stock p) 0),
             (Z.gtb_spec (current_stock p) 0),
             (Z.leb_spec (current_stock p) (min_stock_threshold p)),
             (Z.gtb_spec (current_stock p) (max_stock_threshold p));
    cbn [andb] in *; destruct H as (? & ? & ?);
    try discriminate; try lia; repeat split; (done || lia). }
rewrite <- Hrules. clear Hrules.
destruct (generate_effect _ _ _ _ _ _ Hgen Ht)
  as (a1 & a2 & a3 & -> & -> & Ha1 & Ha2 & Ha3).
split; cycle 1.
{ intros ->. by rewrite with_insights_nil, set_schema_id. }
unfold nothing_to_report. split.
- intros Hnil. apply app_eq_nil in Hnil as [-> Hnil].
  apply app_eq_nil in Hnil as [-> ->].
  destruct Ha1 as [[H1 _]|[_ ?]]; [|done].
  destruct Ha2 as [[H2 _]|[_ ?]]; [|done].
  destruct Ha3 as [[H3 _]|[_ ?]]; [|done].
  intros pid p Hp Hact.
  rewrite select_limit_nil in H1, H2, H3 by lia.
  split; [by eapply H1|]. split; [by eapply H2|by eapply H3].
- intros Hall.
  assert (select_limit out_of_stock 10 t = []) as H1
    by (apply select_limit_nil; [lia|]; intros; by eapply Hall).
  assert (select_limit low_stock 15 t = []) as H2
    by (apply select_limit_nil; [lia|]; intros; by eapply Hall).
  assert (select_limit over_stock 10 t = []) as H3
    by (apply select_limit_nil; [lia|]; intros; by eapply Hall).
  destruct Ha1 as [[_ ->]|[? _]]; [|done].
  destruct Ha2 as [[_ ->]|[? _]]; [|done].
  destruct Ha3 as [[_ ->]|[? _]]; [|done]. done.
Qed.

Lemma generate_silent_iff_nothing_to_report_witness :
  let d := Sample.with_stock (-5) in
  generateInventoryInsights "tenant_acme" (env_at 1000 "k3x9q0a1z") d = (inr [], d).
Proof.
intros d.
destruct (generateInventoryInsights "tenant_acme" (env_at 1000 "k3x9q0a1z") d)
  as [[e|g] d'] eqn:Hres; [discriminate Hres|].
destruct (generate_silent_iff_nothing_to_report "tenant_acme"
            (env_at 1000 "k3x9q0a1z") d g d'
            (mkSchema {[ 1 := set_stock (-5) Sample.widget ]} [] [] 0) Hres eq_refl)
  as [_ Hsame].
assert (g = []) as -> by (by injection Hres as <- _).
by rewrite Hsame.
Defined.



(** Which statuses the server takes into the column. *)
Lemma status_accepted col st :
  status_rejected col st = None <->
  match col with
  | StatusVarchar => Js.chars st <= 50
  | StatusEnum => st ∈ insight_status_enum
  end.
Proof.
unfold status_rejected. destruct col.
- destruct (Z.ltb_spec 50 (Js.chars st)); split; (done || lia).
- destruct (bool_decide_reflect (st ∈ insight_status_enum)); split; done.
Qed.



Lemma active_not_expired now i : is_active now i = true -> expired now i = false.
Proof.
unfold is_active, expired. destruct (expires_at i); [|done].
intros H. apply Z.gtb_lt in H. apply Z.ltb_ge. lia.
Qed.

Lemma filter_idempotent {A} (f : A -> bool) (l : list A) :
  List.filter f (List.filter f l) = List.filter f l.
Proof.
induction l as [|x l IH]; simpl; [done|].
destruct (f x) eqn:E; simpl; [by rewrite E, IH|done].
Qed.

Lemma filter_complement_nil {A} (f : A -> bool) (l : list A) :
  List.filter f (List.filter (fun x => negb (f x)) l) = [].
Proof.
apply filter_none. intros x Hx. apply List.filter_In in Hx as [_ Hx].
by destruct (f x).
Qed.

Lemma filter_split_length {A} (f : A -> bool) (l : list A) :
  (length (List.filter f l) + length (List.filter (fun x => negb (f x)) l)
   = length l)%nat.
Proof.
induction l as [|x l IH]; simpl; [done|]. destruct (f x); simpl; lia.
Qed.

(** X15.  [cleanupExpiredInsights] at time [now] removes exactly the
    insights whose expiry is before [now] and returns their number:
    every insight that is active at [now], and every insight without
    expiry, is kept, in order; nothing else in the database changes; and
    a second cleanup at the same time removes nothing. *)
Theorem cleanup_removes_exactly_expired sch now d t :
  Js.truthy sch = true ->
  schemas d !! sch = Some t ->
  exists n d',
    cleanupExpiredInsights sch now d = (inr n, d') /\
    d' = set_schema sch
           (mkSchema (products t) (inventory_movements t)
                     (List.filter (fun i => negb (expired now i)) (insights t))
                     (movements_seq t)) d /\
    n + Z.of_nat (length (insights_of sch d')) = Z.of_nat (length (insights t)) /\
    (forall i, i ∈ insights_of sch d' <-> i ∈ insights t /\ expired now i = false) /\
    (forall i, i ∈ insights t -> is_active now i = true -> i ∈ insights_of sch d') /\
    cleanupExpiredInsights sch now d' = (inr 0, d').
Proof.
intros Hsch Ht. unfold cleanupExpiredInsights. rewrite Hsch; simpl. rewrite Ht.
eexists _, _. split; [reflexivity|]. split; [reflexivity|].
rewrite set_schema_lookup. unfold insights_of. rewrite set_schema_lookup. simpl.
assert (Hmem : forall i, i ∈ List.filter (fun i => negb (expired now i)) (insights t)
                         <-> i ∈ insights t /\ expired now i = false).
{ intros i. rewrite !list_elem_of_In, List.filter_In, negb_true_iff. done. }
split; [|split; [exact Hmem|split]].
- pose proof (filter_split_length (expired now) (insights t)). lia.
- intros i Hi Hact. apply Hmem. split; [done|]. by apply active_not_expired.
- rewrite filter_complement_nil, filter_idempotent, set_schema_twice. done.
Qed.

Lemma cleanup_removes_exactly_expired_witness :
  let res := cleanupExpiredInsights "tenant_acme" 1000 with_advisories in
  fst res = inr 1 /\
  map insight_id (insights_of "tenant_acme" (snd res)) = ["b"; "c"; "d"] /\
  cleanupExpiredInsights "tenant_acme" 1000 (snd res) = (inr 0, snd res).
Proof.
intros res.
destruct (cleanup_removes_exactly_expired "tenant_acme" 1000 with_advisories
            _ eq_refl eq_refl) as (n & d' & Hrun & _ & _ & _ & _ & Hagain).
assert (Hd : d' = snd res) by (unfold res; by rewrite Hrun).
split; [reflexivity|]. split; [reflexivity|].
rewrite <- Hd. exact Hagain.
Defined.

Lemma matches_active o now i :
  o_active_only o <> Some false -> matches o now i = true -> is_active now i = true.
Proof.
intros Ho. unfold matches. rewrite !andb_true_iff.
intros [[[_ Ha] _] _]. destruct (o_active_only o) as [[|]|]; done.
Qed.

Lemma filter_after_filter {A} (f g : A -> bool) (l : list A) :
  (forall x, f x = true -> g x = true) ->
  List.filter f (List.filter g l) = List.filter f l.
Proof.
intros H. induction l as [|x l IH]; simpl; [done|].
destruct (g x) eqn:Eg; simpl.
- by rewrite IH.
- destruct (f x) eqn:Ef; [|done]. rewrite (H x Ef) in Eg. done.
Qed.

(** X16.  A cleanup is invisible to the default listing: [getAll] with
    [active_only] not set to [false] returns the same rows after
    [cleanupExpiredInsights] at that time as before it, whatever the
    other options.  (An insight whose expiry is exactly [now] is not
    listed by it and not removed by the cleanup.) *)
Theorem cleanup_invisible_to_active_listing sch o now d :
  o_active_only o <> Some false ->
  getAll sch o now (snd (cleanupExpiredInsights sch now d)) = getAll sch o now d.
Proof.
intros Ho. unfold cleanupExpiredInsights, getAll.
destruct (negb (Js.truthy sch)); [done|].
destruct (schemas d !! sch) as [t|] eqn:Ht; cbn [snd]; [|by rewrite Ht].
rewrite set_schema_lookup. cbn [insights].
rewrite filter_after_filter; [done|].
intros i Hm. apply negb_true_iff, active_not_expired.
by apply (matches_active o).
Qed.

Lemma cleanup_invisible_to_active_listing_witness :
  getAll "tenant_acme" no_options 1000
         (snd (cleanupExpiredInsights "tenant_acme" 1000 with_advisories))
  = getAll "tenant_acme" no_options 1000 with_advisories /\
  match getAll "tenant_acme" no_options 1000 with_advisories with
  | inr rows => map (fun r : insight * bool => insight_id (fst r)) rows
  | inl _ => []
  end = ["c"; "d"].
Proof.
split; [|reflexivity].
apply (cleanup_invisible_to_active_listing "tenant_acme" no_options 1000
         with_advisories).
discriminate.
Defined.

Lemma Sorted_drop_keeps {A} (R : relation A) n : forall l,
  Sorted R l -> Sorted R (drop n l).
Proof.
induction n as [|n IH]; intros l Hs; [by rewrite drop_0|].
destruct l as [|x l]; [done|]. simpl. apply IH. by inversion Hs.
Qed.

Lemma Sorted_take_keeps {A} (R : relation A) l : forall n,
  Sorted R l -> Sorted R (take n l).
Proof.
induction l as [|x l IH]; intros n Hs; [by rewrite take_nil|].
destruct n as [|n]; [constructor|]. simpl.
inversion Hs as [|? ? Hl Hhd]; subst. constructor; [by apply IH|].
destruct Hhd as [|y l' Hxy]; [rewrite take_nil; constructor|].
destruct n; simpl; by constructor.
Qed.

#[local] Instance listed_before_total : Total listed_before.
Proof. intros a b. unfold listed_before. lia. Qed.

(** X17.  The rows [getAll] returns are insights of the schema that
    pass every filter that is set, each with its [is_active] column,
    ordered critical, high, medium, low and newest first within a
    priority; a non-zero [limit] bounds their number; and unless
    [active_only] is [false] every row is active. *)
Theorem getAll_filtered_and_ordered sch o now d rows t :
  getAll sch o now d = inr rows ->
  schemas d !! sch = Some t ->
  Sorted listed_before (map fst rows) /\
  Forall (fun r : insight * bool =>
            fst r ∈ insights t /\ matches o now (fst r) = true /\
            snd r = is_active now (fst r)) rows /\
  (forall n, o_limit o = Some n -> n <> 0 -> Z.of_nat (length rows) <= n) /\
  (o_active_only o <> Some false -> Forall (fun r => snd r = true) rows).
Proof.
intros Hget Ht. unfold getAll in Hget.
destruct (negb (Js.truthy sch)); [discriminate|]. rewrite Ht in Hget.
set (sorted := merge_sort listed_before (List.filter (matches o now) (insights t))) in *.
set (limit := if Js.truthy_num (o_limit o) then o_limit o else None) in *.
set (offset := if Js.truthy_num (o_offset o) then o_offset o else None) in *.
destruct (bool_decide (default 0 limit < 0)) eqn:Hlim; [discriminate|].
destruct (bool_decide (default 0 offset < 0)); [discriminate|].
apply bool_decide_eq_false in Hlim.
set (skipped := drop (Z.to_nat (default 0 offset)) sorted) in *.
set (taken := match limit with
              | Some n => take (Z.to_nat n) skipped
              | None => skipped
              end) in *.
injection Hget as <-.
assert (Hsorted : Sorted listed_before taken).
{ unfold taken. destruct limit.
  - apply Sorted_take_keeps, Sorted_drop_keeps, Sorted_merge_sort. apply _.
  - apply Sorted_drop_keeps, Sorted_merge_sort. apply _. }
assert (Hsub : taken ⊆ List.filter (matches o now) (insights t)).
{ intros i Hi.
  assert (i ∈ skipped) as Hi'.
  { unfold taken in Hi. destruct limit; [by eapply subseteq_take|done]. }
  apply subseteq_drop in Hi'. unfold sorted in Hi'.
  by rewrite merge_sort_Permutation in Hi'. }
assert (Hall : Forall (fun i => i ∈ insights t /\ matches o now i = true) taken).
{ apply Forall_forall. intros i Hi. apply Hsub in Hi.
  apply list_elem_of_In, List.filter_In in Hi. rewrite list_elem_of_In. done. }
split; [|split; [|split]].
- rewrite map_map. simpl. by rewrite map_id.
- apply Forall_fmap. eapply Forall_impl; [exact Hall|].
  intros i [Hi Hm]. simpl. done.
- intros n Hn Hn0. rewrite length_map. unfold taken, limit. rewrite Hn. simpl.
  destruct (Z.eqb_spec n 0) as [|_]; [done|]. simpl.
  rewrite length_take.
  unfold limit in Hlim. rewrite Hn in Hlim. simpl in Hlim.
  destruct (Z.eqb_spec n 0) as [|_]; [done|]. simpl in Hlim. lia.
- intros Ho. apply Forall_fmap. eapply Forall_impl; [exact Hall|].
  intros i [_ Hm]. simpl. by apply (matches_active o).
Qed.

Lemma getAll_filtered_and_ordered_witness :
  exists rows,
    getAll "tenant_acme" three_alerts 1000 with_advisories = inr rows /\
    map (fun r : insight * bool => (insight_id (fst r), snd r)) rows
      = [("c", true); ("d", true); ("b", false)] /\
    Sorted listed_before (map fst rows).
Proof.
eexists. split; [reflexivity|]. split; [reflexivity|].
eapply (getAll_filtered_and_ordered "tenant_acme" three_alerts 1000 with_advisories
          _ (mkSchema {[ 1 := Sample.widget ]} []
                      [one_insight "a" "low" (Some 900) 10;
                       one_insight "b" "high" (Some 1000) 20;
                       one_insight "c" "critical" (Some 5000) 30;
                       one_insight "d" "high" None 40] 0));
  reflexivity.
Defined.

End InsightStoreFacts.

(* ===================================================================== *)
(** ** Further properties of the tenant registry and the middleware *)
(* ===================================================================== *)

Section RegistryFacts.
Import Database TenantService TenantMiddleware TenantOps Http TenantRoutes.

Lemma getTenant_Some code d ti :
  getTenant code d = Some ti ->
  info ti ∈ tenants d /\
  tenant_code (info ti) = code /\
  tenant_active (info ti) = true /\
  schema_name ti = "tenant_" +:+ code.
Proof.
unfold getTenant.
destruct (List.filter _ (tenants d)) as [|t l] eqn:Hf; [discriminate|].
intros [= <-]. simpl.
assert (Hin : In t (List.filter
                      (fun t => String.eqb (tenant_code t) code && tenant_active t)
                      (tenants d))) by (rewrite Hf; by left).
apply List.filter_In in Hin as [Hin Hc]. apply andb_true_iff in Hc as [Hc Ha].
apply String.eqb_eq in Hc. rewrite list_elem_of_In. by rewrite Hc.
Qed.

Lemma no_row_filter code (l : list tenant) (f : tenant -> bool) :
  existsb (fun t => String.eqb (tenant_code t) code) l = false ->
  List.filter (fun t => String.eqb (tenant_code t) code && f t) l = [].
Proof.
intros H. apply filter_none. intros t Ht.
destruct (String.eqb (tenant_code t) code) eqn:E; [|done].
assert (existsb (fun t => String.eqb (tenant_code t) code) l = true); [|congruence].
apply existsb_exists. by exists t.
Qed.

Lemma no_row_keep code (l : list tenant) :
  existsb (fun t => String.eqb (tenant_code t) code) l = false ->
  List.filter (fun t => negb (String.eqb (tenant_code t) code)) l = l.
Proof.
intros H. apply forallb_filter_id, forallb_forall. intros t Ht.
destruct (String.eqb (tenant_code t) code) eqn:E; [|done].
assert (existsb (fun t => String.eqb (tenant_code t) code) l = true); [|congruence].
apply existsb_exists. by exists t.
Qed.

(** The loop over [initialData.products], when no row is rejected:
    the rows are added after those the table has, in order, and
    nothing else changes. *)
Lemma insert_products_ok rows : forall t t',
  (forall k, is_Some (products t !! k) -> 1 <= k <= Z.of_nat (size (products t))) ->
  insert_products rows t = (None, t') ->
  inventory_movements t' = inventory_movements t /\
  insights t' = insights t /\
  movements_seq t' = movements_seq t /\
  size (products t') = (size (products t) + length rows)%nat /\
  (forall k row, products t !! k = Some row -> products t' !! k = Some row) /\
  (forall i p, rows !! i = Some p ->
     exists row existing,
       products t' !! (Z.of_nat (size (products t)) + Z.of_nat i + 1) = Some row /\
       initial_product_row existing p = inr row).
Proof.
induction rows as [|p rest IH]; intros t t' Hb; simpl.
{ intros [= <-]. repeat split; try done; lia. }
destruct (initial_product_row (products t) p) as [e|row] eqn:Hrow; [discriminate|].
intros Hrest.
assert (Hfresh : products t !! (Z.of_nat (size (products t)) + 1) = None).
{ destruct (products t !! (Z.of_nat (size (products t)) + 1)) eqn:E; [|done].
  assert (is_Some (products t !! (Z.of_nat (size (products t)) + 1))) as Hs by eauto.
  apply Hb in Hs. lia. }
apply IH in Hrest; simpl in *.
2:{ intros k Hk. rewrite map_size_insert_None by done.
    apply lookup_insert_is_Some in Hk as [<-|[_ Hk]]; [lia|].
    apply Hb in Hk. lia. }
destruct Hrest as (Hm & Hi & Hq & Hsize & Hkeep & Hnew).
rewrite map_size_insert_None in Hsize, Hnew by done.
split; [done|]. split; [done|]. split; [done|]. split; [lia|]. split.
- intros k r Hk. apply Hkeep. rewrite lookup_insert_ne; [done|].
  intros <-. congruence.
- intros [|i] q Hq'; simpl in Hq'.
  + injection Hq' as <-. exists row, (products t). split; [|done].
    replace (Z.of_nat (size (products t)) + Z.of_nat 0 + 1)
      with (Z.of_nat (size (products t)) + 1) by lia.
    apply Hkeep. by rewrite lookup_insert_eq.
  + destruct (Hnew i q Hq') as (r & ex & Hr & Hex). exists r, ex. split; [|done].
    replace (Z.of_nat (size (products t)) + Z.of_nat (S i) + 1)
      with (Z.of_nat (S (size (products t))) + Z.of_nat i + 1) by lia.
    done.
Qed.

(** What a successful [createTenant] has done. *)
Lemma createTenant_inr mode env data d ti d' :
  createTenant mode env data d = (inr ti, d') ->
  valid_code (td_tenant_code data) = true /\
  existsb (fun t => String.eqb (tenant_code t) (td_tenant_code data)) (tenants d)
    = false /\
  schemas d !! ("tenant_" +:+ td_tenant_code data) = None /\
  ti = {| info := {| tenant_code := td_tenant_code data;
                     company_name := td_company_name data;
                     plan := default "basic" (td_plan data);
                     tenant_active := default true (td_active data) |};
          schema_name := "tenant_" +:+ td_tenant_code data |} /\
  exists t,
    d' = {| tenants := tenants d ++ [info ti];
            schemas := <[schema_name ti := t]> (schemas d) |} /\
    match td_initialData data with
    | None => t = empty_schema
    | Some init => insert_products (id_products init) empty_schema = (None, t)
    end.
Proof.
unfold createTenant, createTenant_try. cbn [query_BEGIN conn_db].
destruct (valid_code (td_tenant_code data)); cbn [negb]; [|discriminate].
destruct (existsb _ (tenants d)); [discriminate|].
unfold tenant_row.
destruct (50 <? Js.chars (td_tenant_code data)); [discriminate|].
destruct (255 <? Js.chars (td_company_name data)); [discriminate|].
destruct (50 <? Js.chars (default "basic" (td_plan data))); [discriminate|].
cbn [schemas tenants].
destruct (schemas d !! _) eqn:Hs; [discriminate|].
destruct (comment_error env); [discriminate|].
assert (Hcommit : forall x, query_COMMIT mode (with_db (query_BEGIN d) x) = x)
  by (intros x; by destruct mode).
destruct (td_initialData data) as [init|].
- unfold insertInitialData.
  destruct (insert_products (id_products init) empty_schema) as [[e|] t] eqn:Hins;
    [discriminate|].
  destruct (id_clients init), (clients_error env); try discriminate;
    rewrite Hcommit; intros [= <- <-]; repeat split; by exists t.
- rewrite Hcommit. intros [= <- <-]. repeat split. by exists empty_schema.
Qed.

Lemma createTenant_getTenant mode env data d ti d' :
  createTenant mode env data d = (inr ti, d') ->
  td_active data <> Some false ->
  getTenant (td_tenant_code data) d' = Some ti.
Proof.
intros Hc Hact. apply createTenant_inr in Hc as (Hv & Hex & Hs & -> & t & -> & _).
unfold getTenant; simpl. rewrite List.filter_app, no_row_filter by done. simpl.
rewrite String.eqb_refl. simpl.
destruct (td_active data) as [[|]|]; done.
Qed.

(** X18.  A tenant that [createTenant] has created is in the registry
    with a fresh schema named [tenant_<code>] whose ledger and insights
    are empty.  Without [initialData] the schema has no product; with
    it, the products of [initialData] are stored in order under the
    identifiers 1, 2, ..., each as its [INSERT] reads it, and nothing
    else.  Unless the tenant was created inactive, [getTenant] returns
    it and the middleware passes every request that resolves to its
    code on with that schema. *)
Theorem created_tenant_is_resolvable mode env data d ti d' :
  createTenant mode env data d = (inr ti, d') ->
  valid_code (td_tenant_code data) = true /\
  schema_name ti = "tenant_" +:+ td_tenant_code data /\
  tenants d' = tenants d ++ [info ti] /\
  schemas d !! schema_name ti = None /\
  (exists t,
     schemas d' !! schema_name ti = Some t /\
     inventory_movements t = [] /\ insights t = [] /\
     match td_initialData data with
     | None => products t = ∅
     | Some init =>
         size (products t) = length (id_products init) /\
         forall i p, id_products init !! i = Some p ->
           exists row existing,
             products t !! (Z.of_nat i + 1) = Some row /\
             initial_product_row existing p = inr row
     end) /\
  (forall sch, sch <> schema_name ti -> schemas d' !! sch = schemas d !! sch) /\
  (td_active data <> Some false ->
   getTenant (td_tenant_code data) d' = Some ti /\
   forall req, resolveTenantCode req = Some (td_tenant_code data) ->
               tenantMiddleware req d' = Next (Some (context_of ti))).
Proof.
intros Hc.
pose proof (createTenant_getTenant _ _ _ _ _ _ Hc) as Hget.
apply createTenant_inr in Hc as (Hv & Hex & Hs & -> & t & -> & Ht). simpl in *.
split; [done|]. split; [done|]. split; [done|]. split; [done|].
split.
{ exists t. rewrite lookup_insert_eq. split; [done|].
  destruct (td_initialData data) as [init|]; [|by subst t].
  apply insert_products_ok in Ht as (Hm & Hi & _ & Hsize & _ & Hnew).
  2:{ intros k [x Hk]. simpl in Hk. by rewrite lookup_empty in Hk. }
  simpl in *. rewrite map_size_empty in Hsize, Hnew. simpl in Hsize, Hnew.
  split; [done|]. split; [done|]. split; [done|].
  intros i p Hp. destruct (Hnew i p Hp) as (row & ex & Hrow & Hex0).
  exists row, ex. split; [|done].
  by replace (Z.of_nat i + 1) with (0 + Z.of_nat i + 1) by lia. }
split; [by intros sch Hsch; rewrite lookup_insert_ne|].
intros Hact. specialize (Hget Hact).
split; [exact Hget|].
intros req Hreq. unfold tenantMiddleware. rewrite Hreq, Hget.
unfold schemaExists; simpl. by rewrite lookup_insert_eq.
Qed.

Lemma created_tenant_is_resolvable_witness :
  let res := createTenant SameConnection ready (demo 17) (Sample.with_stock 100) in
  exists ti t,
    res = (inr ti, snd res) /\
    schemas (snd res) !! "tenant_demo_17" = Some t /\
    inventory_movements t = [] /\
    size (products t) = 2%nat /\
    (current_stock <$> products t !! 1) = Some 45 /\
    (sku <$> products t !! 2) = Some "ACEITE-MAZEITE-1L" /\
    getTenant "demo_17" (snd res) = Some ti /\
    tenantMiddleware (with_header "demo_17") (snd res) = Next (Some (context_of ti)).
Proof.
intros res.
destruct (created_tenant_is_resolvable SameConnection ready (demo 17)
            (Sample.with_stock 100) (mkTenantInfo
               {| tenant_code := "demo_17";
                  company_name := "Distribuidora Demo Valencia";
                  plan := "demo"; tenant_active := true |} "tenant_demo_17")
            (snd res) eq_refl)
  as (_ & _ & _ & _ & (t & Ht & Hm & _ & Hsize & _) & _ & Hres).
destruct Hres as [Hget Hmw]; [discriminate|].
eexists _, t. split; [reflexivity|]. split; [exact Ht|]. split; [exact Hm|].
split; [exact Hsize|].
clear Hm Hsize. vm_compute in Ht. injection Ht as <-.
split; [reflexivity|]. split; [reflexivity|].
split; [exact Hget|]. apply Hmw. reflexivity.
Defined.

Lemma exists_includes code :
  Js.includes ("Error creando tenant: " +:+ tenant_exists code) "Ya existe un tenant"
  = true.
Proof.
unfold tenant_exists. apply includes_append_r, includes_prefix.
apply (prefix_append "Ya existe un tenant" (" con código: " +:+ code)).
Qed.

(** X19.  [createTenant] rejects a code that is empty or has a
    character outside [a-z0-9_], and a code that some row of the
    registry already has, active or not; in both cases the database is
    unchanged, and [POST /api/admin/tenants] answers 400 for the former
    and [409 TENANT_EXISTS] for the latter. *)
Theorem create_tenant_rejections mode env data d :
  (valid_code (td_tenant_code data) = false ->
   createTenant mode env data d = (inl ("Error creando tenant: " +:+ invalid_code), d) /\
   status_code (fst (post_tenant mode env data d)) = 400 /\
   snd (post_tenant mode env data d) = d) /\
  (valid_code (td_tenant_code data) = true ->
   existsb (fun t => String.eqb (tenant_code t) (td_tenant_code data)) (tenants d)
     = true ->
   createTenant mode env data d =
     (inl ("Error creando tenant: " +:+ tenant_exists (td_tenant_code data)), d) /\
   (Js.truthy (td_company_name data) = true ->
    status_code (fst (post_tenant mode env data d)) = 409 /\
    error (fst (post_tenant mode env data d)) = "TENANT_EXISTS" /\
    snd (post_tenant mode env data d) = d)).
Proof.
assert (Hback : query_ROLLBACK mode (with_db (query_BEGIN d) d) = d).
{ destruct mode; simpl; [apply rolled_back_same|done]. }
split.
- intros Hv. split.
  + unfold createTenant, createTenant_try. cbn [query_BEGIN conn_db].
    rewrite Hv. cbn [negb]. by rewrite Hback.
  + unfold post_tenant. rewrite Hv.
    by destruct (negb (Js.truthy (td_tenant_code data))
                 || negb (Js.truthy (td_company_name data))).
- intros Hv Hex.
  assert (Hc : createTenant mode env data d =
               (inl ("Error creando tenant: " +:+ tenant_exists (td_tenant_code data)), d)).
  { unfold createTenant, createTenant_try. cbn [query_BEGIN conn_db].
    rewrite Hv, Hex. cbn [negb]. by rewrite Hback. }
  split; [exact Hc|]. intros Hname.
  unfold post_tenant. rewrite Hv, Hname, Hc.
  assert (Js.truthy (td_tenant_code data) = true) as ->
    by (unfold valid_code in Hv; by apply andb_true_iff in Hv as [? _]).
  cbn [negb orb]. by rewrite exists_includes.
Qed.

Lemma create_tenant_rejections_witness :
  let d := Sample.with_stock 100 in
  post_tenant SameConnection ready (mkTenantData "Acme-1" "Acme" None None None) d
    = ({| status_code := 400; error := "INVALID_TENANT_CODE";
          message := "tenant_code solo puede contener letras minúsculas, números y guiones bajos";
          methods := [] |}, d) /\
  status_code (fst (post_tenant SeparateConnections ready
                      (mkTenantData "acme" "Acme again" None None None) d)) = 409 /\
  snd (post_tenant SeparateConnections ready
         (mkTenantData "acme" "Acme again" None None None) d) = d.
Proof.
intros d. split; [reflexivity|].
destruct (create_tenant_rejections SeparateConnections ready
            (mkTenantData "acme" "Acme again" None None None) d) as [_ Hdup].
destruct (Hdup eq_refl eq_refl) as [_ Hroute].
destruct (Hroute eq_refl) as (H409 & _ & Hsame). by split.
Defined.

Lemma deleteTenant_success mode code d ti :
  getTenant code d = Some ti ->
  deleteTenant mode code true no_faults d =
    (inr true, delete_tenant_row code (drop_schema (schema_name ti) d)).
Proof.
intros Hti. unfold deleteTenant, deleteTenant_try; simpl. rewrite Hti.
by destruct mode.
Qed.

(** X20.  Creating a tenant and then deleting it (confirmed, both
    statements succeeding) gives back the database as it was before the
    creation. *)
Theorem create_then_delete_restores mode env data d ti d1 :
  createTenant mode env data d = (inr ti, d1) ->
  td_active data <> Some false ->
  deleteTenant mode (td_tenant_code data) true no_faults d1 = (inr true, d).
Proof.
intros Hc Hact.
pose proof (createTenant_getTenant mode env data d ti d1 Hc Hact) as Hget.
rewrite (deleteTenant_success _ _ _ _ Hget). f_equal.
apply createTenant_inr in Hc as (_ & Hex & Hs & -> & t & -> & _). simpl.
unfold delete_tenant_row, drop_schema; simpl.
rewrite List.filter_app, no_row_keep by done. simpl.
rewrite String.eqb_refl. simpl. rewrite app_nil_r.
rewrite delete_insert_eq, delete_id by done. by destruct d.
Qed.

Lemma create_then_delete_restores_witness :
  let d := Sample.with_stock 100 in
  deleteTenant SeparateConnections "beta_2" true no_faults
    (snd (createTenant SeparateConnections ready beta d)) = (inr true, d) /\
  deleteTenant SameConnection "demo_17" true no_faults
    (snd (createTenant SameConnection ready (demo 17) d)) = (inr true, d).
Proof.
intros d. split.
- eapply (create_then_delete_restores SeparateConnections ready beta d);
    [reflexivity|discriminate].
- eapply (create_then_delete_restores SameConnection ready (demo 17) d);
    [reflexivity|discriminate].
Defined.

Lemma getTenant_after_deactivate code c (l : list tenant) :
  List.filter (fun t => String.eqb (tenant_code t) c && tenant_active t)
    (map (fun t => if String.eqb (tenant_code t) code then set_inactive t else t) l)
  = if String.eqb c code then []
    else List.filter (fun t => String.eqb (tenant_code t) c && tenant_active t) l.
Proof.
induction l as [|t l IH]; simpl; [by destruct (String.eqb c code)|].
rewrite IH. clear IH.
destruct (String.eqb_spec (tenant_code t) code) as [E|E]; simpl.
- destruct (String.eqb_spec c code) as [->|Hc].
  + by rewrite andb_false_r.
  + rewrite E. destruct (String.eqb_spec code c); [congruence|done].
- destruct (String.eqb_spec c code) as [->|Hc]; [|done].
  destruct (String.eqb_spec (tenant_code t) code); [done|done].
Qed.

(** X21.  After [deactivateTenant] the tenant is locked out but not
    gone: [getTenant] no longer finds it, every request that resolves
    to its code is answered [404 TENANT_NOT_FOUND], and even a confirmed
    [deleteTenant] throws "no encontrado", so the schema of a
    deactivated tenant cannot be dropped; the schemas, the number of
    rows listed by [getAllTenants] and the other tenants are as before.
    The call reports [true] exactly when some row has the code. *)
Theorem deactivated_tenant_is_locked_out mode code f d :
  let '(found, d') := deactivateTenant code d in
  (found = true <-> exists t, t ∈ tenants d /\ tenant_code t = code) /\
  getTenant code d' = None /\
  schemas d' = schemas d /\
  length (getAllTenants d') = length (getAllTenants d) /\
  (forall c, c <> code -> getTenant c d' = getTenant c d) /\
  (forall req, resolveTenantCode req = Some code ->
     exists r, tenantMiddleware req d' = Respond r /\
               status_code r = 404 /\ error r = "TENANT_NOT_FOUND") /\
  deleteTenant mode code true f d' =
    (inl ("Error eliminando tenant: Tenant " +:+ code +:+ " no encontrado"), d').
Proof.
unfold deactivateTenant.
assert (Hnone : getTenant code
                  {| tenants := map (fun t => if String.eqb (tenant_code t) code
                                              then set_inactive t else t) (tenants d);
                     schemas := schemas d |} = None).
{ unfold getTenant; simpl. by rewrite getTenant_after_deactivate, String.eqb_refl. }
split; [|split; [exact Hnone|split; [done|split; [|split; [|split]]]]].
- rewrite existsb_exists. split.
  + intros (t & Ht & E). exists t. rewrite list_elem_of_In.
    by apply String.eqb_eq in E.
  + intros (t & Ht & E). exists t. rewrite <- list_elem_of_In.
    by apply String.eqb_eq in E.
- unfold getAllTenants; simpl. by rewrite !length_map, !length_rev, length_map.
- intros c Hc. unfold getTenant; simpl. rewrite getTenant_after_deactivate.
  by destruct (String.eqb_spec c code).
- intros req Hreq. unfold tenantMiddleware. rewrite Hreq, Hnone.
  eexists. split; [reflexivity|]. done.
- unfold deleteTenant, deleteTenant_try; simpl. rewrite Hnone.
  destruct mode; simpl; [by rewrite rolled_back_same|done].
Qed.

Lemma getTenant_other_deleted code c d :
  c <> code -> getTenant c (delete_tenant_row code d) = getTenant c d.
Proof.
intros Hc. unfold getTenant, delete_tenant_row; simpl.
assert (List.filter (fun t => String.eqb (tenant_code t) c && tenant_active t)
          (List.filter (fun t => negb (String.eqb (tenant_code t) code)) (tenants d))
        = List.filter (fun t => String.eqb (tenant_code t) c && tenant_active t)
            (tenants d)) as ->; [|done].
induction (tenants d) as [|t l IH]; simpl; [done|].
destruct (String.eqb_spec (tenant_code t) code) as [E|E]; simpl.
- destruct (String.eqb_spec (tenant_code t) c); [congruence|]. simpl. exact IH.
- destruct (String.eqb (tenant_code t) c && tenant_active t); by rewrite IH.
Qed.

(** X22.  A confirmed [deleteTenant] of an active tenant whose two
    statements succeed removes that tenant's row and schema and nothing
    else: the other tenants and schemas are as before, the route
    answers 200, and a second delete throws "no encontrado". *)
Theorem delete_removes_only_its_tenant mode code d ti :
  getTenant code d = Some ti ->
  exists d',
    deleteTenant mode code true no_faults d = (inr true, d') /\
    getTenant code d' = None /\
    schemaExists (schema_name ti) d' = false /\
    (forall c, c <> code -> getTenant c d' = getTenant c d) /\
    (forall sch, sch <> schema_name ti -> schemas d' !! sch = schemas d !! sch) /\
    status_code (fst (delete_tenant mode code "DELETE_EVERYTHING" no_faults d)) = 200 /\
    snd (delete_tenant mode code "DELETE_EVERYTHING" no_faults d) = d' /\
    deleteTenant mode code true no_faults d' =
      (inl ("Error eliminando tenant: Tenant " +:+ code +:+ " no encontrado"), d').
Proof.
intros Hti. eexists. split; [by apply deleteTenant_success|].
assert (Hnone : getTenant code (delete_tenant_row code (drop_schema (schema_name ti) d))
                = None) by apply getTenant_deleted.
split; [exact Hnone|]. split.
{ unfold schemaExists, delete_tenant_row, drop_schema; simpl.
  by rewrite lookup_delete_eq. }
split.
{ intros c Hc. rewrite getTenant_other_deleted by done.
  by apply getTenant_same_tenants. }
split.
{ intros sch Hsch. unfold delete_tenant_row, drop_schema; simpl.
  by rewrite lookup_delete_ne. }
unfold delete_tenant. simpl. rewrite (deleteTenant_success _ _ _ _ Hti).
split; [done|]. split; [done|].
unfold deleteTenant, deleteTenant_try; simpl. rewrite Hnone.
destruct mode; simpl; [by rewrite rolled_back_same|done].
Qed.

Lemma delete_removes_only_its_tenant_witness :
  let d := snd (createTenant SameConnection ready beta (Sample.with_stock 100)) in
  exists d',
    deleteTenant SameConnection "acme" true no_faults d = (inr true, d') /\
    getTenant "acme" d' = None /\
    getTenant "beta_2" d' = getTenant "beta_2" d /\
    schemas d' !! "tenant_beta_2" = schemas d !! "tenant_beta_2".
Proof.
intros d.
destruct (delete_removes_only_its_tenant SameConnection "acme" d
            (mkTenantInfo Sample.acme "tenant_acme") eq_refl)
  as (d' & Hdel & Hnone & _ & Hothers & Hschemas & _).
exists d'. split; [exact Hdel|]. split; [exact Hnone|]. split.
- apply Hothers. discriminate.
- apply Hschemas. discriminate.
Defined.

(** X23.  Whenever the middleware passes a request on with a tenant
    context, that context is sound: the code is the one resolved from
    the request, the tenant is an active row of the registry with that
    code, the schema is [tenant_<code>] and exists, [requireTenant]
    lets the request through and [checkTenantPermission] grants every
    permission. *)
Theorem middleware_context_is_sound req d ctx :
  tenantMiddleware req d = Next (Some ctx) ->
  resolveTenantCode req = Some (ctx_tenantCode ctx) /\
  getTenant (ctx_tenantCode ctx) d = Some (ctx_tenant ctx) /\
  info (ctx_tenant ctx) ∈ tenants d /\
  tenant_code (info (ctx_tenant ctx)) = ctx_tenantCode ctx /\
  tenant_active (info (ctx_tenant ctx)) = true /\
  ctx_tenantSchema ctx = "tenant_" +:+ ctx_tenantCode ctx /\
  (exists t, schemas d !! ctx_tenantSchema ctx = Some t) /\
  requireTenant (Some ctx) = None /\
  (forall permission, checkTenantPermission (Some ctx) permission = true).
Proof.
unfold tenantMiddleware.
destruct (resolveTenantCode req) as [code|] eqn:Hres.
2:{ by destruct (negb (isPublicRoute req)). }
destruct (getTenant code d) as [ti|] eqn:Hti; [|discriminate].
destruct (schemaExists (schema_name ti) d) eqn:Hex; [|discriminate].
simpl. intros [= <-]. simpl.
destruct (getTenant_Some _ _ _ Hti) as (Hin & Hcode & Hact & Hname).
split; [done|]. split; [done|]. split; [done|]. split; [done|]. split; [done|].
split; [done|]. split.
{ unfold schemaExists in Hex. destruct (schemas d !! schema_name ti); [by eauto|done]. }
split.
{ unfold requireTenant; simpl. by rewrite Hname. }
done.
Qed.

Lemma middleware_context_is_sound_witness :
  exists ctx,
    tenantMiddleware (with_header "acme") (Sample.with_stock 100) = Next (Some ctx) /\
    ctx_tenantSchema ctx = "tenant_acme" /\
    requireTenant (Some ctx) = None.
Proof.
eexists. split; [reflexivity|].
destruct (middleware_context_is_sound (with_header "acme") (Sample.with_stock 100)
            _ eq_refl) as (_ & _ & _ & _ & _ & Hname & _ & Hreq & _).
split; [exact Hname|exact Hreq].
Defined.

Lemma segment_path_match p code : path_match p = Some code -> Js.truthy code = true.
Proof.
unfold path_match. destruct (Js.startsWith p "/api/tenant/"); [|discriminate].
destruct (segment _) as [seg|]; [|discriminate].
destruct (Js.truthy seg) eqn:E; [|discriminate]. by intros [= <-].
Qed.

(** X24.  The [X-Tenant] header wins over every other signal, and a
    resolved tenant code is never empty. *)
Theorem header_wins_and_codes_are_not_empty req :
  (Js.truthy (header_x_tenant req) = true ->
   resolveTenantCode req = Some (header_x_tenant req)) /\
  (forall code, resolveTenantCode req = Some code -> Js.truthy code = true).
Proof.
unfold resolveTenantCode. split.
- by intros ->.
- intros code.
  destruct (Js.truthy (header_x_tenant req)) eqn:Hh; [by intros [= <-]|].
  destruct (Js.truthy (hostname req) && _ && _).
  { destruct (2 <=? _); [|discriminate].
    destruct (Js.truthy (List.nth 0 (Js.split (hostname req) ".") "") && _ && _)
      eqn:Hs; [|discriminate].
    intros [= <-]. apply andb_true_iff in Hs as [Hs _].
    by apply andb_true_iff in Hs as [Hs _]. }
  destruct (Js.truthy (params_tenantCode req)) eqn:Hp; [by intros [= <-]|].
  destruct (Js.truthy (path req) && _).
  { destruct (path_match (path req)) eqn:Hm; [|discriminate].
    intros [= <-]. by eapply segment_path_match. }
  destruct (Js.truthy (query_tenant req)) eqn:Hq; [by intros [= <-]|discriminate].
Qed.

Lemma header_wins_and_codes_are_not_empty_witness :
  resolveTenantCode
    {| header_x_tenant := "acme"; hostname := "beta.fluxionai.com";
       params_tenantCode := "gamma"; path := "/api/tenant/delta/products";
       query_tenant := "omega" |} = Some "acme".
Proof.
apply (header_wins_and_codes_are_not_empty
         {| header_x_tenant := "acme"; hostname := "beta.fluxionai.com";
            params_tenantCode := "gamma"; path := "/api/tenant/delta/products";
            query_tenant := "omega" |}).
reflexivity.
Defined.

End RegistryFacts.

(* ===================================================================== *)
(** ** Properties of interleaved movements *)
(* ===================================================================== *)

Section ScheduleFacts.
Import Database Inventory Ledger Concurrent Schedules.

Lemma stocks_nonneg_set_same sch t t' d :
  schemas d !! sch = Some t ->
  products t' = products t ->
  stocks_nonneg d -> stocks_nonneg (set_schema sch t' d).
Proof.
intros Ht Hp Hd sch' pid s.
destruct (decide (sch' = sch)) as [->|Hne].
- rewrite stock_of_set_schema, Hp. intros Hs. apply (Hd sch pid).
  unfold stock_of. by rewrite Ht.
- rewrite stock_of_other_schema by done. apply Hd.
Qed.

Lemma stocks_nonneg_update sch pid v t d :
  schemas d !! sch = Some t -> 0 <= v ->
  stocks_nonneg d ->
  stocks_nonneg
    (set_schema sch
       {| products := alter (set_stock v) pid (products t);
          inventory_movements := inventory_movements t;
          insights := insights t;
          movements_seq := movements_seq t |} d).
Proof.
intros Ht Hv Hd sch' pid' s.
destruct (decide (sch' = sch)) as [->|Hne].
- rewrite stock_of_set_schema. cbn [products].
  destruct (decide (pid' = pid)) as [->|Hpid].
  + rewrite lookup_alter_eq. destruct (products t !! pid); [|discriminate].
    simpl. intros [= <-]. exact Hv.
  + rewrite lookup_alter_ne by done. intros Hs. apply (Hd sch pid').
    unfold stock_of. by rewrite Ht.
- rewrite stock_of_other_schema by done. apply Hd.
Qed.

(** One resumption of a task keeps both the tasks and the stocks
    harmless. *)
Lemma step_harmless sch t d :
  harmless t -> stocks_nonneg d ->
  harmless (fst (step sch t d)) /\ stocks_nonneg (snd (step sch t d)).
Proof.
intros Ht Hd. destruct t as [data|data|data cs ch|data row ns|row|e|r]; simpl; try done.
- unfold select_product.
  destruct (schemas d !! sch) as [t|] eqn:Hsch; [|done].
  destruct (products t !! md_product_id data) as [p|] eqn:Hp; [|done].
  destruct (stockChange _ _ _) as [e|change] eqn:Hc; [done|]. simpl.
  split; [|done]. intros n Hn.
  apply (stockChange_keeps_sign _ _ _ _ _ Ht Hc Hn).
  apply (Hd sch (md_product_id data)). unfold stock_of. by rewrite Hsch, Hp.
- unfold insert_movement.
  destruct (schemas d !! sch) as [t|] eqn:Hsch; [|done].
  destruct (movement_row _ _) as [e|row]; [done|]. simpl in *.
  split; [done|]. by eapply stocks_nonneg_set_same.
- unfold update_stock.
  destruct (schemas d !! sch) as [t|] eqn:Hsch; [|done].
  destruct (int4 ns) as [e|stock] eqn:Hns; [done|]. simpl in *.
  split; [done|]. apply stocks_nonneg_update; [done| |done]. by apply Ht.
Qed.

Lemma run_harmless sch schedule : forall tasks d,
  Forall harmless tasks -> stocks_nonneg d ->
  Forall harmless (fst (run sch schedule tasks d)) /\
  stocks_nonneg (snd (run sch schedule tasks d)).
Proof.
induction schedule as [|i rest IH]; intros tasks d Hts Hd; simpl; [done|].
destruct (tasks !! i) as [t|] eqn:Hi; [|by apply IH].
destruct (step sch t d) as [t' d'] eqn:Hstep.
destruct (step_harmless sch t d) as [Ht' Hd']; [|done|].
{ by eapply Forall_lookup_1. }
rewrite Hstep in Ht', Hd'. simpl in Ht', Hd'.
apply IH; [|done]. by apply Forall_insert.
Qed.

(** X25.  However the event loop interleaves the statements of any
    number of [addMovement] calls on a schema, none of them a
    [sincronizacion], no stock becomes negative: the race can lose
    movements, but not drive a stock below zero. *)
Theorem interleaved_stock_never_negative sch schedule datas d :
  Forall (fun data => md_movement_type data <> "sincronizacion") datas ->
  stocks_nonneg d ->
  stocks_nonneg (snd (run sch schedule (map AtBegin datas) d)).
Proof.
intros Hall Hd. apply run_harmless; [|done].
apply Forall_map. eapply Forall_impl; [exact Hall|]. done.
Qed.

Lemma with_stock_nonneg v : 0 <= v -> stocks_nonneg (Sample.with_stock v).
Proof.
intros Hv sch pid s Hs. apply stock_of_inv in Hs as (t & p & Ht & Hp & <-).
unfold Sample.with_stock in Ht; simpl in Ht.
apply lookup_singleton_Some in Ht as [_ <-]. simpl in Hp.
apply lookup_singleton_Some in Hp as [_ <-]. done.
Qed.

Lemma interleaved_stock_never_negative_witness :
  stocks_nonneg
    (snd (run "tenant_acme" [0; 1; 0; 1; 0; 1; 1; 0; 0; 1; 0; 1]%nat
            (map AtBegin [Sample.move "salida" 60 None; Sample.move_text "ajuste" "-7"])
            (Sample.with_stock 100))).
Proof.
apply (interleaved_stock_never_negative "tenant_acme" _
         [Sample.move "salida" 60 None; Sample.move_text "ajuste" "-7"]
         (Sample.with_stock 100)).
- repeat constructor; discriminate.
- apply with_stock_nonneg. lia.
Defined.

End ScheduleFacts.

(* ===================================================================== *)
(** ** Properties of the partition of the tenants *)
(* ===================================================================== *)

Section PartitionFacts.
Import Database Inventory Insights Ledger LedgerOps Partition.

Lemma confined_refl sch d : confined sch d d.
Proof. by repeat split. Qed.

Lemma confined_trans sch d1 d2 d3 :
  confined sch d1 d2 -> confined sch d2 d3 -> confined sch d1 d3.
Proof.
intros (T1 & O1 & S1) (T2 & O2 & S2). repeat split.
- congruence.
- intros s Hs. rewrite O2, O1; done.
- intros H. by apply S1, S2.
- intros H. by apply S2, S1.
Qed.

Lemma confined_set sch t t' d :
  schemas d !! sch = Some t -> confined sch d (set_schema sch t' d).
Proof.
intros Ht. repeat split.
- intros s Hs. by rewrite set_schema_lookup_ne.
- intros _. by rewrite Ht.
- intros _. by rewrite set_schema_lookup.
Qed.

Lemma addMovement_confined mode sch data d :
  confined sch d (snd (addMovement mode sch data d)).
Proof.
destruct (addMovement mode sch data d) as [[e|row] d'] eqn:Hcall; simpl.
{ apply addMovement_throw_unchanged in Hcall. subst. apply confined_refl. }
apply addMovement_ok, addMovement_try_inr in Hcall.
destruct Hcall as (t & p & change & q & n & Ht & _ & _ & _ & _ & _ & _ & ->).
by eapply confined_set.
Qed.

Lemma confined_rolled_back sch d now :
  confined sch d now -> confined sch d (rolled_back d now).
Proof.
intros (T & O & E). split; [done|]. split.
- intros s Hs. rewrite rolled_back_lookup, (O s Hs).
  destruct (schemas d !! s) as [t|]; simpl; [|done]. by rewrite set_seq_id.
- rewrite rolled_back_lookup, fmap_is_Some. done.
Qed.

Lemma syncInventory_confined mode sch items d :
  confined sch d (snd (syncInventory mode sch items d)).
Proof.
apply (syncInventory_db mode sch (confined sch d)).
- intros item r s Hs.
  destruct (sync_item_db mode sch r s item)
    as [_ [-> | (t & p & q & n & text & Ht & _ & _ & ->)]]; [done|].
  eapply confined_trans; [exact Hs|]. by eapply confined_set.
- apply confined_rolled_back.
- apply confined_refl.
Qed.

Lemma create_confined sch data e d : confined sch d (snd (create sch data e d)).
Proof.
unfold create. destruct (negb (Js.truthy sch)); [apply confined_refl|].
destruct (schemas d !! sch) as [t|] eqn:Ht; [|apply confined_refl].
destruct (existsb _ _); [apply confined_refl|]. cbn [snd].
by eapply confined_set.
Qed.

Lemma rule_confined sch cond limit mk e g d :
  confined sch d (snd (rule sch cond limit mk e (g, d))).
Proof.
unfold rule. destruct (schemas d !! sch) as [t|] eqn:Ht; [|apply confined_refl].
destruct (0 <? _); [|apply confined_refl].
pose proof (create_confined sch
              (mk (Z.of_nat (length (select_limit cond limit t))) e) e d) as Hc.
by destruct (create _ _ _ _) as [[msg|i] d'].
Qed.

Lemma generate_confined sch env d :
  confined sch d (snd (generateInventoryInsights sch env d)).
Proof.
unfold generateInventoryInsights.
destruct (negb (Js.truthy sch)); [apply confined_refl|].
pose proof (rule_confined sch out_of_stock 10 stockout_alert (env 0%nat) [] d) as H1.
destruct (rule sch out_of_stock 10 _ _ _) as [[msg|g1] d1]; [done|].
pose proof (rule_confined sch low_stock 15 low_stock_alert (env 1%nat) g1 d1) as H2.
destruct (rule sch low_stock 15 _ _ _) as [[msg|g2] d2];
  [by eapply confined_trans|].
pose proof (rule_confined sch over_stock 10 overstock_opportunity (env 2%nat) g2 d2)
  as H3.
destruct (rule sch over_stock 10 _ _ _) as [[msg|g3] d3]; simpl in *;
  eapply confined_trans; [| exact H3 | | exact H3]; by eapply confined_trans.
Qed.

Lemma updateStatus_confined col sch insightId st d :
  confined sch d (snd (updateStatus col sch insightId st d)).
Proof.
unfold updateStatus. destruct (negb (Js.truthy sch)); [apply confined_refl|].
destruct (schemas d !! sch) as [t|] eqn:Ht; [|apply confined_refl].
destruct (status_rejected col st); [apply confined_refl|].
destruct (List.filter _ _); [apply confined_refl|]. cbn [snd].
by eapply confined_set.
Qed.

Lemma cleanup_confined sch now d :
  confined sch d (snd (cleanupExpiredInsights sch now d)).
Proof.
unfold cleanupExpiredInsights. destruct (negb (Js.truthy sch)); [apply confined_refl|].
destruct (schemas d !! sch) as [t|] eqn:Ht; [|apply confined_refl]. cbn [snd].
by eapply confined_set.
Qed.

Lemma run_write_confined mode d w : confined (fst w) d (run_write mode d w).
Proof.
unfold run_write. destruct (snd w).
- apply addMovement_confined.
- apply syncInventory_confined.
- apply create_confined.
- apply generate_confined.
- apply updateStatus_confined.
- apply cleanup_confined.
Qed.

(** X26.  The writes of the inventory and insights models stay in the
    schema they are given: over any sequence of [addMovement],
    [syncInventory], [create], [generateInventoryInsights],
    [updateStatus] and [cleanupExpiredInsights] calls, failed or not,
    the tenant registry is unchanged, no schema is created or dropped,
    and every schema that no call names has the tables it had. *)
Theorem tenant_writes_stay_in_their_schema mode ws : forall d,
  tenants (run_writes mode ws d) = tenants d /\
  (forall s, is_Some (schemas (run_writes mode ws d) !! s) <->
             is_Some (schemas d !! s)) /\
  (forall s, s ∉ map fst ws ->
             schemas (run_writes mode ws d) !! s = schemas d !! s).
Proof.
unfold run_writes.
induction ws as [|w ws IH]; intros d; cbn [fold_left]; [done|].
destruct (IH (run_write mode d w)) as (T & E & O).
destruct (run_write_confined mode d w) as (T1 & O1 & E1).
split; [congruence|]. split.
- intros s. rewrite E. destruct (decide (s = fst w)) as [->|Hs]; [done|].
  by rewrite O1.
- intros s Hs. cbn [map] in Hs. apply not_elem_of_cons in Hs as [Hne Hs].
  rewrite O by done. by apply O1.
Qed.

End PartitionFacts.

(* ===================================================================== *)
(** ** Properties of the original inventory model *)
(* ===================================================================== *)

Section OriginalFacts.
Import Database Inventory InventoryOriginal Entries.

Lemma recordMovement_inl data t e t' :
  recordMovement data t = (inl e, t') -> t' = t.
Proof.
unfold recordMovement.
destruct (recordMovement_try data t) as [msg|[row t1]]; [|discriminate].
by intros [= _ <-].
Qed.

Lemma recordMovement_inr data t row t' :
  recordMovement data t = (inr row, t') ->
  exists p z,
    products t !! md_product_id data = Some p /\
    active p = true /\
    product_id row = md_product_id data /\
    movement_type row = md_movement_type data /\
    Js.ToNumber (md_quantity data) = Js.Num z /\
    (md_movement_type data = "entrada" /\ quantity row = Z.abs z \/
     md_movement_type data = "salida" /\ quantity row = - Z.abs z) /\
    previous_stock row = current_stock p /\
    new_stock row = current_stock p + quantity row /\
    0 <= new_stock row /\
    cost_per_unit row = (if Js.truthy_num (md_cost_per_unit data)
                         then md_cost_per_unit data else Some (cost_price p)) /\
    reference_type row = md_reference_type data /\
    reference_id row = md_reference_id data /\
    products t' = alter (set_stock (new_stock row)) (md_product_id data) (products t) /\
    inventory_movements t' = inventory_movements t ++ [row] /\
    insights t' = insights t.
Proof.
unfold recordMovement.
destruct (recordMovement_try data t) as [msg|[row1 t1]] eqn:Htry; [discriminate|].
intros [= <- <-]. revert Htry. unfold recordMovement_try.
destruct (String.eqb (md_movement_type data) "entrada"
          || String.eqb (md_movement_type data) "salida") eqn:Hty; [|discriminate].
cbn [negb].
destruct (products t !! md_product_id data) as [p|] eqn:Hp; [|discriminate].
destruct (active p) eqn:Hact; [|discriminate]. cbn [negb].
destruct (Js.lt0 _) eqn:Hlt; [discriminate|].
destruct (movement_row _ _) as [e|row] eqn:Hrow; [discriminate|].
intros [= <- <-].
apply movement_row_inr in Hrow as (q & n & Hq & Hn & _ & ->).
cbn [record_insert a_quantity a_new_stock a_previous_stock a_product_id
     a_movement_type a_cost_per_unit a_reference_type a_reference_id a_notes]
  in Hq, Hn |- *.
unfold Js.abs in Hq, Hn, Hlt.
destruct (Js.ToNumber (md_quantity data)) as [z| |txt] eqn:Hz;
  try (destruct (String.eqb (md_movement_type data) "entrada"); discriminate).
exists p, z. cbn [products inventory_movements insights product_id movement_type
                  quantity previous_stock new_stock cost_per_unit reference_type
                  reference_id].
destruct (String.eqb_spec (md_movement_type data) "entrada") as [He|He].
- cbn [Js.add Js.lt0 Js.ToNumber] in Hq, Hn, Hlt.
  apply int4_Num in Hq as [-> _]. apply int4_Num in Hn as [-> _].
  apply Z.ltb_ge in Hlt. repeat split; try done. by left.
- destruct (String.eqb_spec (md_movement_type data) "salida") as [Hs|Hs];
    [|discriminate].
  cbn [Js.neg Js.add Js.lt0 Js.ToNumber] in Hq, Hn, Hlt.
  apply int4_Num in Hq as [-> _]. apply int4_Num in Hn as [-> _].
  apply Z.ltb_ge in Hlt. repeat split; try done. by right.
Qed.

Lemma recordMovement_well_formed data t row t' :
  recordMovement data t = (inr row, t') -> well_formed row.
Proof.
intros H. apply recordMovement_inr in H
  as (p & z & _ & _ & _ & Hty & _ & Hq & Hprev & Hnew & Hpos & Hcost & _).
unfold well_formed. split; [|split].
- rewrite Hty. destruct Hq as [[-> ->]|[-> ->]]; [left|right]; split; try done; lia.
- by rewrite Hprev.
- done.
Qed.

(** X27.  In the original model every row [recordMovement] stores is
    well formed, whatever is asked for: over any sequence of calls the
    ledger only grows, each new row is an [entrada] with a quantity
    that is not negative or a [salida] with one that is not positive,
    its resulting stock is the previous stock plus the quantity and is
    not negative, no product is added, and a stock that
    was not negative stays so. *)
Theorem recordMovement_rows_well_formed calls : forall t,
  exists added,
    inventory_movements (record_all calls t) = inventory_movements t ++ added /\
    Forall well_formed added /\
    insights (record_all calls t) = insights t /\
    (forall pid p', products (record_all calls t) !! pid = Some p' ->
       exists p, products t !! pid = Some p /\
                 (0 <= current_stock p -> 0 <= current_stock p')).
Proof.
unfold record_all.
induction calls as [|data calls IH]; intros t; cbn [fold_left].
{ exists []. rewrite app_nil_r. repeat split; try done.
  intros pid p' Hp. by exists p'. }
destruct (recordMovement data t) as [[e|row] t1] eqn:Hcall; cbn [snd].
{ apply recordMovement_inl in Hcall. subst. apply IH. }
destruct (IH t1) as (added & Hl & Hwf & Hi & Hp).
pose proof (recordMovement_well_formed _ _ _ _ Hcall) as Hrow.
apply recordMovement_inr in Hcall
  as (p & z & Hlook & _ & _ & _ & _ & _ & _ & _ & Hpos & _ & _ & _
      & Hprod & Hled & Hins).
exists (row :: added). split; [|split; [|split]].
- rewrite Hl, Hled. by rewrite <- app_assoc.
- by constructor.
- congruence.
- intros pid p' Hp'. destruct (Hp pid p' Hp') as (p1 & Hp1 & Hmono).
  rewrite Hprod in Hp1.
  destruct (decide (pid = md_product_id data)) as [->|Hne].
  + rewrite lookup_alter_eq, Hlook in Hp1. simpl in Hp1.
    injection Hp1 as <-. exists p. split; [done|]. intros _. by apply Hmono.
  + rewrite lookup_alter_ne in Hp1 by done. by exists p1.
Qed.

Lemma entry_loop_app e items1 : forall items2 ms t,
  entry_loop e (items1 ++ items2) ms t =
  match entry_loop e items1 ms t with
  | (inr ms1, t1) => entry_loop e items2 ms1 t1
  | (inl msg, t1) => (inl msg, t1)
  end.
Proof.
induction items1 as [|item items1 IH]; intros items2 ms t; simpl; [done|].
destruct (ei_quantity item <=? 0); [done|].
destruct (recordMovement _ t) as [[msg|m] t']; [done|]. apply IH.
Qed.

Lemma entry_loop_with_items e items items' ms t :
  entry_loop (with_items e items') items ms t = entry_loop e items ms t.
Proof.
revert ms t. induction items as [|item items IH]; intros ms t; simpl; [done|].
destruct (ei_quantity item <=? 0); [done|].
destruct (recordMovement _ t) as [[msg|m] t']; [done|]. apply IH.
Qed.

Lemma processInventoryEntry_loop e item items t :
  processInventoryEntry (with_items e (item :: items)) t =
  match entry_loop e (item :: items) [] t with
  | (inr movements, t') => (inr movements, t')
  | (inl msg, t') => (inl ("Error procesando entrada: " +:+ msg), t')
  end.
Proof.
unfold processInventoryEntry. cbn [with_items ed_items].
by rewrite entry_loop_with_items.
Qed.

Lemma entry_loop_booked e items : forall ms0 t ms t',
  entry_loop e items ms0 t = (inr ms, t') ->
  exists added,
    ms = ms0 ++ added /\
    Forall2 (booked e) items added /\
    inventory_movements t' = inventory_movements t ++ added.
Proof.
induction items as [|item items IH]; intros ms0 t ms t'; simpl.
{ intros [= <- <-]. exists []. by rewrite !app_nil_r. }
destruct (Z.leb_spec (ei_quantity item) 0) as [|Hq]; [discriminate|].
destruct (recordMovement _ t) as [[msg|m] t1] eqn:Hcall; [discriminate|].
intros Hloop. apply IH in Hloop as (added & -> & Hall & Hled).
apply recordMovement_inr in Hcall
  as (p & z & _ & _ & Hpid & Hty & Hz & Hqty & _ & _ & _ & _ & Href & Hrid
      & _ & Hled1 & _).
simpl in *. injection Hz as <-.
exists (m :: added). split; [by rewrite <- app_assoc|]. split.
- constructor; [|done]. unfold booked.
  destruct Hqty as [[_ Hqty]|[? _]]; [|discriminate].
  rewrite Hqty. repeat split; try done; lia.
- rewrite Hled, Hled1. by rewrite <- app_assoc.
Qed.

(** X28.  When [processInventoryEntry] returns, it has booked every
    item once and in order: the movements returned are the rows
    appended to the ledger, one [entrada] per item with the item's
    product and (positive) quantity and the reference of the entry,
    ['compra'] when none is given. *)
Theorem entry_books_every_item e t ms t' :
  processInventoryEntry e t = (inr ms, t') ->
  ed_items e <> [] /\
  Forall2 (booked e) (ed_items e) ms /\
  inventory_movements t' = inventory_movements t ++ ms.
Proof.
unfold processInventoryEntry.
destruct (ed_items e) as [|item items] eqn:Hitems; [discriminate|].
destruct (entry_loop e (item :: items) [] t) as [[msg|ms1] t1] eqn:Hloop;
  [discriminate|].
intros [= <- <-]. split; [done|].
apply entry_loop_booked in Hloop as (added & -> & Hall & Hled). done.
Qed.

Lemma entry_books_every_item_witness :
  let e := purchase [mkEntryItem 1 10 None; mkEntryItem 1 5 (Some 260)] in
  exists ms, Forall2 (booked e) (ed_items e) ms /\ length ms = 2%nat.
Proof.
intros e.
destruct (entry_books_every_item e store _ _ eq_refl) as (_ & Hall & _).
eexists. split; [exact Hall|]. vm_compute. reflexivity.
Defined.

(** X29.  [processInventoryEntry] is not all or nothing: when the items
    before a failing one can be booked, the call throws the failing
    item's error and leaves the ledger and the stocks as those items
    made them; the items after the failing one are not looked at. *)
Theorem entry_keeps_items_before_failure e good bad rest t ms t1 msg t2 :
  processInventoryEntry (with_items e good) t = (inr ms, t1) ->
  processInventoryEntry (with_items e [bad]) t1 = (inl msg, t2) ->
  processInventoryEntry (with_items e (good ++ bad :: rest)) t = (inl msg, t1) /\
  inventory_movements t1 = inventory_movements t ++ ms /\
  length ms = length good /\ (0 < length good)%nat.
Proof.
intros Hgood Hbad.
destruct good as [|g good]; [by unfold processInventoryEntry in Hgood|].
rewrite processInventoryEntry_loop in Hgood.
destruct (entry_loop e (g :: good) [] t) as [[m0|ms0] t0] eqn:Hloop; [discriminate|].
injection Hgood as -> ->.
rewrite processInventoryEntry_loop in Hbad.
split.
- rewrite <- app_comm_cons, processInventoryEntry_loop, app_comm_cons.
  rewrite entry_loop_app, Hloop.
  change (bad :: rest) with ([bad] ++ rest). rewrite entry_loop_app.
  destruct (entry_loop e [bad] [] t1) as [[m1|ms1] t3] eqn:Hb; [|discriminate].
  injection Hbad as <- <-.
  revert Hb. simpl. destruct (ei_quantity bad <=? 0); [by intros [= <- <-]|].
  destruct (recordMovement _ t1) as [[m2|row] t4] eqn:Hrec; [|discriminate].
  intros [= <- <-]. apply recordMovement_inl in Hrec. by subst.
- apply entry_loop_booked in Hloop as (added & -> & Hall & Hled).
  split; [done|]. apply Forall2_length in Hall. simpl in *. split; lia.
Qed.

Lemma entry_keeps_items_before_failure_witness :
  let res := processInventoryEntry
               (purchase [mkEntryItem 1 10 None; mkEntryItem 2 4 None;
                          mkEntryItem 1 5 None]) store in
  fst res = inl ("Error procesando entrada: Error registrando movimiento: " +:+
                 "Producto con ID 2 no encontrado o inactivo") /\
  length (inventory_movements (snd res)) = 1%nat.
Proof.
intros res.
destruct (entry_keeps_items_before_failure (purchase [])
            [mkEntryItem 1 10 None] (mkEntryItem 2 4 None) [mkEntryItem 1 5 None]
            store _ _ _ _ eq_refl eq_refl) as (H & _).
split; [exact (f_equal fst H)|]. vm_compute. reflexivity.
Defined.

End OriginalFacts.
